(** * py-sim / pagoda: the Cooper marker-following solver

    A shallow embedding of [pagoda/cooper.py] (classes [Markers] and
    [World]) and of the body-state accessors of [lmj/sim/physics.py],
    with the properties of the specification stated against them.

    Conventions.
    - Python [float]s are IEEE binary64 numbers, the kernel's primitive
      [float]; the cells of the marker array are taken to be [float64] too.
    - Frame numbers and channel indices are natural numbers, as [enumerate]
      produces them.
    - Python objects are shared by reference.  A rigid body is referred to by
      its name (the key under which [World.create_body] registers it in
      [World._bodies]); every alias of a body reads and writes the one
      entry of that map.
    - A method that may raise returns a [result] together with the world as
      the exception left it: Python does not roll state back.
    - Generators are trees of primitive calls and [Yield]s; a [for] loop
      grafts its body at every [Yield] of the generator it consumes.
    - The Open Dynamics Engine is external.  Its integrator, collision
      detection and read-outs are the fields of an [Engine]; its setters and
      getters are plain stores and loads of the body record. *)

From Stdlib Require Import Floats ZArith String Ascii List Lia.
From stdpp Require Import gmap strings list fin_maps sorting pretty.

Set Warnings "-inexact-float".

Open Scope float_scope.
Open Scope list_scope.

(** ** Python exceptions and results *)

Inductive exn : Type :=
| AssertionError
| NameError (name : string)
| KeyError (key : string)
| IndexError
| TypeError
| AttributeError (attr : string)
| ValueError
| StopIteration
| IOError (filename : string).

Inductive result (A : Type) : Type :=
| Ok (a : A)
| Raise (e : exn).
Arguments Ok {A} a.
Arguments Raise {A} e.

(** The two language versions the sources are written for differ in how an
    integer compares with a value that is not a number. *)
Inductive pyversion : Type := Py2 | Py3.

(** ** Vectors of floats (numpy rows, ODE tuples) *)

Abbreviation vec := (list float).

Definition vsub (a b : vec) : vec := zip_with PrimFloat.sub a b.
Definition vmul (a b : vec) : vec := zip_with PrimFloat.mul a b.
Definition vdivs (a : vec) (s : float) : vec := map (fun x => x / s) a.
Definition zeros_like (a : vec) : vec := map (fun _ => 0) a.
Definition vsum (a : vec) : float := fold_left PrimFloat.add a 0.

Definition float_of_nat (n : nat) : float :=
  PrimFloat.of_uint63 (Uint63.of_Z (Z.of_nat n)).

(** [np.mean]: the sum divided by the number of elements; for an empty
    sequence this is [0. / 0]. *)
Definition np_mean (a : vec) : float := vsum a / float_of_nat (length a).

(** ** lmj/sim/physics.py: bodies *)

Inductive Shape : Type :=
| Box (lengths : vec)
| Sphere (radius : float)
| Cylinder (radius length : float)
| Capsule (radius length : float).

(** [Body.dimensions], one definition per subclass. *)
Definition dimensions (s : Shape) : vec :=
  match s with
  | Box lengths => lengths
  | Sphere radius => let d := 2 * radius in [d; d; d]
  | Cylinder radius length => let d := radius in [d; d; length]
  | Capsule radius length => let d := 2 * radius in [d; d; d + length]
  end.

(** The state the engine keeps for one body, as the properties of [Body]
    expose it. *)
Record Body : Type := mkBody {
  shape : Shape;
  position : vec;
  quaternion : vec;
  linear_velocity : vec;
  angular_velocity : vec;
  force : vec;
  torque : vec;
  is_kinematic : bool
}.

#[global] Instance Body_inhabited : Inhabited Body :=
  populate (mkBody (Sphere 0) [] [] [] [] [] [] false).

Definition set_position (p : vec) (b : Body) : Body :=
  mkBody (shape b) p (quaternion b) (linear_velocity b) (angular_velocity b)
         (force b) (torque b) (is_kinematic b).
Definition set_quaternion (q : vec) (b : Body) : Body :=
  mkBody (shape b) (position b) q (linear_velocity b) (angular_velocity b)
         (force b) (torque b) (is_kinematic b).
Definition set_linear_velocity (v : vec) (b : Body) : Body :=
  mkBody (shape b) (position b) (quaternion b) v (angular_velocity b)
         (force b) (torque b) (is_kinematic b).
Definition set_angular_velocity (v : vec) (b : Body) : Body :=
  mkBody (shape b) (position b) (quaternion b) (linear_velocity b) v
         (force b) (torque b) (is_kinematic b).

(** One entry of a frame state: [(name, position, quaternion,
    linear_velocity, angular_velocity)]. *)
Record BodyState : Type := mkBodyState {
  bs_name : string;
  bs_pos : vec;
  bs_rot : vec;
  bs_lin : vec;
  bs_ang : vec
}.

Abbreviation FrameState := (list BodyState).

Definition state_of (name : string) (b : Body) : BodyState :=
  mkBodyState name (position b) (quaternion b)
              (linear_velocity b) (angular_velocity b).

(** The four assignments of the loop body of [set_body_states]. *)
Definition restore (s : BodyState) (b : Body) : Body :=
  set_angular_velocity (bs_ang s)
    (set_linear_velocity (bs_lin s)
      (set_quaternion (bs_rot s)
        (set_position (bs_pos s) b))).

Module Physics.

(** [World._bodies]. *)
Abbreviation bodies_dict := (gmap string Body).

(** [sorted(self._bodies)]. *)
Definition sorted_names (bodies : bodies_dict) : list string :=
  merge_sort String.le (elements (dom bodies)).

(** [World.get_body_states]: one tuple per body, in the order of the
    [bodies] property. *)
Definition get_body_states (bodies : bodies_dict) : FrameState :=
  map (fun k => state_of k (bodies !!! k)) (sorted_names bodies).

(** [World.set_body_states]; [self.get_body(name)] is [self._bodies[name]]
    and raises [KeyError] for an unknown name, after the bodies before it
    have been written. *)
Fixpoint set_body_states (states : FrameState) (bodies : bodies_dict)
  : result unit * bodies_dict :=
  match states with
  | [] => (Ok tt, bodies)
  | s :: rest =>
      match bodies !! bs_name s with
      | None => (Raise (KeyError (bs_name s)), bodies)
      | Some body =>
          set_body_states rest (<[bs_name s := restore s body]> bodies)
      end
  end.

End Physics.


(** ** Python string methods used by the loaders *)

Definition is_space (c : ascii) : bool :=
  let n := nat_of_ascii c in
  (Nat.eqb n 32 || (Nat.leb 9 n && Nat.leb n 13))%bool.

Definition lower_ascii (c : ascii) : ascii :=
  let n := nat_of_ascii c in
  if (Nat.leb 65 n && Nat.leb n 90)%bool then ascii_of_nat (n + 32) else c.

(** [s.lower()]. *)
Definition lower (s : string) : string :=
  string_of_list_ascii (map lower_ascii (list_ascii_of_string s)).

(** [s.endswith(suffix)]. *)
Definition endswith (s suffix : string) : bool :=
  String.prefix (string_of_list_ascii (rev (list_ascii_of_string suffix)))
                (string_of_list_ascii (rev (list_ascii_of_string s))).

Fixpoint lstrip_chars (l : list ascii) : list ascii :=
  match l with
  | c :: l' => if is_space c then lstrip_chars l' else l
  | [] => []
  end.

(** [s.strip()]. *)
Definition strip (s : string) : string :=
  string_of_list_ascii
    (rev (lstrip_chars (rev (lstrip_chars (list_ascii_of_string s))))).

(** [s.split('#')[0]]: the text before the first pound sign. *)
Fixpoint before_pound (l : list ascii) : list ascii :=
  match l with
  | c :: l' => if Ascii.eqb c "#" then [] else c :: before_pound l'
  | [] => []
  end.

(** [s.split()]: the maximal runs of characters that are not white space.
    [cur] is the run being read, in reverse. *)
Fixpoint split_chars (l cur : list ascii) : list string :=
  let flush :=
    match cur with
    | [] => []
    | _ => [string_of_list_ascii (rev cur)]
    end in
  match l with
  | [] => flush
  | c :: l' =>
      if is_space c then flush ++ split_chars l' []
      else split_chars l' (c :: cur)
  end.

Definition split (s : string) : list string :=
  split_chars (list_ascii_of_string s) [].

(** [line.split('#')[0].strip().split()]. *)
Definition tokens_of_line (line : string) : list string :=
  split (strip (string_of_list_ascii
                  (before_pound (list_ascii_of_string line)))).

(** ** pagoda/cooper.py: the state of a [Markers] object *)

(** An [ode.BallJoint] as [Markers.attach] configures it; a field is [None]
    until its setter has been called. *)
Record BallJoint : Type := mkBallJoint {
  body1 : option string;
  body2 : option string;
  anchor1_rel : option vec;
  anchor2_rel : option vec;
  param_cfm : option float;
  param_erp : option float
}.

(** [self.data]: frames, markers in a frame, columns of a marker. *)
Abbreviation ndarray3 := (list (list vec)).

Record Markers : Type := mkMarkers {
  jointgroup : list BallJoint;
  joints : list BallJoint;
  cfm : float;
  erp : float;
  root_attachment_factor : float;
  marker_bodies : gmap string string;
  attach_bodies : gmap string string;
  attach_offsets : gmap string vec;
  channels : list (string * nat);
  roots : option (list string);
  data : option ndarray3
}.

Definition DEFAULT_CFM : float := 1e-4.
Definition DEFAULT_ERP : float := 0.3.

(** [Markers.__init__]; the attribute [roots] does not exist yet. *)
Definition Markers_init : Markers :=
  mkMarkers [] [] DEFAULT_CFM DEFAULT_ERP 1 ∅ ∅ ∅ [] None None.

Definition with_joints (g js : list BallJoint) (m : Markers) : Markers :=
  mkMarkers g js (cfm m) (erp m) (root_attachment_factor m)
            (marker_bodies m) (attach_bodies m) (attach_offsets m)
            (channels m) (roots m) (data m).
Definition with_marker_bodies (mb : gmap string string) (m : Markers) : Markers :=
  mkMarkers (jointgroup m) (joints m) (cfm m) (erp m)
            (root_attachment_factor m) mb (attach_bodies m)
            (attach_offsets m) (channels m) (roots m) (data m).
Definition with_attachments (ab : gmap string string) (ao : gmap string vec)
    (m : Markers) : Markers :=
  mkMarkers (jointgroup m) (joints m) (cfm m) (erp m)
            (root_attachment_factor m) (marker_bodies m) ab ao
            (channels m) (roots m) (data m).
Definition with_channels (c : list (string * nat)) (m : Markers) : Markers :=
  mkMarkers (jointgroup m) (joints m) (cfm m) (erp m)
            (root_attachment_factor m) (marker_bodies m) (attach_bodies m)
            (attach_offsets m) c (roots m) (data m).
Definition with_roots (r : list string) (m : Markers) : Markers :=
  mkMarkers (jointgroup m) (joints m) (cfm m) (erp m)
            (root_attachment_factor m) (marker_bodies m) (attach_bodies m)
            (attach_offsets m) (channels m) (Some r) (data m).
Definition with_data (d : ndarray3) (m : Markers) : Markers :=
  mkMarkers (jointgroup m) (joints m) (cfm m) (erp m)
            (root_attachment_factor m) (marker_bodies m) (attach_bodies m)
            (attach_offsets m) (channels m) (roots m) (Some d).

(** [a[c, k]] for one frame [a] of the array. *)
Definition cell (a : list vec) (c k : nat) : result float :=
  match a !! c with
  | Some row =>
      match row !! k with
      | Some v => Ok v
      | None => Raise IndexError
      end
  | None => Raise IndexError
  end.

(** [self.data[f, c, k]]. *)
Definition data_at (m : Markers) (f c k : nat) : result float :=
  match data m with
  | None => Raise TypeError
  | Some d =>
      match d !! f with
      | Some fr => cell fr c k
      | None => Raise IndexError
      end
  end.

(** ** The world *)

Record Contact : Type := mkContact { geom_a : string; geom_b : string }.

(** Modelled from the spec: the state of [pagoda.skeleton.Skeleton], whose
    source file is not part of the sources at hand.  Bodies are referred to
    by name; [sk_max_force] is [Some f] while the motors are enabled with
    force limit [f]; [sk_torques] collects what [add_torques] has applied
    since the last engine step. *)
Record Skeleton : Type := mkSkeleton {
  sk_bodies : list string;
  sk_roots : list string;
  sk_num_dofs : nat;
  sk_max_force : option float;
  sk_target_velocities : vec;
  sk_torques : list vec
}.

Inductive log_level : Type := INFO | FATAL.

(** A [cooper.World]: the time step, the dictionary of bodies, the contact
    joint group, the joint feedback the engine computed in its last step,
    the skeleton, the markers, and the records sent to the logger (level and
    format string). *)
Record World : Type := mkWorld {
  dt : float;
  _bodies : gmap string Body;
  ode_contactgroup : list Contact;
  ode_feedback : list vec;
  skeleton : Skeleton;
  markers : Markers;
  log : list (log_level * string)
}.

Definition with_bodies (b : gmap string Body) (w : World) : World :=
  mkWorld (dt w) b (ode_contactgroup w) (ode_feedback w) (skeleton w)
          (markers w) (log w).
Definition with_contactgroup (c : list Contact) (w : World) : World :=
  mkWorld (dt w) (_bodies w) c (ode_feedback w) (skeleton w) (markers w)
          (log w).
Definition with_feedback (f : list vec) (w : World) : World :=
  mkWorld (dt w) (_bodies w) (ode_contactgroup w) f (skeleton w) (markers w)
          (log w).
Definition with_skeleton (s : Skeleton) (w : World) : World :=
  mkWorld (dt w) (_bodies w) (ode_contactgroup w) (ode_feedback w) s
          (markers w) (log w).
Definition with_markers (m : Markers) (w : World) : World :=
  mkWorld (dt w) (_bodies w) (ode_contactgroup w) (ode_feedback w)
          (skeleton w) m (log w).
Definition logging (level : log_level) (format : string) (w : World) : World :=
  mkWorld (dt w) (_bodies w) (ode_contactgroup w) (ode_feedback w)
          (skeleton w) (markers w) (log w ++ [(level, format)]).

(** The external collaborators.  The first five fields are the Open
    Dynamics Engine: what one [ode_world.step(dt)] makes of a body and of the
    joint feedback (given the whole world before the step), what
    [ode_space.collide] finds, and the two anchors a ball joint reports.
    Modelled from the spec: the last two fields are the torque read-out
    [Skeleton.joint_torques] ("read-only projection of current per-DOF
    constraint-force-derived torque") and the PID controllers of the
    skeleton ("convert angle error into target angular velocity"), whose
    source is not at hand. *)
Class Engine : Type := {
  ode_step_body : World → string → Body → Body;
  ode_step_feedback : World → list vec;
  ode_collide : World → list Contact;
  joint_getAnchor : World → BallJoint → vec;
  joint_getAnchor2 : World → BallJoint → vec;
  skeleton_joint_torques : World → vec;
  skeleton_pid : World → vec → vec
}.

(** ** The state and exception monad of methods *)

Definition M (A : Type) : Type := World → result A * World.

#[global] Instance M_ret : MRet M := λ A a w, (Ok a, w).
#[global] Instance M_bind : MBind M := λ A B f m w,
  match m w with
  | (Ok a, w') => f a w'
  | (Raise e, w') => (Raise e, w')
  end.

Definition raise {A} (e : exn) : M A := λ w, (Raise e, w).
Definition gets {A} (f : World → A) : M A := λ w, (Ok (f w), w).
Definition modify (f : World → World) : M unit := λ w, (Ok tt, f w).
Definition lift_result {A} (r : result A) : M A := λ w, (r, w).

(** Run a method of [self.markers] that touches nothing else. *)
Definition on_markers {A} (f : Markers → result A * Markers) : M A := λ w,
  let '(r, m) := f (markers w) in (r, with_markers m w).

(** Run a method that touches only the dictionary of bodies. *)
Definition on_bodies {A} (f : gmap string Body → result A * gmap string Body)
  : M A := λ w,
  let '(r, b) := f (_bodies w) in (r, with_bodies b w).

(** ** Markers.detach and Markers.attach *)

(** [self.jointgroup.empty(); self.joints = []]. *)
Definition detach (m : Markers) : Markers := with_joints [] [] m.

Definition new_BallJoint : BallJoint :=
  mkBallJoint None None None None None None.

(** Line 257: [self.root_attachment_factor if target in self.roots else
    1.]. *)
Definition attachment_factor (m : Markers) (rs : list string)
    (target : string) : float :=
  if bool_decide (target ∈ rs) then root_attachment_factor m else 1.

(** One turn of the loop of [attach].  The joint is born in the joint group
    (line 258) before the two dictionary look-ups that may raise; it enters
    [self.joints] only when the turn completes. *)
Definition attach_channel (frame_no : nat) (label : string) (j : nat)
    (m : Markers) : result unit * Markers :=
  match attach_bodies m !! label with
  | None => (Ok tt, m)
  | Some target =>
      match data_at m frame_no j 4 with
      | Raise e => (Raise e, m)
      | Ok validity =>
          if validity <? 0 then (Ok tt, m)
          else
            match roots m with
            | None => (Raise (AttributeError "roots"), m)
            | Some rs =>
                let f := attachment_factor m rs target in
                match marker_bodies m !! label with
                | None =>
                    (Raise (KeyError label),
                     with_joints (jointgroup m ++ [new_BallJoint]) (joints m) m)
                | Some marker =>
                    match attach_offsets m !! label with
                    | None =>
                        (Raise (KeyError label),
                         with_joints
                           (jointgroup m ++
                              [mkBallJoint (Some marker) (Some target)
                                           (Some [0; 0; 0]) None None None])
                           (joints m) m)
                    | Some offset =>
                        let joint :=
                          mkBallJoint (Some marker) (Some target)
                                      (Some [0; 0; 0]) (Some offset)
                                      (Some (cfm m / f)) (Some (erp m)) in
                        (Ok tt,
                         with_joints (jointgroup m ++ [joint])
                                     (joints m ++ [joint]) m)
                    end
                end
            end
      end
  end.

Fixpoint attach_loop (frame_no : nat) (items : list (string * nat))
    (m : Markers) : result unit * Markers :=
  match items with
  | [] => (Ok tt, m)
  | (label, j) :: rest =>
      match attach_channel frame_no label j m with
      | (Ok _, m') => attach_loop frame_no rest m'
      | (Raise e, m') => (Raise e, m')
      end
  end.

(** [Markers.attach(frame_no)]. *)
Definition attach (frame_no : nat) (m : Markers) : result unit * Markers :=
  attach_loop frame_no (channels m) m.

(** Two states of a [Markers] object that differ in their joints at most:
    all that [attach] and [detach] write. *)
Definition same_config (m m' : Markers) : Prop :=
  with_joints [] [] m' = with_joints [] [] m.

(** The attachment the specification asks of [attach] for one channel: for
    a channel "with a resolved target body and a non-dropout marker at
    frame_no", a joint "between that channel's proxy body and its target
    body, at the precomputed offset, with compliance = base_cfm /
    root_factor" and "fixed stiffness erp"; the dropout test and the factor
    are those of the code. *)
Definition spec_attachment (frame_no : nat) (m : Markers)
    (item : string * nat) : option BallJoint :=
  match attach_bodies m !! item.1, data_at m frame_no item.2 4,
        marker_bodies m !! item.1, attach_offsets m !! item.1, roots m with
  | Some target, Ok validity, Some marker, Some offset, Some rs =>
      if validity <? 0 then None
      else Some (mkBallJoint (Some marker) (Some target) (Some [0; 0; 0])
                             (Some offset)
                             (Some (cfm m / attachment_factor m rs target))
                             (Some (erp m)))
  | _, _, _, _, _ => None
  end.

(** ** Markers.reposition *)

(** The loop over [c in range(self.num_markers)]: a marker gets a velocity
    when both tests [prev[c, 4] > -1] and [next[c, 4] > -1] succeed. *)
Fixpoint velocities (dt : float) (prev next : list vec) (cs : list nat)
    (delta : list vec) : result (list vec) :=
  match cs with
  | [] => Ok delta
  | c :: cs' =>
      match cell prev c 4 with
      | Raise e => Raise e
      | Ok pv =>
          if -1 <? pv then
            match cell next c 4 with
            | Raise e => Raise e
            | Ok nv =>
                if -1 <? nv then
                  match prev !! c, next !! c with
                  | Some p, Some n =>
                      if bool_decide (c < length delta)%nat then
                        velocities dt prev next cs'
                          (<[c := vdivs (vsub (take 3 n) (take 3 p)) (2 * dt)]>
                             delta)
                      else Raise IndexError
                  | _, _ => Raise IndexError
                  end
                else velocities dt prev next cs' delta
            end
          else velocities dt prev next cs' delta
      end
  end.

(** The loop over [self.channels.items()] that moves the marker bodies.  A
    body is written through its name. *)
Fixpoint place (items : list (string * nat)) (mb : gmap string string)
    (frame delta : list vec) (bodies : gmap string Body)
    : result unit * gmap string Body :=
  match items with
  | [] => (Ok tt, bodies)
  | (label, j) :: rest =>
      match mb !! label with
      | None => (Raise (KeyError label), bodies)
      | Some name =>
          match frame !! j with
          | None => (Raise IndexError, bodies)
          | Some p =>
              let bodies1 := alter (set_position p) name bodies in
              match delta !! j with
              | None => (Raise IndexError, bodies1)
              | Some v =>
                  place rest mb frame delta
                        (alter (set_linear_velocity v) name bodies1)
              end
          end
      end
  end.

(** [0 < frame_no < self.num_frames - 1], where [self.num_frames] is
    [self.data.shape[0]]. *)
Definition interior (d : ndarray3) (frame_no : nat) : bool :=
  ((0 <? frame_no)%nat && (frame_no <? length d - 1)%nat)%bool.

(** The array [delta] of [reposition] once the first loop is over;
    [self.num_markers] is [self.data.shape[1]], the number of rows of a
    frame. *)
Definition reposition_delta (dt : float) (d : ndarray3) (frame_no : nat)
    (frame : list vec) : result (list vec) :=
  let delta := map zeros_like frame in
  if interior d frame_no then
    match d !! (frame_no - 1)%nat, d !! (frame_no + 1)%nat, d with
    | Some prev, Some next, first :: _ =>
        velocities dt prev next (seq 0 (length first)) delta
    | _, _, _ => Raise IndexError
    end
  else Ok delta.

(** [Markers.reposition(frame_no)]. *)
Definition reposition (frame_no : nat) : M unit := λ w,
  let m := markers w in
  match data m with
  | None => (Raise TypeError, w)
  | Some d =>
      match d !! frame_no with
      | None => (Raise IndexError, w)
      | Some fr =>
          let frame := map (take 3) fr in
          match reposition_delta (dt w) d frame_no frame with
          | Raise e => (Raise e, w)
          | Ok delta =>
              on_bodies (place (channels m) (marker_bodies m) frame delta) w
          end
      end
  end.

(** The dropout rule in the words of the specification, with the test the
    code makes: marker [c] is tracked in a frame when its validity there is
    above [-1]. *)
Definition tracked (fr : list vec) (c : nat) : bool :=
  match cell fr c 4 with
  | Ok v => -1 <? v
  | Raise _ => false
  end.

(** "Centered finite difference between the previous and next frame, but
    only if neither neighbor frame is a dropout for that marker; otherwise
    velocity is zero." *)
Definition centred_velocity (dt : float) (prev next : list vec) (c : nat)
    (zero : vec) : vec :=
  if (tracked prev c && tracked next c)%bool then
    match prev !! c, next !! c with
    | Some p, Some n => vdivs (vsub (take 3 n) (take 3 p)) (2 * dt)
    | _, _ => zero
    end
  else zero.

(** The velocity of marker [c] at any frame: zero at the first and at the
    last frame. *)
Definition expected_velocity (dt : float) (d : ndarray3) (frame_no c : nat)
    (zero : vec) : vec :=
  if interior d frame_no then
    match d !! (frame_no - 1)%nat, d !! (frame_no + 1)%nat with
    | Some prev, Some next => centred_velocity dt prev next c zero
    | _, _ => zero
    end
  else zero.

(** A three-dimensional array has as many markers in every frame. *)
Definition rectangular (d : ndarray3) : Prop :=
  ∃ n, Forall (λ fr, length fr = n) d.

(** ** Markers.rms_distance *)

Definition rms_distance `{Engine} (w : World) : float :=
  let deltas :=
    map (λ joint,
           let delta := vsub (joint_getAnchor w joint)
                             (joint_getAnchor2 w joint) in
           vsum (vmul delta delta))
        (joints (markers w)) in
  PrimFloat.sqrt (np_mean deltas).

(** ** The skeleton *)

Definition with_motors (f : option float) (s : Skeleton) : Skeleton :=
  mkSkeleton (sk_bodies s) (sk_roots s) (sk_num_dofs s) f
             (sk_target_velocities s) (sk_torques s).
Definition with_targets (v : vec) (s : Skeleton) : Skeleton :=
  mkSkeleton (sk_bodies s) (sk_roots s) (sk_num_dofs s) (sk_max_force s)
             v (sk_torques s).
Definition with_torques (t : list vec) (s : Skeleton) : Skeleton :=
  mkSkeleton (sk_bodies s) (sk_roots s) (sk_num_dofs s) (sk_max_force s)
             (sk_target_velocities s) t.

Module Skel.

(** Modelled from the spec: [Skeleton.get_body_states], "reads current body
    poses/velocities. No side effects", a frame state being "ordered by body
    name"; each entry is read as [physics.World.get_body_states] reads it. *)
Definition get_body_states (w : World) : FrameState :=
  map (fun k => state_of k (_bodies w !!! k))
      (merge_sort String.le (sk_bodies (skeleton w))).

(** Modelled from the spec: [Skeleton.set_body_states], "writes
    poses/velocities back into every body in engine storage"; the bodies are
    found and written as [physics.World.set_body_states] does. *)
Definition set_body_states (states : FrameState) : M unit :=
  on_bodies (Physics.set_body_states states).

(** Modelled from the spec: [Skeleton.enable_motors(max_force)] "turns on
    velocity-following motors on every joint DOF, capping exert-able
    force/torque at max_force". *)
Definition enable_motors (max_force : float) : M unit :=
  modify (λ w, with_skeleton (with_motors (Some max_force) (skeleton w)) w).

(** Modelled from the spec: [Skeleton.disable_motors()] "releases motor
    control (free-spinning joints) without altering body state". *)
Definition disable_motors : M unit :=
  modify (λ w, with_skeleton (with_motors None (skeleton w)) w).

(** Modelled from the spec: [Skeleton.set_target_angles(angles)] runs the
    angle errors through the PID controllers and sets the target angular
    velocities of the joint motors. *)
Definition set_target_angles `{Engine} (angles : vec) : M unit :=
  modify (λ w, with_skeleton
                 (with_targets (skeleton_pid w angles) (skeleton w)) w).

(** Modelled from the spec: [Skeleton.add_torques(torques)] "apply the given
    per-DOF torque vector directly to joint motors"; the engine consumes
    them at its next step. *)
Definition add_torques (torques : vec) : M unit :=
  modify (λ w, with_skeleton
                 (with_torques (sk_torques (skeleton w) ++ [torques])
                               (skeleton w)) w).

End Skel.

(** ** The engine *)

(** [self.ode_world.step(self.dt)]: every body is integrated, the joint
    feedback is renewed, and the torques applied since the last step are
    used up.  No body is created or destroyed. *)
Definition ode_world_step `{Engine} : M unit :=
  modify (λ w,
    with_skeleton (with_torques [] (skeleton w))
      (with_feedback (ode_step_feedback w)
        (with_bodies (map_imap (λ name b, Some (ode_step_body w name b))
                               (_bodies w)) w))).

(** [self.ode_space.collide(None, self.on_collision)]: a contact joint per
    contact found goes into the contact group. *)
Definition space_collide `{Engine} : M unit :=
  modify (λ w, with_contactgroup (ode_contactgroup w ++ ode_collide w) w).

(** [self.ode_contactgroup.empty()]. *)
Definition contactgroup_empty : M unit :=
  modify (with_contactgroup []).

(** ** Generators *)

(** The calls a generator of [cooper.World] makes on the markers, the
    skeleton and the engine, indexed by what they return. *)
Inductive op : Type → Type :=
| MarkersDetach : op unit
| MarkersReposition (frame_no : nat) : op unit
| MarkersAttach (frame_no : nat) : op unit
| MarkersIter : op nat
| SpaceCollide : op unit
| SkeletonGetBodyStates : op FrameState
| SkeletonSetBodyStates (states : FrameState) : op unit
| OdeWorldStep : op unit
| ContactGroupEmpty : op unit
| SkeletonEnableMotors (max_force : float) : op unit
| SkeletonSetTargetAngles (angles : vec) : op unit
| SkeletonJointTorques : op vec
| SkeletonDisableMotors : op unit
| SkeletonAddTorques (torques : vec) : op unit.

(** What each call does to the world.  [MarkersIter] is [iter(self.data)]
    under [enumerate(self.markers)]: it fixes the number of frames. *)
Definition handle `{Engine} {A} (o : op A) : M A :=
  match o in op A return M A with
  | MarkersDetach => on_markers (λ m, (Ok tt, detach m))
  | MarkersReposition frame_no => reposition frame_no
  | MarkersAttach frame_no => on_markers (attach frame_no)
  | MarkersIter =>
      λ w, match data (markers w) with
           | Some d => (Ok (length d), w)
           | None => (Raise TypeError, w)
           end
  | SpaceCollide => space_collide
  | SkeletonGetBodyStates => gets Skel.get_body_states
  | SkeletonSetBodyStates states => Skel.set_body_states states
  | OdeWorldStep => ode_world_step
  | ContactGroupEmpty => contactgroup_empty
  | SkeletonEnableMotors max_force => Skel.enable_motors max_force
  | SkeletonSetTargetAngles angles => Skel.set_target_angles angles
  | SkeletonJointTorques => gets skeleton_joint_torques
  | SkeletonDisableMotors => Skel.disable_motors
  | SkeletonAddTorques torques => Skel.add_torques torques
  end.

(** A generator that yields values of type [Y] and returns an [R]. *)
Inductive gen (Y R : Type) : Type :=
| Ret (r : R)
| Throw (e : exn)
| Yield (y : Y) (k : gen Y R)
| Vis {A : Type} (o : op A) (k : A → gen Y R).
Arguments Ret {Y R} r.
Arguments Throw {Y R} e.
Arguments Yield {Y R} y k.
Arguments Vis {Y R A} o k.

Fixpoint gen_bind {Y A B} (f : A → gen Y B) (g : gen Y A) : gen Y B :=
  match g with
  | Ret a => f a
  | Throw e => Throw e
  | Yield y k => Yield y (gen_bind f k)
  | Vis o k => Vis o (λ a, gen_bind f (k a))
  end.

#[global] Instance gen_ret {Y} : MRet (gen Y) := λ A a, Ret a.
#[global] Instance gen_mbind {Y} : MBind (gen Y) := λ A B f g, gen_bind f g.

Definition call {Y A} (o : op A) : gen Y A := Vis o Ret.
Definition yield {Y} (y : Y) : gen Y unit := Yield y (Ret tt).
Definition of_result {Y A} (r : result A) : gen Y A :=
  match r with Ok a => Ret a | Raise e => Throw e end.

(** [for i, y in enumerate(g, i): body]: the body runs where [g] yields, and
    [g] resumes when the body is over. *)
Fixpoint for_enumerate {Y Z R} (g : gen Y R) (i : nat)
    (body : nat → Y → gen Z unit) : gen Z unit :=
  match g with
  | Ret _ => Ret tt
  | Throw e => Throw e
  | Yield y k => gen_bind (λ _, for_enumerate k (S i) body) (body i y)
  | Vis o k => Vis o (λ a, for_enumerate (k a) i body)
  end.

(** [for y in g: body]. *)
Definition for_each {Y Z R} (g : gen Y R) (body : Y → gen Z unit)
  : gen Z unit :=
  for_enumerate g 0 (λ _, body).

(** [for a in l: body] over a sequence that is known when the loop starts. *)
Fixpoint for_list {A Y} (l : list A) (body : A → gen Y unit) : gen Y unit :=
  match l with
  | [] => Ret tt
  | a :: l' => gen_bind (λ _, for_list l' body) (body a)
  end.

(** What a run of a generator leaves behind: the calls that returned, with
    what they returned; the values yielded; the exception, if one ended the
    run. *)
Inductive event (Y : Type) : Type :=
| EvDetach
| EvReposition (frame_no : nat)
| EvAttach (frame_no : nat)
| EvIter (frames : nat)
| EvCollide
| EvGetBodyStates (states : FrameState)
| EvSetBodyStates (states : FrameState)
| EvOdeStep
| EvContactEmpty
| EvEnableMotors (max_force : float)
| EvSetTargetAngles (angles : vec)
| EvJointTorques (torques : vec)
| EvDisableMotors
| EvAddTorques (torques : vec)
| EvYield (y : Y)
| EvRaise (e : exn).
Arguments EvDetach {Y}.
Arguments EvReposition {Y} frame_no.
Arguments EvAttach {Y} frame_no.
Arguments EvIter {Y} frames.
Arguments EvCollide {Y}.
Arguments EvGetBodyStates {Y} states.
Arguments EvSetBodyStates {Y} states.
Arguments EvOdeStep {Y}.
Arguments EvContactEmpty {Y}.
Arguments EvEnableMotors {Y} max_force.
Arguments EvSetTargetAngles {Y} angles.
Arguments EvJointTorques {Y} torques.
Arguments EvDisableMotors {Y}.
Arguments EvAddTorques {Y} torques.
Arguments EvYield {Y} y.
Arguments EvRaise {Y} e.

Definition event_of {Y A} (o : op A) : A → event Y :=
  match o in op A return A → event Y with
  | MarkersDetach => λ _, EvDetach
  | MarkersReposition frame_no => λ _, EvReposition frame_no
  | MarkersAttach frame_no => λ _, EvAttach frame_no
  | MarkersIter => λ n, EvIter n
  | SpaceCollide => λ _, EvCollide
  | SkeletonGetBodyStates => λ s, EvGetBodyStates s
  | SkeletonSetBodyStates states => λ _, EvSetBodyStates states
  | OdeWorldStep => λ _, EvOdeStep
  | ContactGroupEmpty => λ _, EvContactEmpty
  | SkeletonEnableMotors max_force => λ _, EvEnableMotors max_force
  | SkeletonSetTargetAngles angles => λ _, EvSetTargetAngles angles
  | SkeletonJointTorques => λ t, EvJointTorques t
  | SkeletonDisableMotors => λ _, EvDisableMotors
  | SkeletonAddTorques torques => λ _, EvAddTorques torques
  end.

(** A trace pairs every event with the world right after it. *)
Abbreviation trace Y := (list (event Y * World)).

(** Run a generator to exhaustion, its consumer taking every value. *)
Fixpoint exec `{Engine} {Y R} (g : gen Y R) (w : World)
  : trace Y * (result R * World) :=
  match g with
  | Ret r => ([], (Ok r, w))
  | Throw e => ([(EvRaise e, w)], (Raise e, w))
  | Yield y k =>
      let '(t, out) := exec k w in ((EvYield y, w) :: t, out)
  | Vis o k =>
      match handle o w with
      | (Ok a, w') =>
          let '(t, out) := exec (k a) w' in ((event_of o a, w') :: t, out)
      | (Raise e, w') => ([(EvRaise e, w')], (Raise e, w'))
      end
  end.

(** The values a run yielded, in order. *)
Definition yields {Y} (t : trace Y) : list Y :=
  omap (λ ew, match ew.1 with EvYield y => Some y | _ => None end) t.

(** ** pagoda/cooper.py: the frame-stepping methods of World *)

(** [World._step_to_marker_frame(frame_no)]. *)
Definition _step_to_marker_frame (frame_no : nat) : gen FrameState unit :=
  call MarkersDetach ;;
  call (MarkersReposition frame_no) ;;
  call (MarkersAttach frame_no) ;;
  call SpaceCollide ;;
  states ← call SkeletonGetBodyStates ;
  call (SkeletonSetBodyStates states) ;;
  yield states ;;
  call OdeWorldStep ;;
  call ContactGroupEmpty.

(** A Python value as the parameter [end] of [follow_markers] may receive
    it. *)
Inductive pyval : Type :=
| PyInt (z : Z)
| PyFloat (x : float)
| PyNone
| PyStates (s : FrameState).

(** [frame_no < end].  Python 3 refuses to order an [int] and a value that
    is not a number; Python 2 puts [None] below and a list above every
    number. *)
Definition frame_lt (py : pyversion) (frame_no : nat) (end_ : pyval)
  : result bool :=
  match end_ with
  | PyInt z => Ok (Z.of_nat frame_no <? z)%Z
  | PyFloat x => Ok (float_of_nat frame_no <? x)
  | PyNone => match py with Py2 => Ok false | Py3 => Raise TypeError end
  | PyStates _ => match py with Py2 => Ok true | Py3 => Raise TypeError end
  end.

(** [start <= frame_no < end], a chained comparison: the second test is
    made only when the first holds. *)
Definition in_range (py : pyversion) (start : Z) (frame_no : nat)
    (end_ : pyval) : result bool :=
  if (start <=? Z.of_nat frame_no)%Z then frame_lt py frame_no end_
  else Ok false.

(** [World.follow_markers(start, end, states)]. *)
Definition follow_markers (py : pyversion) (start : Z) (end_ : pyval)
    (states : option FrameState) : gen FrameState unit :=
  match states with
  | Some s => call (SkeletonSetBodyStates s)
  | None => Ret tt
  end ;;
  n ← call MarkersIter ;
  for_list (seq 0 n) (λ frame_no,
    inside ← of_result (in_range py start frame_no end_) ;
    if inside : bool
    then for_each (_step_to_marker_frame frame_no) (λ states, yield states)
    else Ret tt).

(** [a[start:end]] for integer bounds. *)
Definition slice_index (len : nat) (i : Z) : nat :=
  if (i <? 0)%Z then Z.to_nat (Z.max (i + Z.of_nat len) 0)
  else Nat.min (Z.to_nat i) len.

Definition slice {A} (l : list A) (start stop : Z) : list A :=
  let a := slice_index (length l) start in
  let b := slice_index (length l) stop in
  take (b - a) (drop a l).

(** [a[i]] for an index counted by [enumerate]. *)
Definition index {A} (l : list A) (i : nat) : result A :=
  match l !! i with Some a => Ok a | None => Raise IndexError end.

(** The body of the loop of [inverse_dynamics] (lines 552 to 561). *)
Definition inverse_dynamics_body (angles : list vec) (max_force : float)
    (i : nat) (states : FrameState) : gen vec unit :=
  call (SkeletonEnableMotors max_force) ;;
  target ← of_result (index angles i) ;
  call (SkeletonSetTargetAngles target) ;;
  call OdeWorldStep ;;
  torques ← call SkeletonJointTorques ;
  call SkeletonDisableMotors ;;
  call (SkeletonSetBodyStates states) ;;
  call (SkeletonAddTorques torques) ;;
  yield torques.

(** [World.inverse_dynamics(angles, start, end, states, max_force)], for an
    integer [end]. *)
Definition inverse_dynamics (py : pyversion) (angles : list vec)
    (start end_ : Z) (states : option FrameState) (max_force : float)
  : gen vec unit :=
  let angles := slice angles start end_ in
  for_enumerate (follow_markers py start (PyInt end_) states) 0
                (inverse_dynamics_body angles max_force).

(** [World.forward_dynamics(torques, start, states)].  It has no [yield]:
    it is a plain method and runs its loop at once.  The call
    [self.follow_markers(start, states)] binds [states] to the second
    parameter of [follow_markers], which is [end]; the third, [states],
    keeps its default [None]. *)
Definition forward_dynamics (py : pyversion) (torques : list vec)
    (start : Z) (states : option FrameState) : gen Empty_set unit :=
  let second := match states with
                | Some s => PyStates s
                | None => PyNone
                end in
  for_enumerate (follow_markers py start second None) 0
    (λ i _, t ← of_result (index torques i) ;
            call (SkeletonAddTorques t)).

(** ** World.settle_to_markers *)

(** What a name bound at module level may refer to. *)
Inductive pyobj : Type :=
| ObjModule
| ObjLogger
| ObjClass
| ObjFloat (x : float).

(** The names cooper.py binds at module level: its imports, its logger and
    its two classes.  The attributes every module has ([__name__] and the
    like) and the built-ins are left out: none is called [max_rmsd] or
    [labels]. *)
Definition cooper_globals : list (string * pyobj) :=
  [("c3d", ObjModule); ("climate", ObjModule); ("csv", ObjModule);
   ("np", ObjModule); ("ode", ObjModule); ("physics", ObjModule);
   ("skeleton", ObjModule); ("logging", ObjLogger);
   ("Markers", ObjClass); ("World", ObjClass)].

(** Reading a name that the function never assigns: it is looked up in the
    globals of the module when the expression is evaluated. *)
Definition load_global (globals : list (string * pyobj)) (name : string)
  : result pyobj :=
  match list_find (λ b, b.1 = name) globals with
  | Some (_, (_, o)) => Ok o
  | None => Raise (NameError name)
  end.

(** [x < o] for a float [x]; an object that is not a number is above every
    number in Python 2 and cannot be ordered with one in Python 3. *)
Definition float_lt (py : pyversion) (x : float) (o : pyobj) : result bool :=
  match o with
  | ObjFloat y => Ok (x <? y)
  | _ => match py with Py2 => Ok true | Py3 => Raise TypeError end
  end.

(** [for y in g: pass], then the value the loop variable holds: the last
    one yielded, or what it held before. *)
Definition for_pass `{Engine} {Y R} (g : gen Y R) (before : option Y)
  : M (option Y) := λ w,
  let '(t, (r, w')) := exec g w in
  match r with
  | Ok _ => (Ok (from_option Some before (last (yields t))), w')
  | Raise e => (Raise e, w')
  end.

(** The [while True] loop of [settle_to_markers] in a module with the
    given globals, for at most [fuel] turns; [None] when the turns are used
    up.  The test of line 400 reads the name [max_rmsd]; the parameter is
    called [max_rms_distance]. *)
Fixpoint settle_loop `{Engine} (py : pyversion)
    (globals : list (string * pyobj)) (fuel : nat) (frame_no : nat)
    (max_rms_distance : float) (states : option FrameState) (w : World)
  : option (result (option FrameState)) * World :=
  match fuel with
  | O => (None, w)
  | S fuel' =>
      match for_pass (_step_to_marker_frame frame_no) states w with
      | (Raise e, w1) => (Some (Raise e), w1)
      | (Ok states', w1) =>
          let rmsd := rms_distance w1 in
          let w2 := logging INFO "settling at frame %d: marker rmsd %.3f" w1 in
          match load_global globals "max_rmsd" with
          | Raise e => (Some (Raise e), w2)
          | Ok max_rmsd =>
              match float_lt py rmsd max_rmsd with
              | Raise e => (Some (Raise e), w2)
              | Ok true => (Some (Ok states'), w2)
              | Ok false =>
                  settle_loop py globals fuel' frame_no max_rms_distance
                              states' w2
              end
          end
      end
  end.

(** The method in a module with the given globals. *)
Definition settle_in `{Engine} (py : pyversion)
    (globals : list (string * pyobj)) (fuel : nat) (frame_no : nat)
    (max_rms_distance : float) (states : option FrameState) (w : World)
  : option (result (option FrameState)) * World :=
  match states with
  | Some s =>
      match Skel.set_body_states s w with
      | (Ok _, w') =>
          settle_loop py globals fuel frame_no max_rms_distance states w'
      | (Raise e, w') => (Some (Raise e), w')
      end
  | None => settle_loop py globals fuel frame_no max_rms_distance states w
  end.

(** [World.settle_to_markers(frame_no, max_rms_distance, states)]. *)
Definition settle_to_markers `{Engine} (py : pyversion) (fuel : nat)
    (frame_no : nat) (max_rms_distance : float) (states : option FrameState)
  : World → option (result (option FrameState)) * World :=
  settle_in py cooper_globals fuel frame_no max_rms_distance states.

(** ** Loading marker data and attachments *)

(** What [c3d.Reader] delivers for a well-formed C3D stream. *)
Record C3DReader : Type := mkC3DReader {
  frame_rate : float;
  point_labels : list string;
  read_frames : list (list vec);
  point_units : string
}.

Inductive file : Type :=
| C3DFile (reader : C3DReader)
| TextFile (lines : list string).

(** What the methods find outside the process: the files, by name, and the
    built-in conversion [float(token)]. *)
Record Host : Type := mkHost {
  files : gmap string file;
  float_of_string : string → option float
}.

(** [d[k] = v] on a dictionary kept in insertion order. *)
Definition dict_set (k : string) (v : nat) (d : list (string * nat))
  : list (string * nat) :=
  if bool_decide (k ∈ d.*1)
  then map (λ kv, if String.eqb kv.1 k then (k, v) else kv) d
  else d ++ [(k, v)].

(** [Markers._interpret_channels] on a list of labels:
    [dict((c, i) for i, c in enumerate(channels))]. *)
Definition _interpret_channels (labels : list string) : list (string * nat) :=
  foldl (λ d ic, dict_set ic.2 ic.1 d) []
        (zip (seq 0 (length labels)) labels).

(** [World.create_body('sphere', name=..., radius=...)] followed by
    [body.is_kinematic = True]: a body at rest at the origin is registered
    under the name, in the place of any body that had it. *)
Definition create_marker_body (name : string) (bodies : gmap string Body)
  : gmap string Body :=
  <[name := mkBody (Sphere 0.02) [0; 0; 0] [1; 0; 0; 0] [0; 0; 0] [0; 0; 0]
                   [0; 0; 0] [0; 0; 0] true]> bodies.

(** [Markers.create_bodies]. *)
Definition create_bodies : M unit :=
  modify (λ w, with_markers (with_marker_bodies ∅ (markers w)) w) ;;
  modify (λ w,
    foldl (λ w label,
             let name := ("marker:" +:+ label)%string in
             with_markers
               (with_marker_bodies (<[label := name]> (marker_bodies (markers w)))
                                   (markers w))
               (with_bodies (create_marker_body name (_bodies w)) w))
          w (channels (markers w)).*1).

(** The frames the reading loop keeps: it stops once it holds more than
    [max_frames] of them; [None] is the default [1e100]. *)
Definition read_up_to {A} (max_frames : option nat) (frames : list A)
  : list A :=
  match max_frames with
  | Some n => take (S n) frames
  | None => frames
  end.

(** [self.data[:, :, :4] /= 1000.]. *)
Definition scale_to_meters (d : ndarray3) : ndarray3 :=
  map (map (λ row, vdivs (take 4 row) 1000 ++ drop 4 row)) d.

(** [Markers.load_c3d(filename, max_frames=max_frames)].  A stream that
    [c3d.Reader] cannot parse is reported as [ValueError]. *)
Definition load_c3d (host : Host) (filename : string)
    (max_frames : option nat) : M unit :=
  match files host !! filename with
  | None => raise (IOError filename)
  | Some (TextFile _) => raise ValueError
  | Some (C3DFile reader) =>
      world_dt ← gets dt ;
      if negb (world_dt =? 1 / frame_rate reader) then raise AssertionError
      else
        let labels := map strip (point_labels reader) in
        modify (logging INFO "%s: loaded marker labels %s") ;;
        modify (λ w, with_markers
                       (with_channels (_interpret_channels labels) (markers w))
                       w) ;;
        let d := read_up_to max_frames (read_frames reader) in
        modify (λ w, with_markers (with_data d (markers w)) w) ;;
        (if String.eqb (lower (strip (point_units reader))) "mm"
         then modify (logging INFO "scaling point data from mm to m") ;;
              modify (λ w, with_markers
                             (with_data (scale_to_meters d) (markers w)) w)
         else mret tt) ;;
        modify (logging INFO "%s: loaded marker data %s") ;;
        create_bodies
  end.

(** [Markers.load_csv(filename, max_frames=max_frames)].  [reader.next()]
    exists in Python 2 only; the logging call of line 121 reads the name
    [labels], which neither the method nor the module binds. *)
Definition load_csv (py : pyversion) (host : Host) (filename : string)
    (max_frames : option nat) : M unit :=
  match files host !! filename with
  | None => raise (IOError filename)
  | Some f =>
      match py with
      | Py3 => raise (AttributeError "next")
      | Py2 =>
          match f with
          | TextFile [] => raise StopIteration
          | _ => raise (NameError "labels")
          end
      end
  end.

(** [for a in l: body] in a method. *)
Fixpoint for_M {A} (l : list A) (body : A → M unit) : M unit :=
  match l with
  | [] => mret tt
  | a :: l' => body a ;; for_M l' body
  end.

(** [list(map(float, tokens))]. *)
Fixpoint floats_of (host : Host) (tokens : list string) : result vec :=
  match tokens with
  | [] => Ok []
  | t :: ts =>
      match float_of_string host t with
      | None => Raise ValueError
      | Some x =>
          match floats_of host ts with
          | Ok xs => Ok (x :: xs)
          | Raise e => Raise e
          end
      end
  end.

(** The product of two one-dimensional arrays: element by element when the
    lengths agree, broadcast when one of them has a single element. *)
Definition np_mul (a b : vec) : result vec :=
  if bool_decide (length a = length b) then Ok (vmul a b)
  else match a, b with
       | [x], _ => Ok (map (λ y, x * y) b)
       | _, [y] => Ok (map (λ x, x * y) a)
       | _, _ => Raise ValueError
       end.

(** One turn of the loop of [load_attachments]. *)
Definition load_attachment_line (host : Host) (skel : Skeleton)
    (line : string) : M unit :=
  match tokens_of_line line with
  | [] => mret tt
  | label :: tokens =>
      known ← gets (λ w, (channels (markers w)).*1) ;
      if negb (bool_decide (label ∈ known))
      then modify (logging INFO "%s:%d: unknown marker %s")
      else
        match tokens with
        | [] => mret tt
        | name :: tokens =>
            let bodies := filter (λ b : string, b = name) (sk_bodies skel) in
            if negb (length bodies =? 1)%nat
            then modify (logging INFO "%s:%d: %d skeleton bodies match %s")
            else
              modify (λ w, with_markers
                (with_attachments (<[label := name]> (attach_bodies (markers w)))
                                  (attach_offsets (markers w)) (markers w)) w) ;;
              xs ← lift_result (floats_of host tokens) ;
              dims ← gets (λ w, dimensions (shape (_bodies w !!! name))) ;
              scaled ← lift_result (np_mul xs dims) ;
              modify (λ w, with_markers
                (with_attachments (attach_bodies (markers w))
                   (<[label := vdivs scaled 2]> (attach_offsets (markers w)))
                   (markers w)) w) ;;
              modify (logging INFO "%s <--> %s, offset %s")
        end
  end.

(** [Markers.load_attachments(source, skeleton)] for a file name
    [source]. *)
Definition load_attachments (host : Host) (source : string) : M unit :=
  skel ← gets skeleton ;
  modify (λ w, with_markers
                 (with_attachments ∅ ∅ (with_roots (sk_roots skel) (markers w)))
                 w) ;;
  match files host !! source with
  | None => raise (IOError source)
  | Some (C3DFile _) => raise ValueError
  | Some (TextFile lines) => for_M lines (load_attachment_line host skel)
  end.

(** [World.load_markers(filename, attachments, max_frames)].
    [logging.fatal] sends a record to the logger and returns. *)
Definition load_markers (py : pyversion) (host : Host)
    (filename attachments : string) (max_frames : option nat) : M unit :=
  modify (with_markers Markers_init) ;;
  (if endswith (lower filename) ".c3d"
   then load_c3d host filename max_frames
   else if endswith (lower filename) ".csv"
   then load_csv py host filename max_frames
   else modify (logging FATAL "%s: not sure how to load markers!")) ;;
  load_attachments host attachments.

(** ** Concrete worlds for the examples *)

(** A small engine: explicit Euler integration of the positions, no
    contacts; a ball joint reports the position of its first body and the
    position of its second body moved by the offset; the torque read-out is
    the target velocity of the motors. *)
Definition euler_engine : Engine := {|
  ode_step_body w name b :=
    set_position (zip_with (λ p v, p + dt w * v)
                           (position b) (linear_velocity b)) b;
  ode_step_feedback w := [sk_target_velocities (skeleton w)];
  ode_collide w := [];
  joint_getAnchor w j :=
    match body1 j with
    | Some n => position (_bodies w !!! n)
    | None => [0; 0; 0]
    end;
  joint_getAnchor2 w j :=
    match body2 j, anchor2_rel j with
    | Some n, Some o => zip_with PrimFloat.add (position (_bodies w !!! n)) o
    | _, _ => [0; 0; 0]
    end;
  skeleton_joint_torques w := concat (ode_feedback w);
  skeleton_pid w angles := angles
|}.

Definition torso : Body :=
  mkBody (Box [0.5; 0.25; 1]) [0; 0; 1] [1; 0; 0; 0] [0; 0; 1] [0; 0; 0]
         [0; 0; 0] [0; 0; 0] false.

Definition marker_m0 : Body :=
  mkBody (Sphere 0.02) [0; 0; 0] [1; 0; 0; 0] [0; 0; 0] [0; 0; 0]
         [0; 0; 0] [0; 0; 0] true.

Definition demo_skeleton : Skeleton :=
  mkSkeleton ["torso"] ["torso"] 1 None [] [].

(** Three frames of one marker that climbs the z axis; the columns are x,
    y, z, residual and camera count. *)
Definition demo_data : ndarray3 :=
  [ [[0; 0; 0; 0; 1]]; [[0; 0; 1; 0; 1]]; [[0; 0; 2; 0; 1]] ].

(** The same track with the camera column of the first frame at [-0.5]. *)
Definition half_data : ndarray3 :=
  [ [[0; 0; 0; 0; -0.5]]; [[0; 0; 1; 0; 1]]; [[0; 0; 2; 0; 1]] ].

(** The same track with the marker lost in every frame. *)
Definition dropout_data : ndarray3 :=
  [ [[0; 0; 0; -1; -1]]; [[0; 0; 1; -1; -1]]; [[0; 0; 2; -1; -1]] ].

(** Markers as [load_c3d] and [load_attachments] leave them for one channel
    [m0] attached to the centre of the root body [torso]. *)
Definition demo_markers (d : ndarray3) : Markers :=
  mkMarkers [] [] DEFAULT_CFM DEFAULT_ERP 1
            {["m0" := "marker:m0"]} {["m0" := "torso"]} {["m0" := [0; 0; 0]]}
            [("m0", 0%nat)] (Some ["torso"]) (Some d).

Definition demo_world (d : ndarray3) : World :=
  mkWorld 0.5 {["torso" := torso; "marker:m0" := marker_m0]} [] []
          demo_skeleton (demo_markers d) [].

(** A host with one C3D file recorded at 60 frames a second, one at 2
    frames a second, and one attachment file. *)
Definition demo_host : Host := {|
  files :=
    {[ "walk.c3d" := C3DFile (mkC3DReader 60 ["m0  "] demo_data "m");
       "slow.c3d" := C3DFile (mkC3DReader 2 ["m0  "] demo_data "m");
       "walk.txt" := TextFile ["0,0,0,0,1"];
       "attach.txt" := TextFile ["# marker body offset"; "m0 torso 0 0 0"] ]};
  float_of_string s := if String.eqb s "0" then Some 0 else None
|}.

(** ** Vocabulary of the properties *)

Definition is_add_torques {A} (o : op A) : bool :=
  match o with
  | SkeletonAddTorques _ => true
  | _ => false
  end.

(** A generator of frame states that never calls [add_torques] and that
    yields nothing but states it has, right before, captured with
    [get_body_states] and written back with [set_body_states]. *)
Inductive checkpointed {R : Type} : gen FrameState R → Prop :=
| checkpointed_ret r : checkpointed (Ret r)
| checkpointed_throw e : checkpointed (Throw e)
| checkpointed_call {A} (o : op A) (k : A → gen FrameState R) :
    is_add_torques o = false →
    (∀ a, checkpointed (k a)) →
    checkpointed (Vis o k)
| checkpointed_yield (k : FrameState → gen FrameState R) :
    (∀ s, checkpointed (k s)) →
    checkpointed
      (Vis SkeletonGetBodyStates
           (λ s, Vis (SkeletonSetBodyStates s) (λ _, Yield s (k s)))).

(** The eight events that come before a call of [add_torques] in a trace of
    inverse dynamics, from the capture of the checkpoint on. *)
Definition before_add_torques (max_force : float) (cp : FrameState)
    (target torques : vec) (w_cp w_set w_on w_target w_step w_off w_back : World)
  : trace vec :=
  [(EvGetBodyStates cp, w_cp); (EvSetBodyStates cp, w_set);
   (EvEnableMotors max_force, w_on); (EvSetTargetAngles target, w_target);
   (EvOdeStep, w_step); (EvJointTorques torques, w_step);
   (EvDisableMotors, w_off); (EvSetBodyStates cp, w_back)].

(** A trace in which every call of [add_torques] ends the stability fix:
    the checkpoint is captured and restored, the motors are enabled and
    aimed, the engine steps, the torques are read, the motors are disabled,
    the checkpoint is restored, the torques are added and then yielded; and
    the body states of the skeleton right after [add_torques] are the
    checkpoint. *)
Definition restores_before_adding `{Engine} (max_force : float)
    (t : trace vec) : Prop :=
  ∀ pre torques w_add post,
    t = pre ++ (EvAddTorques torques, w_add) :: post →
    ∃ pre' cp target w_cp w_set w_on w_target w_step w_off w_back post',
      pre = pre' ++ before_add_torques max_force cp target torques
                      w_cp w_set w_on w_target w_step w_off w_back
      ∧ post = (EvYield torques, w_add) :: post'
      ∧ cp = Skel.get_body_states w_cp
      ∧ ode_world_step w_target = (Ok tt, w_step)
      ∧ torques = skeleton_joint_torques w_step
      ∧ sk_max_force (skeleton w_off) = None
      ∧ Skel.set_body_states cp w_off = (Ok tt, w_back)
      ∧ Skel.add_torques torques w_back = (Ok tt, w_add)
      ∧ Skel.get_body_states w_add = cp.

(** A run of inverse dynamics over the three frames of the demonstration
    track, with the small engine. *)
Definition demo_angles : list vec := [[1]; [2]; [3]].

Definition demo_inverse_dynamics : trace vec :=
  (@exec euler_engine _ _
         (inverse_dynamics Py3 demo_angles 0 3 None 100)
         (demo_world demo_data)).1.

(** The world after the event of the given rank in a trace. *)
Definition world_after {Y} (t : trace Y) (n : nat) : World :=
  from_option snd (demo_world demo_data) (t !! n).

(** ** Vocabulary of the further properties *)

(** Two states of a body that differ at most in position and in linear
    velocity: all that [Markers.reposition] assigns. *)
Definition same_but_placement (b b' : Body) : Prop :=
  shape b' = shape b ∧ quaternion b' = quaternion b
  ∧ angular_velocity b' = angular_velocity b
  ∧ force b' = force b ∧ torque b' = torque b
  ∧ is_kinematic b' = is_kinematic b.

(** [a[f, c, k]] for an array [a] of frames, [None] out of its bounds. *)
Definition array_at (a : ndarray3) (f c k : nat) : option float :=
  match a !! f with
  | Some fr =>
      match fr !! c with
      | Some row => row !! k
      | None => None
      end
  | None => None
  end.

(** The frames a C3D stream delivers: in every frame one row per point
    label, of five columns at least (x, y, z, residual, cameras). *)
Definition well_formed (reader : C3DReader) : Prop :=
  Forall (λ fr, length fr = length (point_labels reader)
                ∧ Forall (λ row : vec, (5 ≤ length row)%nat) fr)
         (read_frames reader).

(** Two worlds that differ at most in the attachment tables of their
    markers and in what was sent to the logger. *)
Definition same_but_attachments (w w' : World) : Prop :=
  dt w' = dt w ∧ _bodies w' = _bodies w
  ∧ ode_contactgroup w' = ode_contactgroup w
  ∧ ode_feedback w' = ode_feedback w ∧ skeleton w' = skeleton w
  ∧ with_attachments ∅ ∅ (markers w') = with_attachments ∅ ∅ (markers w).

(** Attachment tables that [Markers.attach] can use: a label that has a
    target body has an offset too, is the label of a channel, and its target
    is the name of one body of the skeleton exactly. *)
Definition attachments_consistent (skel : Skeleton) (w : World) : Prop :=
  dom (attach_offsets (markers w)) = dom (attach_bodies (markers w))
  ∧ ∀ label name, attach_bodies (markers w) !! label = Some name →
      label ∈ (channels (markers w)).*1
      ∧ filter (λ b : string, b = name) (sk_bodies skel) = [name].

(** A C3D file in millimetres, with one frame of one marker. *)
Definition mm_reader : C3DReader :=
  mkC3DReader 2 ["m0"] [ [[1000; 2000; 3000; 500; 1]] ] " MM ".

Definition mm_host : Host := {|
  files := {[ "mm.c3d" := C3DFile mm_reader ]};
  float_of_string s := None
|}.

(** The frames the markers were repositioned to in a run, in order. *)
Definition repositioned {Y} (t : trace Y) : list nat :=
  omap (λ ew, match ew.1 with EvReposition f => Some f | _ => None end) t.

(** The test [start <= frame_no < end] of [follow_markers] succeeds. *)
Definition follows (py : pyversion) (start : Z) (end_ : pyval)
    (frame_no : nat) : bool :=
  match in_range py start frame_no end_ with
  | Ok true => true
  | _ => false
  end.

(** The frames, of the first [n], that [follow_markers] steps to. *)
Definition followed_frames (py : pyversion) (start : Z) (end_ : pyval)
    (n : nat) : list nat :=
  filter (λ f, follows py start end_ f = true) (seq 0 n).

(** ** pagoda/cooper.py: World.step and World.reset *)

Module Stepping.

(** What [next(g)] comes back with: a value and the generator suspended
    after its [yield]; or the generator has returned, which [next] reports
    as [StopIteration]; or the generator has raised. *)
Inductive resumed (Y R : Type) : Type :=
| Yielded (y : Y) (k : gen Y R)
| Returned (r : R)
| Raised (e : exn).
Arguments Yielded {Y R} y k.
Arguments Returned {Y R} r.
Arguments Raised {Y R} e.

(** [next(g)]: run the generator up to its next [yield]. *)
Fixpoint next `{Engine} {Y R} (g : gen Y R) (w : World)
  : resumed Y R * World :=
  match g with
  | Ret r => (Returned r, w)
  | Throw e => (Raised e, w)
  | Yield y k => (Yielded y k, w)
  | Vis o k =>
      match handle o w with
      | (Ok a, w') => next (k a) w'
      | (Raise e, w') => (Raised e, w')
      end
  end.

(** A [cooper.World] with the two attributes that [step] and [reset] use;
    an attribute that has not been assigned is [None].  A generator that has
    returned or raised is exhausted: it is [Ret tt] from then on. *)
Record World_ : Type := mkWorld_ {
  world : World;
  frame_no : option Z;
  follower : option (gen FrameState unit)
}.

(** [World.reset()]: [self.follower = self.follow_markers()], with the
    defaults [start=0], [end=1e100], [states=None].  The generator is
    created, not started. *)
Definition reset (py : pyversion) (s : World_) : World_ :=
  mkWorld_ (world s) (frame_no s)
           (Some (follow_markers py 0 (PyFloat 1e100) None)).

(** The exceptions of the [except] clause of [step]. *)
Definition caught (e : exn) : bool :=
  match e with
  | AttributeError _ | StopIteration => true
  | _ => false
  end.

(** [World.step(substeps)]; the parameter is not used.  The increment of
    [self.frame_no] is outside the [try]; the look-up of [self.follower]
    and the call of [next] are inside. *)
Definition step `{Engine} (py : pyversion) (s : World_)
  : result unit * World_ :=
  match frame_no s with
  | None => (Raise (AttributeError "frame_no"), s)
  | Some n =>
      let n' := Some (n + 1)%Z in
      match follower s with
      | None => (Ok tt, reset py (mkWorld_ (world s) n' None))
      | Some g =>
          match next g (world s) with
          | (Yielded _ k, w') => (Ok tt, mkWorld_ w' n' (Some k))
          | (Returned _, w') =>
              (Ok tt, reset py (mkWorld_ w' n' (Some (Ret tt))))
          | (Raised e, w') =>
              if caught e
              then (Ok tt, reset py (mkWorld_ w' n' (Some (Ret tt))))
              else (Raise e, mkWorld_ w' n' (Some (Ret tt)))
          end
      end
  end.

(** [step] called [n] times, as long as it returns. *)
Fixpoint steps `{Engine} (py : pyversion) (n : nat) (s : World_)
  : result unit * World_ :=
  match n with
  | O => (Ok tt, s)
  | S n' =>
      match step py s with
      | (Ok _, s') => steps py n' s'
      | (Raise e, s') => (Raise e, s')
      end
  end.

End Stepping.

(** ** lmj/sim/physics.py: creating bodies, stepping, joint parameters *)

Module Sim.

(** The subclasses of [Body], in the order of their definition. *)
Inductive body_class : Type := ClsBox | ClsSphere | ClsCylinder | ClsCapsule.

(** [cls.__name__]. *)
Definition class_name (cls : body_class) : string :=
  match cls with
  | ClsBox => "Box"
  | ClsSphere => "Sphere"
  | ClsCylinder => "Cylinder"
  | ClsCapsule => "Capsule"
  end.

(** [Body.__subclasses__()]. *)
Definition subclasses : list body_class :=
  [ClsBox; ClsSphere; ClsCylinder; ClsCapsule].

(** The lookup table [BODIES]: every class under its name in lower case
    and under the first three letters of it. *)
Definition BODIES : gmap string body_class :=
  foldl (λ d cls,
           let name := lower (class_name cls) in
           <[String.substring 0 3 name := cls]> (<[name := cls]> d))
        ∅ subclasses.

(** A keyword argument that describes a shape: a number or a sequence of
    numbers. *)
Inductive pyarg : Type :=
| ArgFloat (x : float)
| ArgVec (v : vec).

(** The keyword arguments of [create_body] that reach [Body.__init__]:
    [feedback] and [density] when they are given, and the rest, which is
    the dictionary [shape]. *)
Record kwargs : Type := mkKwargs {
  kw_feedback : option bool;
  kw_density : option float;
  kw_shape : gmap string pyarg
}.

(** A [Body] object: its class, its attributes [name], [shape] and
    [feedback], the density its mass was set from, and the state the engine
    keeps for it. *)
Record PyBody : Type := mkPyBody {
  body_cls : body_class;
  body_name : string;
  body_shape : gmap string pyarg;
  body_feedback : bool;
  body_density : float;
  ode_body : Body
}.

(** [shape[key]]. *)
Definition shape_item (shape : gmap string pyarg) (key : string)
  : result pyarg :=
  match shape !! key with
  | Some a => Ok a
  | None => Raise (KeyError key)
  end.

(** A number where the engine expects one. *)
Definition as_float (a : pyarg) : result float :=
  match a with
  | ArgFloat x => Ok x
  | ArgVec _ => Raise TypeError
  end.

(** [init_mass], class by class: the properties [lengths], [radius] and
    [length] read the dictionary [shape], the radius before the length; the
    engine takes three lengths for a box and a number for a radius or a
    length.  The shape of the body comes back. *)
Definition init_mass (cls : body_class) (shape : gmap string pyarg)
  : result Shape :=
  match cls with
  | ClsBox =>
      match shape_item shape "lengths" with
      | Raise e => Raise e
      | Ok (ArgVec [lx; ly; lz]) => Ok (Box [lx; ly; lz])
      | Ok _ => Raise TypeError
      end
  | ClsSphere =>
      match shape_item shape "radius" with
      | Raise e => Raise e
      | Ok a =>
          match as_float a with
          | Raise e => Raise e
          | Ok r => Ok (Sphere r)
          end
      end
  | ClsCylinder | ClsCapsule =>
      match shape_item shape "radius" with
      | Raise e => Raise e
      | Ok a =>
          match shape_item shape "length" with
          | Raise e => Raise e
          | Ok b =>
              match as_float a, as_float b with
              | Ok r, Ok l =>
                  Ok (match cls with
                      | ClsCylinder => Cylinder r l
                      | _ => Capsule r l
                      end)
              | _, _ => Raise TypeError
              end
          end
      end
  end.

(** The keywords that the constructor of the geometry of a class takes
    besides the space. *)
Definition geom_keywords (cls : body_class) : gset string :=
  match cls with
  | ClsBox => {["lengths"]}
  | ClsSphere => {["radius"]}
  | ClsCylinder | ClsCapsule => {["radius"; "length"]}
  end.

(** [Body.__init__(name, world, space, feedback=True, density=1000.,
    **shape)].  The mass is set first; the constructor of the geometry
    refuses a keyword that is not one of its own.  The engine creates a body
    at rest at the origin. *)
Definition Body_init (cls : body_class) (name : string) (kw : kwargs)
  : result PyBody :=
  let feedback := default true (kw_feedback kw) in
  let density := default 1000 (kw_density kw) in
  match init_mass cls (kw_shape kw) with
  | Raise e => Raise e
  | Ok s =>
      if bool_decide (dom (kw_shape kw) = geom_keywords cls)
      then Ok (mkPyBody cls name (kw_shape kw) feedback density
                 (mkBody s [0; 0; 0] [1; 0; 0; 0] [0; 0; 0] [0; 0; 0]
                         [0; 0; 0] [0; 0; 0] false))
      else Raise TypeError
  end.

(** A contact as [ode.collide] reports it, with the two surface parameters
    that [on_collision] sets. *)
Record Contact_ : Type := mkContact_ {
  contact_pos : vec;
  contact_normal : vec;
  contact_depth : float;
  bounce : option float;
  mu : option float
}.

(** A contact joint in the contact group, attached to two bodies; the
    floor has no body. *)
Record ContactJoint : Type := mkContactJoint {
  cj_contact : Contact_;
  cj_body1 : option string;
  cj_body2 : option string
}.

(** The state of a [physics.World] that [create_body] and [step] read and
    write. *)
Record World_ : Type := mkWorld_ {
  frame : Z;
  dt : float;
  elasticity : float;
  friction : float;
  contactgroup : list ContactJoint;
  _colors : gmap string vec;
  _bodies : gmap string PyBody
}.

(** The loop of [create_body] that looks for a name, over the candidates
    numbered [i], ..., [i + more]: the name is the first candidate that is
    not taken, and the last candidate if all are. *)
Fixpoint generate_name (shape : string) (bodies : gmap string PyBody)
    (i more : nat) : string :=
  let name := (shape +:+ pretty i)%string in
  match more with
  | O => name
  | S more' =>
      if bool_decide (name ∉ dom bodies) then name
      else generate_name shape bodies (S i) more'
  end.

(** [World.create_body(shape, name, color, **kwargs)]; [random3] is what
    [rng.random(3)] returns when no colour is given.  The body that is
    returned is referred to by its name. *)
Definition create_body (shape : string) (name : option string)
    (color : option vec) (kw : kwargs) (random3 : vec) (w : World_)
  : result string * World_ :=
  let shape := lower shape in
  let name :=
    match name with
    | Some n => n
    | None => generate_name shape (_bodies w) 0 (size (_bodies w))
    end in
  match BODIES !! shape with
  | None => (Raise (KeyError shape), w)
  | Some cls =>
      match Body_init cls name kw with
      | Raise e => (Raise e, w)
      | Ok body =>
          let c := match color with
                   | Some c => c
                   | None => random3 ++ [0.5]
                   end in
          (Ok name,
           mkWorld_ (frame w) (dt w) (elasticity w) (friction w)
                    (contactgroup w) (<[name := c]> (_colors w))
                    (<[name := body]> (_bodies w)))
      end
  end.

(** A geometry of the collision space: the floor, or the geometry of a
    body. *)
Inductive geom : Type :=
| Floor
| GeomOf (name : string).

(** [geom.getBody()]. *)
Definition getBody (g : geom) : option string :=
  match g with
  | Floor => None
  | GeomOf name => Some name
  end.

(** The engine, as [step] uses it: the pairs of geometries that
    [ode_space.collide] passes to its callback, [ode.areConnected],
    [ode.collide], and the bodies after [ode_world.step(dt)]. *)
Class Ode : Type := {
  near_pairs : World_ → list (geom * geom);
  areConnected : World_ → option string → option string → bool;
  collide : World_ → geom → geom → list Contact_;
  world_step : float → World_ → gmap string PyBody
}.

Definition with_contactgroup (g : list ContactJoint) (w : World_) : World_ :=
  mkWorld_ (frame w) (dt w) (elasticity w) (friction w) g (_colors w)
           (_bodies w).

(** [World.on_collision(args, geom_a, geom_b)]. *)
Definition on_collision `{Ode} (geom_a geom_b : geom) (w : World_) : World_ :=
  if areConnected w (getBody geom_a) (getBody geom_b) then w
  else
    foldl (λ w c,
             let c := mkContact_ (contact_pos c) (contact_normal c)
                                 (contact_depth c) (Some (elasticity w))
                                 (Some (friction w)) in
             with_contactgroup
               (contactgroup w
                  ++ [mkContactJoint c (getBody geom_a) (getBody geom_b)])
               w)
          w (collide w geom_a geom_b).

(** [self.ode_space.collide(None, self.on_collision)]. *)
Definition space_collide `{Ode} (w : World_) : World_ :=
  foldl (λ w ab, on_collision ab.1 ab.2 w) w (near_pairs w).

(** One turn of the loop of [step]. *)
Definition substep `{Ode} (dt : float) (w : World_) : World_ :=
  let w1 := space_collide (with_contactgroup [] w) in
  mkWorld_ (frame w1) (Sim.dt w1) (elasticity w1) (friction w1)
           (contactgroup w1) (_colors w1) (world_step dt w1).

(** How a call of [step] ends. *)
Inductive step_outcome : Type :=
| Returns (value : bool)
| ZeroDivisionError.

(** [World.step(substeps)] for an integer [substeps].  With true division,
    [self.dt / substeps] raises [ZeroDivisionError] for [substeps = 0];
    [range(substeps)] is empty when [substeps] is negative. *)
Definition step `{Ode} (substeps : Z) (w : World_) : step_outcome * World_ :=
  let w1 := mkWorld_ (frame w + 1) (dt w) (elasticity w) (friction w)
                     (contactgroup w) (_colors w) (_bodies w) in
  if (substeps =? 0)%Z then (ZeroDivisionError, w1)
  else
    let dt := dt w1 / float_of_nat (Z.to_nat substeps) in
    (Returns true, Nat.iter (Z.to_nat substeps) (substep dt) w1).

(** The values of the parameters of an ODE joint or motor, by the name of
    the constant of the [ode] module that stands for the parameter. *)
Definition Params : Type := string → float.

(** [target.setParam(constant, value)]. *)
Definition setParam (constant : string) (value : float) (target : Params)
  : Params :=
  λ c, if String.eqb c constant then value else target c.

(** The argument [values] of [_set_params]: a number, or a list, a tuple or
    an array of numbers. *)
Inductive pyvalues : Type :=
| Scalar (x : float)
| Sequence (l : list float).

Section params.

(** The names of the constants that the [ode] module has. *)
Variable ode_constants : list string.

(** [getattr(ode, 'Param{}{}'.format(param, s))]. *)
Definition ode_Param (param s : string) : result string :=
  let name := ("Param" +:+ param +:+ s)%string in
  if bool_decide (name ∈ ode_constants) then Ok name
  else Raise (AttributeError name).

(** [['', '2', '3'][:dof]]. *)
Definition suffixes (dof : Z) : list string := slice [""; "2"; "3"] 0 dof.

(** The list comprehension of [_get_params]. *)
Fixpoint get_loop (target : Params) (param : string) (ss : list string)
  : result (list float) :=
  match ss with
  | [] => Ok []
  | s :: ss' =>
      match ode_Param param s with
      | Raise e => Raise e
      | Ok c =>
          match get_loop target param ss' with
          | Raise e => Raise e
          | Ok vs => Ok (target c :: vs)
          end
      end
  end.

(** [_get_params(target, param, dof)]. *)
Definition _get_params (target : Params) (param : string) (dof : Z)
  : result (list float) :=
  get_loop target param (suffixes dof).

(** The loop of [_set_params]. *)
Fixpoint set_loop (target : Params) (param : string)
    (items : list (string * float)) : result unit * Params :=
  match items with
  | [] => (Ok tt, target)
  | (s, value) :: rest =>
      match ode_Param param s with
      | Raise e => (Raise e, target)
      | Ok c => set_loop (setParam c value target) param rest
      end
  end.

(** [_set_params(target, param, values, dof)]. *)
Definition _set_params (target : Params) (param : string)
    (values : pyvalues) (dof : Z) : result unit * Params :=
  let values :=
    match values with
    | Scalar x => replicate (Z.to_nat dof) x
    | Sequence l => l
    end in
  if negb (dof =? Z.of_nat (length values))%Z
  then (Raise AssertionError, target)
  else set_loop target param (zip (suffixes dof) values).

End params.

End Sim.
(** * Properties *)

(** ** Properties of the body-state accessors *)

Lemma restore_state_of name b : restore (state_of name b) b = b.
Proof. by destruct b. Qed.

Lemma state_of_restore s b : state_of (bs_name s) (restore s b) = s.
Proof. by destruct s. Qed.

Lemma sorted_names_perm (bodies : gmap string Body) :
  Physics.sorted_names bodies ≡ₚ elements (dom bodies).
Proof. apply merge_sort_Permutation. Qed.

Lemma sorted_names_elem (bodies : gmap string Body) k :
  k ∈ Physics.sorted_names bodies ↔ is_Some (bodies !! k).
Proof.
  rewrite sorted_names_perm, elem_of_elements. apply elem_of_dom.
Qed.

(** Writing back, for a list of registered names, the states read from the
    same dictionary changes nothing. *)
Lemma set_body_states_read_back (bodies : gmap string Body) (ks : list string) :
  Forall (fun k => is_Some (bodies !! k)) ks →
  Physics.set_body_states (map (fun k => state_of k (bodies !!! k)) ks) bodies
  = (Ok tt, bodies).
Proof.
  induction 1 as [|k ks [b Hb] _ IH]; simpl; [done|].
  rewrite Hb, (lookup_total_correct _ _ _ Hb), restore_state_of.
  by rewrite (insert_id _ _ _ Hb).
Qed.

(** ** C6 *)

(** C6: restoring what [get_body_states] has just captured succeeds and
    leaves the dictionary of bodies, hence every position, quaternion,
    linear and angular velocity, exactly as it was; whatever is computed
    from the world afterwards (an engine step, say) is what it would have
    been without the capture and restore. *)
Theorem get_set_body_states_identity (bodies : gmap string Body) :
  Physics.set_body_states (Physics.get_body_states bodies) bodies
    = (Ok tt, bodies)
  ∧ (∀ name, (Physics.set_body_states (Physics.get_body_states bodies) bodies).2
               !! name = bodies !! name)
  ∧ (∀ (T : Type) (behaviour : gmap string Body → T),
       behaviour (Physics.set_body_states
                    (Physics.get_body_states bodies) bodies).2
       = behaviour bodies).
Proof.
  assert (Physics.set_body_states (Physics.get_body_states bodies) bodies
          = (Ok tt, bodies)) as E.
  { apply set_body_states_read_back, Forall_forall.
    intros k. apply sorted_names_elem. }
  rewrite E. by repeat split.
Qed.

(** ** Markers.attach and Markers.detach *)

Lemma same_config_refl m : same_config m m.
Proof. done. Qed.

Lemma attach_channel_config frame_no label j m :
  same_config m (attach_channel frame_no label j m).2.
Proof.
  unfold attach_channel.
  repeat (case_match; simpl; try done).
Qed.

Lemma attach_loop_config frame_no items m :
  same_config m (attach_loop frame_no items m).2.
Proof.
  revert m. induction items as [|[label j] items IH]; intros m; simpl; [done|].
  pose proof (attach_channel_config frame_no label j m) as Hc.
  destruct (attach_channel frame_no label j m) as [[[]|e] m1]; simpl in *;
    [|done].
  unfold same_config in *. by rewrite IH.
Qed.

Lemma detach_attach frame_no m : detach (attach frame_no m).2 = detach m.
Proof. apply attach_loop_config. Qed.

(** [spec_attachment] reads the configuration only. *)
Lemma spec_attachment_config frame_no m m' item :
  same_config m m' → spec_attachment frame_no m' item = spec_attachment frame_no m item.
Proof.
  unfold same_config. destruct m, m'; simpl. intros [= -> -> -> -> -> -> -> -> ->].
  done.
Qed.

(** A turn of the loop that completes adds the attachment of the
    specification, if there is one, to the group and to [self.joints]. *)
Lemma attach_channel_ok frame_no label j m m' :
  attach_channel frame_no label j m = (Ok tt, m') →
  let new := option_list (spec_attachment frame_no m (label, j)) in
  joints m' = joints m ++ new ∧ jointgroup m' = jointgroup m ++ new.
Proof.
  unfold attach_channel, spec_attachment; simpl.
  repeat (case_match; simpl; try done);
    intros [= <-]; simpl; by rewrite ?app_nil_r.
Qed.

Lemma attach_loop_ok frame_no items m0 m m' :
  same_config m0 m →
  attach_loop frame_no items m = (Ok tt, m') →
  let new := omap (spec_attachment frame_no m0) items in
  joints m' = joints m ++ new ∧ jointgroup m' = jointgroup m ++ new.
Proof.
  revert m. induction items as [|[label j] items IH]; intros m Hc; simpl.
  { intros [= <-]. by rewrite !app_nil_r. }
  destruct (attach_channel frame_no label j m) as [[[]|e] m1] eqn:E1; [|done].
  intros E2.
  destruct (attach_channel_ok _ _ _ _ _ E1) as [Hj Hg].
  assert (same_config m0 m1) as Hc1.
  { pose proof (attach_channel_config frame_no label j m) as H1.
    rewrite E1 in H1. unfold same_config in *. simpl in H1. congruence. }
  destruct (IH m1 Hc1 E2) as [Hj' Hg'].
  rewrite (spec_attachment_config _ _ _ _ Hc) in Hj, Hg.
  rewrite Hj', Hg', Hj, Hg.
  destruct (spec_attachment frame_no m0 (label, j)); simpl;
    by rewrite <- ?app_assoc, ?app_nil_r.
Qed.

(** When [attach] returns, the joints it has added are the attachments of
    the specification, channel by channel. *)
Lemma attach_ok frame_no m m' :
  attach frame_no m = (Ok tt, m') →
  joints m' = joints m ++ omap (spec_attachment frame_no m) (channels m)
  ∧ jointgroup m' = jointgroup m ++ omap (spec_attachment frame_no m) (channels m).
Proof. apply attach_loop_ok, same_config_refl. Qed.

(** ** C8 *)

(** C8: for any frame and any configuration, [detach] after [attach] leaves
    no attachment, in the joint group or in [self.joints]; [detach] changes
    nothing when there is none; and [attach] after that [detach] does what
    [attach] does on the configuration without attachments, so that from a
    state without attachments it builds the very same joints again (same
    bodies, offsets and compliances) with the same outcome. *)
Theorem attach_detach_attach (frame_no : nat) (m : Markers) :
  joints (detach (attach frame_no m).2) = []
  ∧ jointgroup (detach (attach frame_no m).2) = []
  ∧ (joints m = [] → jointgroup m = [] → detach m = m)
  ∧ attach frame_no (detach (attach frame_no m).2) = attach frame_no (detach m)
  ∧ (joints m = [] → jointgroup m = [] →
     attach frame_no (detach (attach frame_no m).2) = attach frame_no m).
Proof.
  assert (joints m = [] → jointgroup m = [] → detach m = m) as Hnoop.
  { destruct m; simpl. by intros -> ->. }
  split_and!; try done.
  - by rewrite detach_attach.
  - intros Hj Hg. by rewrite detach_attach, Hnoop.
Qed.

(** On the demonstration markers, which hold no joint: [detach] changes
    nothing, and attaching frame 1 again after a [detach] rebuilds the one
    joint of the first [attach]. *)
Lemma attach_detach_attach_witness :
  detach (demo_markers demo_data) = demo_markers demo_data
  ∧ attach 1 (detach (attach 1 (demo_markers demo_data)).2)
    = attach 1 (demo_markers demo_data)
  ∧ length (joints (attach 1 (demo_markers demo_data)).2) = 1%nat.
Proof.
  pose proof (attach_detach_attach 1 (demo_markers demo_data))
    as (_ & _ & Hnoop & _ & Hagain).
  split_and!; [by apply Hnoop | by apply Hagain | reflexivity].
Defined.

(** ** C3 *)

(** C3, as the code has it: when [attach] returns, the joints it has added
    are one per channel that has a target body and a marker that is not a
    dropout in the frame, and each has for compliance the base [cfm] divided
    by [root_attachment_factor] when its target is one of the roots and
    divided by [1.] when it is not.  Nothing orders the two quotients: the
    factor is whatever the configuration says, [1.] by default. *)
Theorem attach_sets_compliance (frame_no : nat) (m m' : Markers) :
  attach frame_no m = (Ok tt, m') →
  joints m' = joints m ++ omap (spec_attachment frame_no m) (channels m)
  ∧ ∀ joint, joint ∈ omap (spec_attachment frame_no m) (channels m) →
      ∃ target rs,
        body2 joint = Some target ∧ roots m = Some rs
        ∧ param_erp joint = Some (erp m)
        ∧ param_cfm joint
          = Some (if bool_decide (target ∈ rs)
                  then cfm m / root_attachment_factor m
                  else cfm m / 1).
Proof.
  intros Hok. split; [by apply attach_ok|].
  intros joint (item & _ & Hspec)%list_elem_of_omap.
  unfold spec_attachment, attachment_factor in Hspec.
  repeat case_match; simplify_eq;
    eexists _, _; simpl; split_and!; try done;
    match goal with Hroot : bool_decide _ = _ |- _ => by rewrite Hroot end.
Qed.

(** On the demonstration markers [attach(0)] returns with one joint, whose
    compliance is the default [cfm] over the default factor. *)
Lemma attach_sets_compliance_witness :
  joints (attach 0 (demo_markers demo_data)).2
  = omap (spec_attachment 0 (demo_markers demo_data)) [("m0", 0%nat)]
  ∧ param_cfm <$> joints (attach 0 (demo_markers demo_data)).2
    = [Some (DEFAULT_CFM / 1)].
Proof.
  split; [|reflexivity].
  apply (attach_sets_compliance 0 (demo_markers demo_data)
           (attach 0 (demo_markers demo_data)).2).
  vm_compute. reflexivity.
Defined.

(** C3 as stated fails for the configuration [Markers.__init__] sets up:
    with the default [root_attachment_factor] the attachment to the root
    [torso] and the attachment to the same body when it is no root have the
    same compliance, which is not smaller than itself. *)
Lemma root_compliance_not_smaller_by_default :
  root_attachment_factor Markers_init = 1
  ∧ root_attachment_factor (demo_markers demo_data) = 1
  ∧ param_cfm <$> joints (attach 0 (demo_markers demo_data)).2
    = [Some DEFAULT_CFM]
  ∧ param_cfm <$> joints (attach 0 (with_roots [] (demo_markers demo_data))).2
    = [Some DEFAULT_CFM]
  ∧ (DEFAULT_CFM <? DEFAULT_CFM) = false.
Proof. vm_compute. done. Qed.

(** ** Markers.reposition *)

(** The first loop of [reposition] writes the cell of each marker it visits
    once, with the centred velocity, and no other cell. *)
Lemma velocities_spec dt prev next cs delta delta' :
  velocities dt prev next cs delta = Ok delta' →
  NoDup cs →
  ∀ c zero, delta !! c = Some zero →
    delta' !! c = Some (if bool_decide (c ∈ cs)
                        then centred_velocity dt prev next c zero else zero).
Proof.
  revert delta. induction cs as [|c0 cs IH]; intros delta Hv Hnd c zero Hc.
  { simpl in Hv. by simplify_eq. }
  apply NoDup_cons in Hnd as [Hc0 Hnd]. simpl in Hv.
  assert (∀ d1, velocities dt prev next cs d1 = Ok delta' →
                d1 !! c = Some (if bool_decide (c = c0)
                                then centred_velocity dt prev next c zero
                                else zero) →
                delta' !! c
                = Some (if bool_decide (c ∈ c0 :: cs)
                        then centred_velocity dt prev next c zero else zero))
    as Hstep.
  { intros d1 Hd1 Hc1. rewrite (IH _ Hd1 Hnd _ _ Hc1).
    f_equal. case_bool_decide as Hin; subst.
    - rewrite bool_decide_eq_false_2 by done.
      by rewrite bool_decide_eq_true_2 by apply list_elem_of_here.
    - destruct (decide (c ∈ cs)).
      + by rewrite !bool_decide_eq_true_2 by (by try apply list_elem_of_further).
      + by rewrite !bool_decide_eq_false_2
          by (by try intros [?|?]%elem_of_cons). }
  assert (tracked prev c0 && tracked next c0 = false →
          delta !! c = Some (if bool_decide (c = c0)
                             then centred_velocity dt prev next c zero
                             else zero)) as Hskip.
  { intros Hf. case_bool_decide; subst; [|done].
    unfold centred_velocity. by rewrite Hf. }
  unfold tracked in Hskip.
  destruct (cell prev c0 4) as [pv|] eqn:Ep; [|done].
  destruct (-1 <? pv) eqn:Epv; [|by apply (Hstep delta), Hskip].
  destruct (cell next c0 4) as [nv|] eqn:En; [|done].
  destruct (-1 <? nv) eqn:Env; [|by apply (Hstep delta), Hskip].
  destruct (prev !! c0) as [p|] eqn:Ep0; [|done].
  destruct (next !! c0) as [n|] eqn:En0; [|done].
  destruct (bool_decide (c0 < length delta)%nat) eqn:Hlen; [|done].
  apply bool_decide_eq_true in Hlen.
  apply (Hstep _ Hv). case_bool_decide; subst.
  - rewrite list_lookup_insert_eq by done.
    unfold centred_velocity, tracked. by rewrite Ep, En, Epv, Env, Ep0, En0.
  - by rewrite list_lookup_insert_ne.
Qed.

(** The second loop leaves alone the bodies that no channel names. *)
Lemma place_other items mb frame delta (bodies bodies' : gmap string Body) r name :
  (∀ label j, (label, j) ∈ items → mb !! label ≠ Some name) →
  place items mb frame delta bodies = (r, bodies') →
  bodies' !! name = bodies !! name.
Proof.
  revert bodies. induction items as [|[l0 j0] items IH]; intros bodies Hno Hp;
    simpl in Hp; [by simplify_eq|].
  assert (∀ n0, mb !! l0 = Some n0 → n0 ≠ name) as Hn0.
  { intros n0 E ->. by eapply Hno; [apply list_elem_of_here|]. }
  destruct (mb !! l0) as [n0|]; [|by simplify_eq].
  specialize (Hn0 n0 eq_refl).
  destruct (frame !! j0) as [p0|]; [|by simplify_eq].
  destruct (delta !! j0) as [v0|].
  - rewrite (IH _ (λ l j Hin, Hno l j (list_elem_of_further _ _ _ Hin)) Hp).
    by rewrite !lookup_alter_ne.
  - simplify_eq. by rewrite lookup_alter_ne.
Qed.

(** The second loop gives the body of a channel the position and the
    velocity of the channel's row, when no other channel shares the body. *)
Lemma place_spec items mb frame delta (bodies bodies' : gmap string Body)
    label j name b :
  place items mb frame delta bodies = (Ok tt, bodies') →
  NoDup items.*1 →
  (label, j) ∈ items →
  mb !! label = Some name →
  (∀ label' j', (label', j') ∈ items → mb !! label' = Some name →
                label' = label) →
  bodies !! name = Some b →
  ∃ p v b', frame !! j = Some p ∧ delta !! j = Some v
            ∧ bodies' !! name = Some b'
            ∧ position b' = p ∧ linear_velocity b' = v.
Proof.
  revert bodies b.
  induction items as [|[l0 j0] items IH]; intros bodies b Hp Hnd Hin Hmb Hinj Hb.
  { by apply elem_of_nil in Hin. }
  simpl in Hp, Hnd. apply NoDup_cons in Hnd as [Hl0 Hnd].
  destruct (mb !! l0) as [n0|] eqn:En0; [|done].
  destruct (frame !! j0) as [p0|] eqn:Ep0; [|done].
  destruct (delta !! j0) as [v0|] eqn:Ev0; [|done].
  apply elem_of_cons in Hin as [[= <- <-]|Hin].
  - simplify_eq.
    exists p0, v0, (set_linear_velocity v0 (set_position p0 b)).
    split_and!; try done.
    erewrite place_other; [|..|exact Hp].
    + by rewrite lookup_alter_eq, lookup_alter_eq, Hb.
    + intros l' j' Hin' Hl'.
      apply Hl0. rewrite <- (Hinj l' j'); [|by apply list_elem_of_further|done].
      apply list_elem_of_fmap. by exists (l', j').
  - assert (n0 ≠ name) as Hne.
    { intros ->. apply Hl0.
      rewrite (Hinj l0 j0); [|apply list_elem_of_here|done].
      apply list_elem_of_fmap. by exists (label, j). }
    eapply (IH _ b Hp); try done.
    + intros l' j' Hin'. apply (Hinj l' j'). by apply list_elem_of_further.
    + by rewrite !lookup_alter_ne.
Qed.

(** The velocity of the dropout rule at the first and at the last frame,
    and at a frame between them. *)
Lemma expected_velocity_boundary dt (d : ndarray3) frame_no c zero :
  (frame_no = 0 ∨ frame_no = length d - 1)%nat →
  expected_velocity dt d frame_no c zero = zero.
Proof.
  intros Hf. unfold expected_velocity, interior.
  destruct Hf as [->| ->]; [done|].
  by rewrite Nat.ltb_irrefl, andb_false_r.
Qed.

Lemma expected_velocity_interior dt (d : ndarray3) frame_no c zero prev next :
  (0 < frame_no < length d - 1)%nat →
  d !! (frame_no - 1)%nat = Some prev →
  d !! (frame_no + 1)%nat = Some next →
  expected_velocity dt d frame_no c zero
  = centred_velocity dt prev next c zero.
Proof.
  intros [Hlo Hhi] Hprev Hnext. unfold expected_velocity, interior.
  rewrite Hprev, Hnext.
  by rewrite (proj2 (Nat.ltb_lt _ _) Hlo), (proj2 (Nat.ltb_lt _ _) Hhi).
Qed.

(** ** C2 *)

(** C2, as the code has it: when [reposition(frame_no)] returns, the proxy
    body of every channel is at the marker's recorded position and has the
    centred difference [(next - prev) / (2 * dt)] for linear velocity when
    the frame is an interior one and the marker's validity is above [-1] in
    both neighbouring frames; its velocity is the row of zeros otherwise, in
    particular at the first and at the last frame.  The array is
    rectangular, the labels of the channels are the keys of a dictionary,
    and the channels have a proxy body each. *)
Theorem reposition_velocity (frame_no : nat) (w w' : World) (d : ndarray3)
    (label : string) (j : nat) (name : string) (b : Body) :
  reposition frame_no w = (Ok tt, w') →
  data (markers w) = Some d →
  rectangular d →
  NoDup (channels (markers w)).*1 →
  (label, j) ∈ channels (markers w) →
  marker_bodies (markers w) !! label = Some name →
  (∀ label' j', (label', j') ∈ channels (markers w) →
                marker_bodies (markers w) !! label' = Some name →
                label' = label) →
  _bodies w !! name = Some b →
  ∃ row b',
    d !! frame_no ≫= (.!! j) = Some row
    ∧ _bodies w' !! name = Some b'
    ∧ position b' = take 3 row
    ∧ linear_velocity b'
      = expected_velocity (dt w) d frame_no j (zeros_like (take 3 row))
    ∧ ((frame_no = 0 ∨ frame_no = length d - 1)%nat →
       linear_velocity b' = zeros_like (take 3 row))
    ∧ (∀ prev next,
         (0 < frame_no < length d - 1)%nat →
         d !! (frame_no - 1)%nat = Some prev →
         d !! (frame_no + 1)%nat = Some next →
         linear_velocity b'
         = if (tracked prev j && tracked next j)%bool
           then centred_velocity (dt w) prev next j (zeros_like (take 3 row))
           else zeros_like (take 3 row)).
Proof.
  intros Hrep Hd Hrect Hnd Hin Hmb Hinj Hb.
  enough (∃ row b',
            d !! frame_no ≫= (.!! j) = Some row
            ∧ _bodies w' !! name = Some b'
            ∧ position b' = take 3 row
            ∧ linear_velocity b'
              = expected_velocity (dt w) d frame_no j
                                  (zeros_like (take 3 row)))
    as (row & b' & Hrow & Hb' & Hpos & Hvel).
  { exists row, b'. split_and!; try done.
    - intros Hf. by rewrite Hvel, expected_velocity_boundary.
    - intros prev next Hf Hprev Hnext.
      rewrite Hvel, (expected_velocity_interior _ _ _ _ _ _ _ Hf Hprev Hnext).
      unfold centred_velocity. by destruct (tracked prev j && tracked next j). }
  unfold reposition in Hrep. rewrite Hd in Hrep.
  destruct (d !! frame_no) as [fr|] eqn:Efr; [|done].
  destruct (reposition_delta _ _ _ _) as [delta|] eqn:Edelta; [|done].
  unfold on_bodies in Hrep.
  destruct (place _ _ _ _ _) as [r bodies'] eqn:Eplace.
  simplify_eq. simpl.
  destruct (place_spec _ _ _ _ _ _ _ _ _ _ Eplace Hnd Hin Hmb Hinj Hb)
    as (p & v & b' & Hp & Hv & Hb' & Hpos & Hvel).
  apply list_lookup_fmap_Some in Hp as (row & -> & Hrow).
  exists row, b'. split_and!; try done.
  rewrite Hvel. clear Hvel Hpos Hb' Eplace.
  assert (map zeros_like (map (take 3) fr) !! j
          = Some (zeros_like (take 3 row))) as Hzero.
  { by rewrite !list_lookup_fmap, Hrow. }
  unfold reposition_delta in Edelta. unfold expected_velocity.
  destruct (interior d frame_no); [|by simplify_eq].
  destruct (d !! (frame_no - 1)%nat) as [prev|]; [|done].
  destruct (d !! (frame_no + 1)%nat) as [next|]; [|done].
  destruct d as [|first d']; [done|].
  pose proof (velocities_spec _ _ _ _ _ _ Edelta (NoDup_seq _ _) _ _ Hzero)
    as Hspec.
  rewrite Hv in Hspec. injection Hspec as ->.
  rewrite bool_decide_eq_true_2; [done|].
  apply elem_of_seq. split; [lia|]. simpl.
  destruct Hrect as [n Hn]. rewrite Forall_forall in Hn.
  rewrite (Hn first) by apply list_elem_of_here.
  rewrite <- (Hn fr) by (by eapply list_elem_of_lookup_2).
  by eapply lookup_lt_Some.
Qed.

(** On the demonstration world [reposition(1)] returns and gives the proxy
    body of [m0] the centred velocity [(0, 0, 2)]. *)
Lemma reposition_velocity_witness :
  ∃ row b',
    demo_data !! 1%nat ≫= (.!! 0%nat) = Some row
    ∧ _bodies (reposition 1 (demo_world demo_data)).2 !! "marker:m0" = Some b'
    ∧ position b' = take 3 row
    ∧ linear_velocity b'
      = expected_velocity 0.5 demo_data 1 0 (zeros_like (take 3 row))
    ∧ linear_velocity b' = [0; 0; 2].
Proof.
  assert (reposition 1 (demo_world demo_data)
          = (Ok tt, (reposition 1 (demo_world demo_data)).2)) as Hrun.
  { vm_compute. reflexivity. }
  assert (rectangular demo_data) as Hrect.
  { exists 1%nat. repeat constructor. }
  assert (NoDup [("m0", 0%nat)].*1) as Hnd.
  { repeat constructor. by intros ?%elem_of_nil. }
  assert (∀ label' (j' : nat),
            (label', j') ∈ [("m0", 0%nat)] →
            marker_bodies (demo_markers demo_data) !! label'
            = Some "marker:m0" → label' = "m0") as Hinj.
  { by intros label' j' [= -> ->]%list_elem_of_singleton. }
  destruct (reposition_velocity 1 (demo_world demo_data)
              (reposition 1 (demo_world demo_data)).2 demo_data
              "m0" 0 "marker:m0" marker_m0 Hrun eq_refl Hrect Hnd
              (list_elem_of_here _ _) eq_refl Hinj eq_refl)
    as (row & b' & Hrow & Hb' & Hpos & Hvel & _ & _).
  exists row, b'. split_and!; try done;
    rewrite Hvel; injection Hrow as <-; reflexivity.
Defined.

(** What [reposition_velocity] gives on the demonstration track: a
    velocity of [(2 - 0) / (2 * 0.5)] along z at the middle frame, zero at
    both ends. *)
Example reposition_demo_values :
  expected_velocity 0.5 demo_data 1 0 [0; 0; 0] = [0; 0; 2]
  ∧ expected_velocity 0.5 demo_data 0 0 [0; 0; 0] = [0; 0; 0]
  ∧ expected_velocity 0.5 demo_data 2 0 [0; 0; 0] = [0; 0; 0]
  ∧ expected_velocity 0.5 dropout_data 1 0 [0; 0; 0] = [0; 0; 0].
Proof. vm_compute. done. Qed.

(** C2 as stated fails on a track whose first frame has validity [-0.5] for
    the marker: the validity is below zero, yet [reposition(1)] gives the
    proxy body the velocity [(0, 0, 2)], because [-0.5 > -1]. *)
Lemma reposition_negative_validity_not_zero :
  data_at (markers (demo_world half_data)) 0 0 4 = Ok (-0.5)
  ∧ (-0.5 <? 0) = true
  ∧ (reposition 1 (demo_world half_data)).1 = Ok tt
  ∧ linear_velocity
      <$> _bodies (reposition 1 (demo_world half_data)).2 !! "marker:m0"
    = Some [0; 0; 2]
  ∧ (2 =? 0) = false.
Proof. vm_compute. done. Qed.

(** On that track the two dropout tests of the markers disagree.  For
    [attach], whose test is [validity < 0], the marker is a dropout in frame
    0: no joint is built there, while one is built on the track whose
    validities are all 1.  For [reposition], whose test is [validity > -1],
    the same marker is tracked in frame 0. *)
Example dropout_tests_disagree :
  attach 0 (demo_markers half_data) = (Ok tt, demo_markers half_data)
  ∧ joints (attach 0 (demo_markers half_data)).2 = []
  ∧ length (joints (attach 0 (demo_markers demo_data)).2) = 1%nat
  ∧ tracked [[0; 0; 0; 0; -0.5]] 0 = true.
Proof. vm_compute. done. Qed.

(** ** Running generators *)

(** Go through the events of an explicit trace that a pair [Hin] belongs
    to. *)
Ltac each_event Hin :=
  repeat (apply elem_of_cons in Hin as [[= -> ->]|Hin]);
  [..|by apply elem_of_nil in Hin].

Section generators.
Context `{Engine}.

Lemma exec_bind {Y A B} (f : A → gen Y B) (g : gen Y A) (w : World) :
  exec (gen_bind f g) w
  = match exec g w with
    | (t1, (Ok a, w1)) =>
        let '(t2, out) := exec (f a) w1 in (t1 ++ t2, out)
    | (t1, (Raise e, w1)) => (t1, (Raise e, w1))
    end.
Proof.
  revert w. induction g as [a|e|y k IH|A' o k IH]; intros w; simpl.
  - by destruct (exec (f a) w).
  - done.
  - rewrite IH. destruct (exec k w) as [t1 [[a|e] w1]]; [|done].
    by destruct (exec (f a) w1).
  - destruct (handle o w) as [[a|e] w']; [|done].
    rewrite IH. destruct (exec (k a) w') as [t1 [[a'|e] w1]]; [|done].
    by destruct (exec (f a') w1).
Qed.

(** No method of the markers, of the skeleton or of the engine writes the
    configuration of the markers, and only [detach] and [attach] write
    their joints. *)
Lemma handle_markers {A} (o : op A) (w : World) :
  markers (handle o w).2
  = match o with
    | MarkersDetach => detach (markers w)
    | MarkersAttach frame_no => (attach frame_no (markers w)).2
    | _ => markers w
    end.
Proof.
  destruct o; simpl; try done.
  - unfold reposition. repeat (case_match; simpl; try done).
    unfold on_bodies in *. case_match. by simplify_eq.
  - unfold on_markers. by destruct (attach frame_no (markers w)).
  - by case_match.
  - unfold Skel.set_body_states, on_bodies. by case_match.
Qed.

Lemma reposition_markers frame_no w :
  markers (reposition frame_no w).2 = markers w.
Proof. apply (handle_markers (MarkersReposition frame_no)). Qed.

Lemma set_body_states_markers states w :
  markers (Skel.set_body_states states w).2 = markers w.
Proof. apply (handle_markers (SkeletonSetBodyStates states)). Qed.

Lemma on_markers_attach frame_no w :
  on_markers (attach frame_no) w
  = ((attach frame_no (markers w)).1,
     with_markers (attach frame_no (markers w)).2 w).
Proof. unfold on_markers. by destruct (attach frame_no (markers w)). Qed.

(** ** C4 *)

(** C4: in a run of [_step_to_marker_frame(frame_no)] from any world,
    [detach] comes first and leaves no joint; from then on, at every point of
    the run, the markers hold no attachment or hold what [attach(frame_no)]
    has built from none, so no joint of an earlier frame is ever beside one
    of this frame.  When the run completes, its calls are, in this order:
    detach, reposition, attach, collide, the capture of the body states and
    their restoration, the yield of the captured states, the engine step,
    the emptying of the contact group; the states yielded are those of the
    world before the engine step, and the contact group is empty at the
    end. *)
Theorem step_to_marker_frame_order (frame_no : nat) (w : World) :
  (∀ e w', (e, w') ∈ (exec (_step_to_marker_frame frame_no) w).1 →
     markers w' = detach (markers w)
     ∨ markers w' = (attach frame_no (detach (markers w))).2)
  ∧ ((exec (_step_to_marker_frame frame_no) w).2.1 = Ok tt →
     ∃ w1 w2 w3 w4 cp w5 w6 w7,
       (exec (_step_to_marker_frame frame_no) w).1
       = [(EvDetach, w1); (EvReposition frame_no, w2);
          (EvAttach frame_no, w3); (EvCollide, w4);
          (EvGetBodyStates cp, w4); (EvSetBodyStates cp, w5);
          (EvYield cp, w5); (EvOdeStep, w6); (EvContactEmpty, w7)]
       ∧ (exec (_step_to_marker_frame frame_no) w).2.2 = w7
       ∧ joints (markers w1) = [] ∧ jointgroup (markers w1) = []
       ∧ attach frame_no (markers w2) = (Ok tt, markers w3)
       ∧ cp = Skel.get_body_states w4
       ∧ ode_world_step w5 = (Ok tt, w6)
       ∧ ode_contactgroup w7 = []).
Proof.
  unfold _step_to_marker_frame. simpl.
  pose proof (reposition_markers frame_no
                (with_markers (detach (markers w)) w)) as Hm2.
  destruct (reposition frame_no _) as [[[]|e2] w2]; simpl in Hm2.
  2: { split; [|done]. intros e w' Hin. left. by each_event Hin. }
  rewrite on_markers_attach, Hm2.
  destruct (attach frame_no (detach (markers w))) as [[[]|e3] m3] eqn:E3;
    simpl.
  2: { split; [|done]. intros e w' Hin. each_event Hin; auto. }
  set (w3 := with_markers m3 w2).
  set (w4 := with_contactgroup _ w3).
  pose proof (set_body_states_markers (Skel.get_body_states w4) w4) as Hm5.
  destruct (Skel.set_body_states _ w4) as [[[]|e5] w5]; simpl in Hm5.
  2: { split; [|done]. intros e w' Hin.
       each_event Hin; auto; by right; rewrite ?Hm5. }
  split.
  - intros e w' Hin. each_event Hin; auto; by right; rewrite ?Hm5.
  - intros _. eexists _, w2, w3, w4, _, w5, _, _.
    split_and!; try done. simpl. by rewrite Hm2.
Qed.

(** ** Restoring a checkpoint *)

Lemma set_body_states_other states (bodies bodies' : gmap string Body) r k :
  k ∉ bs_name <$> states →
  Physics.set_body_states states bodies = (r, bodies') →
  bodies' !! k = bodies !! k.
Proof.
  revert bodies. induction states as [|s states IH]; intros bodies Hk Hs;
    simpl in Hs; [by simplify_eq|].
  rewrite fmap_cons in Hk. apply not_elem_of_cons in Hk as [Hne Hk].
  destruct (bodies !! bs_name s); [|by simplify_eq].
  rewrite (IH _ Hk Hs). by rewrite lookup_insert_ne.
Qed.

(** After a restoration that succeeds, every body named in the frame state
    reads as the frame state says, when the frame state has one entry per
    name (or equal entries for a name). *)
Lemma set_body_states_lookup (g : string → BodyState) ks
    (bodies bodies' : gmap string Body) :
  (∀ k, bs_name (g k) = k) →
  Physics.set_body_states (map g ks) bodies = (Ok tt, bodies') →
  ∀ k, k ∈ ks → state_of k (bodies' !!! k) = g k.
Proof.
  intros Hg. revert bodies.
  induction ks as [|k0 ks IH]; intros bodies Hs k Hk; simpl in Hs.
  { by apply elem_of_nil in Hk. }
  rewrite Hg in Hs.
  destruct (bodies !! k0) as [b0|] eqn:E0; [|done].
  destruct (decide (k ∈ ks)) as [Hin|Hnin]; [by eapply IH|].
  apply elem_of_cons in Hk as [->|]; [|done].
  assert (bodies' !! k0 = Some (restore (g k0) b0)) as Hk0.
  { erewrite set_body_states_other; [|..|exact Hs].
    - by rewrite lookup_insert_eq.
    - rewrite <- list_fmap_compose. intros (k' & Hk' & Hin)%list_elem_of_fmap.
      simpl in Hk'. rewrite Hg in Hk'. by subst. }
  rewrite (lookup_total_correct _ _ _ Hk0).
  rewrite <- (Hg k0) at 1. apply state_of_restore.
Qed.

(** Restoring a checkpoint of the skeleton makes the skeleton read as the
    checkpoint, whatever happened to the bodies since it was captured, as
    long as the skeleton is made of the same bodies. *)
Lemma restore_checkpoint (w_cp w w' : World) :
  sk_bodies (skeleton w) = sk_bodies (skeleton w_cp) →
  Skel.set_body_states (Skel.get_body_states w_cp) w = (Ok tt, w') →
  Skel.get_body_states w' = Skel.get_body_states w_cp.
Proof.
  intros Hsk Hset. unfold Skel.set_body_states, on_bodies in Hset.
  destruct (Physics.set_body_states _ _) as [r bodies'] eqn:E.
  simplify_eq. unfold Skel.get_body_states at 1. simpl. rewrite Hsk.
  apply map_ext_in. intros k Hk%list_elem_of_In.
  by eapply (set_body_states_lookup
               (λ k, state_of k (_bodies w_cp !!! k))).
Qed.

(** ** Traces of inverse dynamics *)

Lemma event_of_not_add {Y A} (o : op A) (a : A) torques :
  is_add_torques o = false → event_of (Y:=Y) o a ≠ EvAddTorques torques.
Proof. by destruct o. Qed.

Lemma restores_no_add max_force (t : trace vec) :
  Forall (λ ew, ∀ torques, ew.1 ≠ EvAddTorques torques) t →
  restores_before_adding max_force t.
Proof.
  intros Hall pre torques w_add post ->.
  apply Forall_app in Hall as [_ Hall]. apply Forall_cons in Hall as [Hno _].
  by destruct (Hno torques).
Qed.

Lemma restores_app max_force (t1 t2 : trace vec) :
  restores_before_adding max_force t1 →
  restores_before_adding max_force t2 →
  restores_before_adding max_force (t1 ++ t2).
Proof.
  intros H1 H2 pre torques w_add post Heq.
  apply app_eq_inv in Heq as [(k & -> & Hk)|(k & -> & ->)].
  - destruct k as [|x k]; simpl in Hk.
    + destruct (H2 [] torques w_add post) as
        (pre' & cp & target & w_cp & w_set & w_on & w_target & w_step
           & w_off & w_back & post' & Hpre & Hrest); [done|].
      exists (pre ++ pre'), cp, target, w_cp, w_set, w_on, w_target, w_step,
        w_off, w_back, post'.
      split; [|done]. by rewrite <- app_assoc, <- Hpre, app_nil_r.
    + simplify_eq.
      destruct (H1 pre torques w_add k) as
        (pre' & cp & target & w_cp & w_set & w_on & w_target & w_step
           & w_off & w_back & post' & Hpre & -> & Hrest); [done|].
      by exists pre', cp, target, w_cp, w_set, w_on, w_target, w_step,
        w_off, w_back, (post' ++ t2).
  - destruct (H2 k torques w_add post) as
      (pre' & cp & target & w_cp & w_set & w_on & w_target & w_step
         & w_off & w_back & post' & -> & Hrest); [done|].
    exists (t1 ++ pre'), cp, target, w_cp, w_set, w_on, w_target, w_step,
      w_off, w_back, post'.
    split; [|done]. by rewrite <- app_assoc.
Qed.

Lemma restores_cons max_force (e : event vec) w (t : trace vec) :
  (∀ torques, e ≠ EvAddTorques torques) →
  restores_before_adding max_force t →
  restores_before_adding max_force ((e, w) :: t).
Proof.
  intros He Ht. apply (restores_app _ [(e, w)] t); [|done].
  apply restores_no_add. by repeat constructor.
Qed.

(** Splitting a list at the only element that has a property. *)
Lemma split_at_unique {A} (P : A → Prop) (l0 l1 pre post : list A) (x y : A) :
  Forall (λ a, ¬ P a) l0 → Forall (λ a, ¬ P a) l1 → P y →
  l0 ++ x :: l1 = pre ++ y :: post →
  pre = l0 ∧ y = x ∧ post = l1.
Proof.
  intros H0 H1 Hy. revert pre.
  induction H0 as [|a l0 Ha _ IH]; intros pre Heq; simpl in Heq.
  - destruct pre as [|p pre]; simplify_eq/=; [done|].
    apply Forall_app in H1 as [_ H1]. apply Forall_cons in H1 as [Hno _].
    done.
  - destruct pre as [|p pre]; simplify_eq/=; [done|].
    by destruct (IH pre) as (-> & -> & ->).
Qed.

(** One turn of the loop of [inverse_dynamics], call by call. *)
Lemma exec_inverse_dynamics_body angles max_force i cp (w : World) :
  exec (inverse_dynamics_body angles max_force i cp) w
  = let w_on := (Skel.enable_motors max_force w).2 in
    match index angles i with
    | Raise e => ([(EvEnableMotors max_force, w_on); (EvRaise e, w_on)],
                  (Raise e, w_on))
    | Ok target =>
        let w_target := (Skel.set_target_angles target w_on).2 in
        let w_step := (ode_world_step w_target).2 in
        let torques := skeleton_joint_torques w_step in
        let w_off := (Skel.disable_motors w_step).2 in
        let started :=
          [(EvEnableMotors max_force, w_on);
           (EvSetTargetAngles target, w_target);
           (EvOdeStep, w_step); (EvJointTorques torques, w_step);
           (EvDisableMotors, w_off)] in
        match Skel.set_body_states cp w_off with
        | (Raise e, w_back) =>
            (started ++ [(EvRaise e, w_back)], (Raise e, w_back))
        | (Ok _, w_back) =>
            let w_add := (Skel.add_torques torques w_back).2 in
            (started ++ [(EvSetBodyStates cp, w_back);
                         (EvAddTorques torques, w_add);
                         (EvYield torques, w_add)],
             (Ok tt, w_add))
        end
    end.
Proof.
  unfold inverse_dynamics_body. simpl.
  destruct (index angles i) as [target|e]; simpl; [|done].
  by destruct (Skel.set_body_states cp _) as [[[]|e] w_back].
Qed.

(** One turn of the loop of [inverse_dynamics], run right after the
    capture and the restoration that precede the yield it consumes. *)
Lemma inverse_dynamics_body_restores angles max_force i (w_cp w_set : World) :
  sk_bodies (skeleton w_set) = sk_bodies (skeleton w_cp) →
  restores_before_adding max_force
    ([(EvGetBodyStates (Skel.get_body_states w_cp), w_cp);
      (EvSetBodyStates (Skel.get_body_states w_cp), w_set)]
     ++ (exec (inverse_dynamics_body angles max_force i
                 (Skel.get_body_states w_cp)) w_set).1).
Proof.
  intros Hsk. rewrite exec_inverse_dynamics_body. cbv zeta.
  destruct (index angles i) as [target|e].
  2: { apply restores_no_add. by repeat constructor. }
  set (w_on := (Skel.enable_motors max_force w_set).2).
  set (w_target := (Skel.set_target_angles target w_on).2).
  set (w_step := (ode_world_step w_target).2).
  set (w_off := (Skel.disable_motors w_step).2).
  destruct (Skel.set_body_states (Skel.get_body_states w_cp) w_off)
    as [[[]|e] w_back] eqn:Eset; simpl.
  2: { apply restores_no_add. by repeat constructor. }
  assert (Skel.get_body_states w_back = Skel.get_body_states w_cp) as Hback.
  { by apply (restore_checkpoint w_cp w_off). }
  intros pre torques w_add post Heq.
  apply (split_at_unique (λ ew, ∃ t, ew.1 = EvAddTorques t)
           (before_add_torques max_force (Skel.get_body_states w_cp) target
              (skeleton_joint_torques w_step)
              w_cp w_set w_on w_target w_step w_off w_back)
           [(EvYield (skeleton_joint_torques w_step),
             (Skel.add_torques (skeleton_joint_torques w_step) w_back).2)])
    in Heq as (-> & [= -> ->] & ->).
  - exists [], (Skel.get_body_states w_cp), target, w_cp, w_set, w_on,
      w_target, w_step, w_off, w_back, [].
    by split_and!.
  - repeat constructor; by intros [? [=]].
  - repeat constructor; by intros [? [=]].
  - by eexists.
Qed.

(** ** The generator that inverse dynamics consumes *)

Lemma checkpointed_bind {A B} (f : A → gen FrameState B) (g : gen FrameState A) :
  checkpointed g → (∀ a, checkpointed (f a)) → checkpointed (gen_bind f g).
Proof.
  intros Hg Hf. induction Hg as [a|e|A' o k Ho _ IH|k _ IH]; simpl.
  - apply Hf.
  - constructor.
  - by constructor.
  - apply (checkpointed_yield (λ s, gen_bind f (k s))), IH.
Qed.

Lemma checkpointed_step frame_no : checkpointed (_step_to_marker_frame frame_no).
Proof.
  unfold _step_to_marker_frame. simpl.
  do 4 (constructor; [done|]; intros _).
  apply (checkpointed_yield
           (λ _, Vis OdeWorldStep (λ _, Vis ContactGroupEmpty Ret))).
  intros _. constructor; [done|]. intros _.
  constructor; [done|]. intros a. constructor.
Qed.

Lemma checkpointed_for_yield {R} (g : gen FrameState R) i :
  checkpointed g →
  checkpointed (for_enumerate g i (λ _ states, yield states)).
Proof.
  intros Hg. revert i.
  induction Hg as [a|e|A' o k Ho _ IH|k _ IH]; intros i; simpl.
  - constructor.
  - constructor.
  - constructor; [done|]. intros a. apply IH.
  - apply (checkpointed_yield
             (λ s, for_enumerate (k s) (S i) (λ _ states, yield states))).
    intros s. apply IH.
Qed.

Lemma checkpointed_for_list {A} (l : list A) (body : A → gen FrameState unit) :
  (∀ a, checkpointed (body a)) → checkpointed (for_list l body).
Proof.
  intros Hbody. induction l as [|a l IH]; simpl; [constructor|].
  by apply checkpointed_bind.
Qed.

Lemma checkpointed_follow_markers py start end_ states :
  checkpointed (follow_markers py start end_ states).
Proof.
  unfold follow_markers. apply checkpointed_bind.
  { destruct states; repeat constructor. }
  intros _. apply checkpointed_bind; [repeat constructor|].
  intros n. apply checkpointed_for_list. intros frame_no.
  apply checkpointed_bind.
  { destruct (in_range _ _ _ _); constructor. }
  intros [|]; [|constructor].
  apply checkpointed_for_yield, checkpointed_step.
Qed.

Lemma handle_sk_bodies {A} (o : op A) (w : World) :
  sk_bodies (skeleton (handle o w).2) = sk_bodies (skeleton w).
Proof.
  destruct o; simpl; try done.
  - unfold reposition. repeat (case_match; simpl; try done).
    unfold on_bodies in *. case_match. by simplify_eq.
  - unfold on_markers. by destruct (attach frame_no (markers w)).
  - by case_match.
  - unfold Skel.set_body_states, on_bodies. by case_match.
Qed.

(** A loop at a checkpointed yield of the generator it consumes. *)
Lemma exec_for_enumerate_yield {Z} (body : nat → FrameState → gen Z unit)
    (k : FrameState → gen FrameState unit) i (w : World) :
  exec (for_enumerate
          (Vis SkeletonGetBodyStates
               (λ s, Vis (SkeletonSetBodyStates s) (λ _, Yield s (k s))))
          i body) w
  = let cp := Skel.get_body_states w in
    match Skel.set_body_states cp w with
    | (Ok _, w_set) =>
        let '(t, out) :=
          exec (gen_bind (λ _, for_enumerate (k cp) (S i) body) (body i cp))
               w_set in
        ((EvGetBodyStates cp, w) :: (EvSetBodyStates cp, w_set) :: t, out)
    | (Raise e, w') =>
        ([(EvGetBodyStates cp, w); (EvRaise e, w')], (Raise e, w'))
    end.
Proof.
  simpl. destruct (Skel.set_body_states _ w) as [[[]|e] w_set]; [|done].
  by destruct (exec _ w_set).
Qed.

(** The loop of [inverse_dynamics] over a checkpointed generator. *)
Lemma for_enumerate_restores angles max_force (g : gen FrameState unit) :
  checkpointed g →
  ∀ i w,
    restores_before_adding max_force
      (exec (for_enumerate g i (inverse_dynamics_body angles max_force)) w).1.
Proof.
  induction 1 as [a|e|A' o k Ho _ IH|k _ IH]; intros i w.
  - by apply restores_no_add.
  - apply restores_no_add. by repeat constructor.
  - simpl. destruct (handle o w) as [[a|e] w'].
    + specialize (IH a i w').
      destruct (exec _ w') as [t out]. simpl in *.
      apply restores_cons; [|done].
      intros torques. by apply event_of_not_add.
    + apply restores_no_add. by repeat constructor.
  - rewrite exec_for_enumerate_yield. cbv zeta.
    pose proof (handle_sk_bodies
                  (SkeletonSetBodyStates (Skel.get_body_states w)) w) as Hsk.
    simpl in Hsk.
    destruct (Skel.set_body_states (Skel.get_body_states w) w)
      as [[[]|e] w_set].
    2: { apply restores_no_add. by repeat constructor. }
    rewrite exec_bind.
    pose proof (inverse_dynamics_body_restores angles max_force i w w_set Hsk)
      as Hbody.
    destruct (exec (inverse_dynamics_body _ _ _ _) w_set)
      as [t1 [[[]|e] w1]]; simpl in *; [|done].
    specialize (IH (Skel.get_body_states w) (S i) w1).
    destruct (exec _ w1) as [t2 out]. simpl in *.
    by apply (restores_app _ (_ :: _ :: t1) t2).
Qed.

(** ** C1 *)

(** C1: in every run of [inverse_dynamics], whatever the world, the angles
    and the bounds, each call of [add_torques] comes at the end of this
    sequence: the checkpoint of the frame is captured and restored (the
    frame is yielded by the marker follower), the motors are enabled with
    [max_force] and given their target, the engine steps, the joint
    torques are read from the world the step has left, the motors are
    disabled, the checkpoint is restored; then the torques read are added,
    and yielded next.  Right after [add_torques] the body states of the
    skeleton are the checkpoint, as they are right after the
    restoration. *)
Theorem inverse_dynamics_stability_fix (py : pyversion) (angles : list vec)
    (start end_ : Z) (states : option FrameState) (max_force : float)
    (w : World) (pre : trace vec) (torques : vec) (w_add : World)
    (post : trace vec) :
  (exec (inverse_dynamics py angles start end_ states max_force) w).1
    = pre ++ (EvAddTorques torques, w_add) :: post →
  ∃ pre' cp target w_cp w_set w_on w_target w_step w_off w_back post',
    pre = pre' ++ [(EvGetBodyStates cp, w_cp); (EvSetBodyStates cp, w_set);
                   (EvEnableMotors max_force, w_on);
                   (EvSetTargetAngles target, w_target);
                   (EvOdeStep, w_step); (EvJointTorques torques, w_step);
                   (EvDisableMotors, w_off); (EvSetBodyStates cp, w_back)]
    ∧ post = (EvYield torques, w_add) :: post'
    ∧ cp = Skel.get_body_states w_cp
    ∧ ode_world_step w_target = (Ok tt, w_step)
    ∧ torques = skeleton_joint_torques w_step
    ∧ sk_max_force (skeleton w_off) = None
    ∧ Skel.set_body_states cp w_off = (Ok tt, w_back)
    ∧ Skel.add_torques torques w_back = (Ok tt, w_add)
    ∧ Skel.get_body_states w_add = cp.
Proof.
  apply (for_enumerate_restores (slice angles start end_) max_force
           (follow_markers py start (PyInt end_) states)
           (checkpointed_follow_markers _ _ _ _) 0 w).
Qed.

End generators.

(** In the run of inverse dynamics over the demonstration track, the first
    call of [add_torques] is the event of rank 13 and the yield of the torques
    comes next; the skeleton then reads as the checkpoint captured at rank
    5, with [torso] at height 1, and not as the engine step of rank 9 left
    it, with [torso] at height 1.5. *)
Lemma inverse_dynamics_stability_fix_witness :
  (fst <$> demo_inverse_dynamics !! 13%nat) = Some (EvAddTorques [1])
  ∧ (fst <$> demo_inverse_dynamics !! 14%nat) = Some (EvYield [1])
  ∧ Skel.get_body_states (world_after demo_inverse_dynamics 13)
    = Skel.get_body_states (world_after demo_inverse_dynamics 5)
  ∧ bs_pos <$> Skel.get_body_states (world_after demo_inverse_dynamics 13)
    = [[0; 0; 1]]
  ∧ bs_pos <$> Skel.get_body_states (world_after demo_inverse_dynamics 9)
    = [[0; 0; 1.5]].
Proof.
  destruct (inverse_dynamics_stability_fix (H:=euler_engine)
              Py3 demo_angles 0 3 None 100 (demo_world demo_data)
              (take 13 demo_inverse_dynamics) [1]
              (world_after demo_inverse_dynamics 13)
              (drop 14 demo_inverse_dynamics))
    as (pre' & cp & target & w_cp & w_set & w_on & w_target & w_step & w_off
          & w_back & post' & Hpre & Hpost & Hcp & Hstep & Htq & Hoff & Hback
          & Hadd & Hsame).
  { vm_compute. reflexivity. }
  split_and!; try (vm_compute; reflexivity).
Defined.

(** A step of the demonstration world to frame 1 completes, in the order
    stated. *)
Lemma step_to_marker_frame_order_witness :
  fst <$> (@exec euler_engine _ _ (_step_to_marker_frame 1)
                 (demo_world demo_data)).1
  = [EvDetach; EvReposition 1; EvAttach 1; EvCollide;
     EvGetBodyStates [mkBodyState "torso" [0; 0; 1] [1; 0; 0; 0] [0; 0; 1]
                                  [0; 0; 0]];
     EvSetBodyStates [mkBodyState "torso" [0; 0; 1] [1; 0; 0; 0] [0; 0; 1]
                                  [0; 0; 0]];
     EvYield [mkBodyState "torso" [0; 0; 1] [1; 0; 0; 0] [0; 0; 1] [0; 0; 0]];
     EvOdeStep; EvContactEmpty]
  ∧ ode_contactgroup
      (@exec euler_engine _ _ (_step_to_marker_frame 1)
             (demo_world demo_data)).2.2 = [].
Proof.
  destruct (step_to_marker_frame_order (H:=euler_engine) 1
              (demo_world demo_data)) as [_ Hrun].
  destruct Hrun as (w1 & w2 & w3 & w4 & cp & w5 & w6 & w7 & Ht & Hw7 & _
                      & _ & _ & Hcp & _ & Hempty);
    [vm_compute; reflexivity|].
  split; [vm_compute; reflexivity|]. by rewrite Hw7.
Defined.

(** ** Floating-point facts *)

Lemma nan_not_less (x : float) : (nan <? x) = false.
Proof. rewrite ltb_spec. reflexivity. Qed.

Section replay.
Context `{Engine}.

(** The RMS distance over no joint at all is the square root of [0 / 0]. *)
Lemma rms_distance_no_joints (w : World) :
  joints (markers w) = [] → rms_distance w = nan.
Proof. unfold rms_distance. intros ->. reflexivity. Qed.

(** ** C7 *)

(** A follower whose bound cannot be compared with a frame number, or is
    below every frame number, steps to no frame: it stops at the first frame
    for which the comparison raises, if there is one. *)
Lemma follow_without_bound {Z} (body : nat → FrameState → gen Z unit)
    py start second frames i (w : World) :
  (∀ frame_no, in_range py start frame_no second = Ok false
               ∨ in_range py start frame_no second = Raise TypeError) →
  exec (for_enumerate
          (for_list frames (λ frame_no,
             inside ← of_result (in_range py start frame_no second) ;
             if inside : bool
             then for_each (_step_to_marker_frame frame_no)
                           (λ states, yield states)
             else Ret tt)) i body) w
  = ([], (Ok tt, w))
  ∨ exec (for_enumerate
          (for_list frames (λ frame_no,
             inside ← of_result (in_range py start frame_no second) ;
             if inside : bool
             then for_each (_step_to_marker_frame frame_no)
                           (λ states, yield states)
             else Ret tt)) i body) w
    = ([(EvRaise TypeError, w)], (Raise TypeError, w)).
Proof.
  intros Hrange. induction frames as [|frame_no frames IH]; [by left|].
  simpl. destruct (Hrange frame_no) as [-> | ->]; simpl; [apply IH|by right].
Qed.

Lemma in_range_no_bound py start frame_no second :
  py = Py3 ∧ (second = PyNone ∨ ∃ s, second = PyStates s)
  ∨ py = Py2 ∧ second = PyNone →
  in_range py start frame_no second = Ok false
  ∨ in_range py start frame_no second = Raise TypeError.
Proof.
  unfold in_range. destruct (start <=? Z.of_nat frame_no)%Z; [|by left].
  intros [[-> [->|[s ->]]]|[-> ->]]; simpl; auto.
Qed.

(** The run of [forward_dynamics] when its follower steps to no frame: the
    iteration over the marker data starts, or fails for want of data, and
    nothing else happens but a [TypeError]. *)
Lemma forward_dynamics_no_frame py torques start states (w : World) :
  py = Py3 ∨ states = None →
  (exec (forward_dynamics py torques start states) w).2.2 = w
  ∧ ∀ e w', (e, w') ∈ (exec (forward_dynamics py torques start states) w).1 →
            e = EvRaise TypeError ∨ ∃ n, e = EvIter n.
Proof.
  intros Hpy. unfold forward_dynamics, follow_markers. simpl.
  destruct (data (markers w)) as [d|]; simpl.
  2: { split; [done|].
       by intros e w' [= -> ->]%list_elem_of_singleton; left. }
  match goal with
  | |- context [exec (for_enumerate (for_list ?l _) ?i ?b) w] =>
      destruct (follow_without_bound b py start
                  (match states with
                   | Some s => PyStates s
                   | None => PyNone
                   end) l i w) as [Hrun|Hrun]
  end.
  { intros frame_no. apply in_range_no_bound.
    destruct Hpy as [->| ->]; [left|destruct py; [right|left]]; split; try done.
    - destruct states; eauto.
    - by left. }
  all: unfold mbind, gen_mbind in *; rewrite Hrun; simpl; split; [done|].
  all: intros e w' Hin; each_event Hin; eauto.
Qed.

(** C7, at the point where the code departs from it: [forward_dynamics]
    passes the initial body states it is given as the bound [end] of the
    follower, never as its initial states.  So whatever the world, the
    torques and the states, the run begins by iterating over the marker
    data (or fails there): no [set_body_states] with the given states comes
    first.  In Python 3 the run is over at once, with or without initial
    states: it leaves the world as it was, with the event of the iteration
    and at most a [TypeError]; no frame is followed and no torque is added.
    The same holds in Python 2 when no initial states are given. *)
Theorem forward_dynamics_states_passed_as_end (py : pyversion)
    (torques : list vec) (start : Z) (states : option FrameState) (w : World) :
  (head (fst <$> (exec (forward_dynamics py torques start states) w).1)
   = Some (EvRaise TypeError)
   ∨ ∃ n, head (fst <$> (exec (forward_dynamics py torques start states) w).1)
          = Some (EvIter n))
  ∧ (exec (forward_dynamics Py3 torques start states) w).2.2 = w
  ∧ (∀ e w',
       (e, w') ∈ (exec (forward_dynamics Py3 torques start states) w).1 →
       e = EvRaise TypeError ∨ ∃ n, e = EvIter n)
  ∧ (exec (forward_dynamics Py2 torques start None) w).2.2 = w
  ∧ (∀ e w',
       (e, w') ∈ (exec (forward_dynamics Py2 torques start None) w).1 →
       e = EvRaise TypeError ∨ ∃ n, e = EvIter n).
Proof.
  split.
  { unfold forward_dynamics, follow_markers. simpl.
    destruct (data (markers w)) as [d|]; simpl; [|by left].
    right. exists (length d). by destruct (exec _ w). }
  destruct (forward_dynamics_no_frame Py3 torques start states w) as [? ?];
    [by left|].
  destruct (forward_dynamics_no_frame Py2 torques start None w) as [? ?];
    [by right|].
  done.
Qed.

(** ** C5 *)

(** The name the test of line 400 reads is bound nowhere. *)
Example load_global_max_rmsd :
  load_global cooper_globals "max_rmsd" = Raise (NameError "max_rmsd").
Proof. reflexivity. Qed.

(** A turn of the loop of [settle_to_markers] in cooper.py: the frame is
    stepped, and the test raises. *)
Lemma settle_loop_turn py fuel frame_no max_rms_distance states (w : World) :
  settle_loop py cooper_globals (S fuel) frame_no max_rms_distance states w
  = match for_pass (_step_to_marker_frame frame_no) states w with
    | (Raise e, w1) => (Some (Raise e), w1)
    | (Ok _, w1) =>
        (Some (Raise (NameError "max_rmsd")),
         logging INFO "settling at frame %d: marker rmsd %.3f" w1)
    end.
Proof.
  simpl. by destruct (for_pass _ states w) as [[s|e] w1].
Qed.

(** C5, at the point where the code departs from it: whatever the
    threshold, [settle_to_markers] never returns body states.  Given one
    turn of its loop or more, it ends in its first turn with an exception:
    when the step to the frame succeeds, the test [rmsd < max_rmsd] raises
    [NameError], since the threshold is the parameter [max_rms_distance]
    and nothing is called [max_rmsd]. *)
Theorem settle_to_markers_never_returns (py : pyversion) (fuel frame_no : nat)
    (max_rms_distance : float) (states : option FrameState) (w : World) :
  (∀ s, (settle_to_markers py fuel frame_no max_rms_distance states w).1
        ≠ Some (Ok s))
  ∧ (∃ e, (settle_to_markers py (S fuel) frame_no max_rms_distance states w).1
          = Some (Raise e))
  ∧ (∀ s w1,
       for_pass (_step_to_marker_frame frame_no) None w = (Ok s, w1) →
       settle_to_markers py (S fuel) frame_no max_rms_distance None w
       = (Some (Raise (NameError "max_rmsd")),
          logging INFO "settling at frame %d: marker rmsd %.3f" w1)).
Proof.
  assert (∀ st w0, ∃ e,
            (settle_loop py cooper_globals (S fuel) frame_no max_rms_distance
                         st w0).1 = Some (Raise e)) as Hturn.
  { intros st w0. rewrite settle_loop_turn.
    destruct (for_pass _ st w0) as [[s|e] w1]; eauto. }
  assert (∀ n st w0 s,
            (settle_loop py cooper_globals n frame_no max_rms_distance
                         st w0).1 ≠ Some (Ok s)) as Hnever.
  { intros [|n] st w0 s; [done|]. rewrite settle_loop_turn.
    by destruct (for_pass _ st w0) as [[s'|e] w1]. }
  unfold settle_to_markers, settle_in. split_and!.
  - intros s. destruct states as [st|]; [|apply Hnever].
    destruct (Skel.set_body_states st w) as [[[]|e] w0]; [apply Hnever|done].
  - destruct states as [st|]; [|apply Hturn].
    destruct (Skel.set_body_states st w) as [[[]|e] w0]; [apply Hturn|eauto].
  - intros s w1 Hstep. by rewrite settle_loop_turn, Hstep.
Qed.

(** ** C10 *)

(** The markers after a step to a frame that completes. *)
Lemma for_pass_markers frame_no states s (w w1 : World) :
  for_pass (_step_to_marker_frame frame_no) states w = (Ok s, w1) →
  markers w1 = (attach frame_no (detach (markers w))).2.
Proof.
  unfold for_pass, _step_to_marker_frame. simpl.
  pose proof (reposition_markers frame_no
                (with_markers (detach (markers w)) w)) as Hm2.
  destruct (reposition frame_no _) as [[[]|e2] w2]; simpl in Hm2; [|done].
  rewrite on_markers_attach, Hm2.
  destruct (attach frame_no (detach (markers w))) as [[[]|e3] m3]; simpl;
    [|done].
  set (w4 := with_contactgroup _ (with_markers m3 w2)).
  pose proof (set_body_states_markers (Skel.get_body_states w4) w4) as Hm5.
  destruct (Skel.set_body_states _ w4) as [[[]|e5] w5]; simpl in Hm5; [|done].
  intros [= _ <-]. simpl. by rewrite Hm5.
Qed.

(** With the comparison the documentation describes, that is with
    [max_rmsd] bound to the threshold, the loop never returns when the frame
    attaches no marker: each turn finds a distance that is not a number. *)
Lemma settle_loop_bound_never_returns py threshold frame_no fuel :
  ∀ states (w : World) s,
    joints (attach frame_no (detach (markers w))).2 = [] →
    (settle_loop py [("max_rmsd", ObjFloat threshold)] fuel frame_no
                 threshold states w).1 ≠ Some (Ok s).
Proof.
  induction fuel as [|fuel IH]; intros states w s Hnone; [done|].
  simpl.
  destruct (for_pass _ states w) as [[s'|e] w1] eqn:Epass; [|done].
  pose proof (for_pass_markers _ _ _ _ _ Epass) as Hm1.
  rewrite rms_distance_no_joints by (by rewrite Hm1).
  rewrite nan_not_less.
  apply IH. simpl. by rewrite Hm1, detach_attach.
Qed.

(** C10, at the point where the code departs from it.  When
    [attach(frame_no)] makes no attachment (no channel has both a target
    body and a marker that is no dropout in the frame), the world a step to
    the frame leaves has an RMS distance that is not a number, and that is
    below no threshold; with the test of the documentation the loop of
    [settle_to_markers] would therefore never return.  The method itself
    does not go that far: it ends in its first turn with an exception, like
    for any other frame. *)
Theorem settle_without_attachments (py : pyversion) (fuel frame_no : nat)
    (threshold : float) (states : option FrameState) (w : World) :
  joints (attach frame_no (detach (markers w))).2 = [] →
  (∀ s w1, for_pass (_step_to_marker_frame frame_no) states w = (Ok s, w1) →
           joints (markers w1) = []
           ∧ rms_distance w1 = nan
           ∧ ∀ x, (rms_distance w1 <? x) = false)
  ∧ (∀ s, (settle_loop py [("max_rmsd", ObjFloat threshold)] fuel frame_no
                       threshold states w).1 ≠ Some (Ok s))
  ∧ (∃ e, (settle_to_markers py (S fuel) frame_no threshold None w).1
          = Some (Raise e))
  ∧ (∀ s w1, for_pass (_step_to_marker_frame frame_no) None w = (Ok s, w1) →
             (settle_to_markers py (S fuel) frame_no threshold None w).1
             = Some (Raise (NameError "max_rmsd"))).
Proof.
  intros Hnone. split_and!.
  - intros s w1 Hpass.
    assert (joints (markers w1) = []) as Hj.
    { by rewrite (for_pass_markers _ _ _ _ _ Hpass). }
    split_and!; [done|by apply rms_distance_no_joints|].
    intros x. rewrite rms_distance_no_joints by done. apply nan_not_less.
  - intros s. by apply settle_loop_bound_never_returns.
  - unfold settle_to_markers, settle_in. rewrite settle_loop_turn.
    destruct (for_pass _ None w) as [[s|e] w1]; eauto.
  - intros s w1 Hpass. unfold settle_to_markers, settle_in.
    by rewrite settle_loop_turn, Hpass.
Qed.

End replay.

(** Settling the demonstration world to frame 0 ends with the
    [NameError]. *)
Lemma settle_to_markers_never_returns_witness :
  (@settle_to_markers euler_engine Py3 5 0 0.1 None (demo_world demo_data)).1
  = Some (Raise (NameError "max_rmsd")).
Proof.
  destruct (settle_to_markers_never_returns (H:=euler_engine) Py3 4 0 0.1
              None (demo_world demo_data)) as (_ & _ & Hraise).
  by erewrite Hraise; [|vm_compute; reflexivity].
Defined.

(** On the track where the marker is lost in every frame, frame 0 attaches
    nothing; settling ends with the [NameError], and with [max_rmsd] bound
    to the threshold five turns of the loop do not end it. *)
Lemma settle_without_attachments_witness :
  joints (attach 0 (detach (demo_markers dropout_data))).2 = []
  ∧ (@settle_to_markers euler_engine Py3 5 0 0.1 None
       (demo_world dropout_data)).1
    = Some (Raise (NameError "max_rmsd"))
  ∧ (@settle_loop euler_engine Py3 [("max_rmsd", ObjFloat 0.1)] 5 0 0.1 None
       (demo_world dropout_data)).1 = None.
Proof.
  destruct (settle_without_attachments (H:=euler_engine) Py3 4 0 0.1 None
              (demo_world dropout_data)) as (_ & _ & _ & Hraise);
    [vm_compute; reflexivity|].
  split_and!; [vm_compute; reflexivity| |vm_compute; reflexivity].
  by eapply Hraise; vm_compute.
Defined.

(** What the replay does on the demonstration world when it is given
    initial states that put [torso] at height 5: in Python 3 nothing but a
    [TypeError]; in Python 2 every frame is followed, and the first
    checkpoint still has [torso] at height 1. *)
Example forward_dynamics_demo :
  fst <$> (@exec euler_engine _ _
             (forward_dynamics Py3 demo_angles 0
                (Some [mkBodyState "torso" [0; 0; 5] [1; 0; 0; 0] [0; 0; 0]
                                   [0; 0; 0]]))
             (demo_world demo_data)).1
  = [EvIter 3; EvRaise TypeError]
  ∧ take 6 (fst <$> (@exec euler_engine _ _
             (forward_dynamics Py2 demo_angles 0
                (Some [mkBodyState "torso" [0; 0; 5] [1; 0; 0; 0] [0; 0; 0]
                                   [0; 0; 0]]))
             (demo_world demo_data)).1)
    = [EvIter 3; EvDetach; EvReposition 0; EvAttach 0; EvCollide;
       EvGetBodyStates [mkBodyState "torso" [0; 0; 1] [1; 0; 0; 0] [0; 0; 1]
                                    [0; 0; 0]]].
Proof. vm_compute. done. Qed.

(** ** C9 *)

(** A C3D file whose frame rate does not match the time step of the world
    makes [load_markers] fail on the assertion of [load_c3d], before any
    label, frame or proxy body is stored. *)
Lemma load_markers_frame_rate_mismatch (py : pyversion) (host : Host)
    (filename attachments : string) (max_frames : option nat)
    (reader : C3DReader) (w : World) :
  endswith (lower filename) ".c3d" = true →
  files host !! filename = Some (C3DFile reader) →
  (dt w =? 1 / frame_rate reader) = false →
  load_markers py host filename attachments max_frames w
  = (Raise AssertionError, with_markers Markers_init w).
Proof.
  intros Hext Hfile Hrate. unfold load_markers. rewrite Hext.
  unfold load_c3d. rewrite Hfile.
  unfold mbind, M_bind, modify, gets. simpl. by rewrite Hrate.
Qed.

(** A file name that ends neither in [.c3d] nor in [.csv] sends one record
    to the logger and lets [load_markers] go on. *)
Lemma load_markers_other_format (py : pyversion) (host : Host)
    (filename attachments : string) (max_frames : option nat) (w : World) :
  endswith (lower filename) ".c3d" = false →
  endswith (lower filename) ".csv" = false →
  load_markers py host filename attachments max_frames w
  = load_attachments host attachments
      (logging FATAL "%s: not sure how to load markers!"
               (with_markers Markers_init w)).
Proof.
  intros Hc3d Hcsv. unfold load_markers. by rewrite Hc3d, Hcsv.
Qed.

(** [load_csv] raises whatever the file: it cannot get past its second
    statement in Python 3 nor past its fourth in Python 2. *)
Lemma load_csv_raises (py : pyversion) (host : Host) (filename : string)
    (max_frames : option nat) (w : World) :
  ∃ e, load_csv py host filename max_frames w = (Raise e, w).
Proof.
  unfold load_csv. destruct (files host !! filename) as [f|]; [|by eexists].
  destruct py; [|by eexists]. destruct f as [r|[|l ls]]; by eexists.
Qed.

(** C9, as the code has it.  When the frame rate of a C3D file does not
    match the time step of the world, [load_markers] fails, with the
    [AssertionError] of [load_c3d], and leaves the world as it was but for
    its markers, which are the fresh object of line 341: the bodies, the
    skeleton, the contact group and the logger are untouched.  When the file
    name ends neither in [.c3d] nor in [.csv], [load_markers] does not
    fail at the format test: it sends one record to the logger, at the level
    FATAL, and goes on to load the attachments into the fresh markers; its
    outcome is the outcome of [load_attachments]. *)
Theorem load_markers_failures (py : pyversion) (host : Host)
    (filename attachments : string) (max_frames : option nat) (w : World) :
  (∀ reader,
     endswith (lower filename) ".c3d" = true →
     files host !! filename = Some (C3DFile reader) →
     (dt w =? 1 / frame_rate reader) = false →
     ∃ w',
       load_markers py host filename attachments max_frames w
       = (Raise AssertionError, w')
       ∧ markers w' = Markers_init
       ∧ _bodies w' = _bodies w ∧ skeleton w' = skeleton w
       ∧ ode_contactgroup w' = ode_contactgroup w ∧ log w' = log w)
  ∧ (endswith (lower filename) ".c3d" = false →
     endswith (lower filename) ".csv" = false →
     load_markers py host filename attachments max_frames w
     = load_attachments host attachments
         (logging FATAL "%s: not sure how to load markers!"
                  (with_markers Markers_init w))).
Proof.
  split.
  - intros reader Hext Hfile Hrate. exists (with_markers Markers_init w).
    by rewrite (load_markers_frame_rate_mismatch _ _ _ _ _ reader).
  - apply load_markers_other_format.
Qed.

(** On the demonstration host, in a world that steps by half a second: the
    C3D file recorded at 60 frames a second is refused, and loading
    [walk.txt] is what loading the attachments after the FATAL record
    is. *)
Lemma load_markers_failures_witness :
  (load_markers Py3 demo_host "walk.c3d" "attach.txt" None
                (demo_world demo_data)).1 = Raise AssertionError
  ∧ load_markers Py3 demo_host "walk.txt" "attach.txt" None
                 (demo_world demo_data)
    = load_attachments demo_host "attach.txt"
        (logging FATAL "%s: not sure how to load markers!"
                 (with_markers Markers_init (demo_world demo_data))).
Proof.
  destruct (load_markers_failures Py3 demo_host "walk.c3d" "attach.txt" None
              (demo_world demo_data)) as [Hrate _].
  destruct (Hrate (mkC3DReader 60 ["m0  "] demo_data "m"))
    as (w' & -> & _); [reflexivity..|].
  split; [done|].
  by apply (load_markers_failures Py3 demo_host "walk.txt" "attach.txt" None
              (demo_world demo_data)).
Defined.

(** C9 as stated fails for a file name that is neither [.c3d] nor [.csv]:
    loading [walk.txt] on the demonstration host returns normally; the
    logger has the FATAL record, then the record of the attachment line that
    finds no channel, and the roots of the skeleton are installed in the
    markers, which have no data. *)
Lemma load_markers_unrecognized_returns :
  (load_markers Py3 demo_host "walk.txt" "attach.txt" None
                (demo_world demo_data)).1 = Ok tt
  ∧ log (load_markers Py3 demo_host "walk.txt" "attach.txt" None
                      (demo_world demo_data)).2
    = [(FATAL, "%s: not sure how to load markers!");
       (INFO, "%s:%d: unknown marker %s")]
  ∧ roots (markers (load_markers Py3 demo_host "walk.txt" "attach.txt" None
                                 (demo_world demo_data)).2)
    = Some ["torso"]
  ∧ data (markers (load_markers Py3 demo_host "walk.txt" "attach.txt" None
                                (demo_world demo_data)).2)
    = None.
Proof. vm_compute. done. Qed.

(** The C3D file recorded at 2 frames a second is loaded and attached. *)
Example load_markers_demo :
  (load_markers Py3 demo_host "slow.c3d" "attach.txt" None
                (demo_world demo_data)).1 = Ok tt
  ∧ attach_bodies
      (markers (load_markers Py3 demo_host "slow.c3d" "attach.txt" None
                             (demo_world demo_data)).2) !! "m0"
    = Some "torso".
Proof. vm_compute. done. Qed.

(** ** The checkpoint of _step_to_marker_frame *)

(** Lines 463 and 464 of cooper.py capture the body states of the skeleton
    and write them back at once: when the bodies of the skeleton are
    registered in the world, this leaves the world as it was. *)
Lemma skeleton_checkpoint_identity (w : World) :
  Forall (λ k, is_Some (_bodies w !! k)) (sk_bodies (skeleton w)) →
  Skel.set_body_states (Skel.get_body_states w) w = (Ok tt, w).
Proof.
  intros Hreg. unfold Skel.set_body_states, Skel.get_body_states, on_bodies.
  rewrite set_body_states_read_back; [by destruct w|].
  by rewrite merge_sort_Permutation.
Qed.

Example skeleton_checkpoint_demo :
  Skel.set_body_states (Skel.get_body_states (demo_world demo_data))
                       (demo_world demo_data)
  = (Ok tt, demo_world demo_data).
Proof.
  apply skeleton_checkpoint_identity. repeat constructor. by eexists.
Qed.

(** * Further properties of the code *)

(** ** lmj/sim/physics.py: the frame state of a world *)

Lemma get_body_states_names (bodies : gmap string Body) :
  bs_name <$> Physics.get_body_states bodies = Physics.sorted_names bodies.
Proof.
  unfold Physics.get_body_states. rewrite <- list_fmap_compose.
  by rewrite <- (list_fmap_id (Physics.sorted_names bodies)) at 2.
Qed.

(** [get_body_states] lists the bodies of the world in the ascending order
    of their names, each body once and no other name; every entry is the
    state of the body it names. *)
Theorem get_body_states_sorted_by_name (bodies : gmap string Body) :
  Sorted String.le (bs_name <$> Physics.get_body_states bodies)
  ∧ NoDup (bs_name <$> Physics.get_body_states bodies)
  ∧ (∀ name, name ∈ bs_name <$> Physics.get_body_states bodies
             ↔ is_Some (bodies !! name))
  ∧ length (Physics.get_body_states bodies) = size bodies
  ∧ (∀ s, s ∈ Physics.get_body_states bodies →
          ∃ b, bodies !! bs_name s = Some b ∧ s = state_of (bs_name s) b).
Proof.
  rewrite get_body_states_names. split_and!.
  - apply (Sorted_merge_sort String.le).
  - rewrite sorted_names_perm. apply NoDup_elements.
  - apply sorted_names_elem.
  - unfold Physics.get_body_states. rewrite length_fmap, sorted_names_perm.
    by rewrite <- size_dom.
  - intros s (k & -> & Hk)%list_elem_of_fmap. simpl.
    apply sorted_names_elem in Hk as [b Hb]. exists b.
    by rewrite (lookup_total_correct _ _ _ Hb).
Qed.

(** A restoration never fails on a name that is registered. *)
Lemma set_body_states_known (states : FrameState) (bodies : gmap string Body) :
  Forall (λ s, is_Some (bodies !! bs_name s)) states →
  (Physics.set_body_states states bodies).1 = Ok tt.
Proof.
  revert bodies. induction states as [|s states IH]; intros bodies Hall;
    simpl; [done|].
  apply Forall_cons in Hall as [[b Hb] Hall]. rewrite Hb. apply IH.
  eapply Forall_impl; [exact Hall|]. intros s' [b' Hb']. simpl.
  destruct (decide (bs_name s = bs_name s')) as [<-|Hne].
  - rewrite lookup_insert_eq. by eexists.
  - rewrite lookup_insert_ne by done. by eexists.
Qed.

(** A restoration keeps the names of the dictionary, and for every body its
    shape, its force, its torque and its kinematic flag. *)
Lemma set_body_states_keeps (states : FrameState)
    (bodies : gmap string Body) (name : string) :
  (Physics.set_body_states states bodies).2 !! name = None
    ∧ bodies !! name = None
  ∨ ∃ b b', bodies !! name = Some b
      ∧ (Physics.set_body_states states bodies).2 !! name = Some b'
      ∧ shape b' = shape b ∧ force b' = force b ∧ torque b' = torque b
      ∧ is_kinematic b' = is_kinematic b.
Proof.
  revert bodies. induction states as [|s states IH]; intros bodies; simpl.
  { destruct (bodies !! name) as [b|] eqn:E; [right|left]; [|done].
    by exists b, b. }
  destruct (bodies !! bs_name s) as [b0|] eqn:E0; simpl.
  2: { destruct (bodies !! name) as [b|] eqn:E; [right|left]; [|done].
       by exists b, b. }
  destruct (IH (<[bs_name s := restore s b0]> bodies))
    as [[Hn' Hn]|(b & b' & Hb & Hb' & Hs & Hf & Ht & Hk)].
  - left. split; [done|].
    destruct (decide (bs_name s = name)) as [<-|Hne].
    + by rewrite lookup_insert_eq in Hn.
    + by rewrite lookup_insert_ne in Hn.
  - right. destruct (decide (bs_name s = name)) as [<-|Hne].
    + rewrite lookup_insert_eq in Hb. simplify_eq.
      exists b0, b'. by rewrite E0, Hb', Hs, Hf, Ht, Hk.
    + rewrite lookup_insert_ne in Hb by done. by exists b, b'.
Qed.

Lemma set_body_states_dom (states : FrameState) (bodies : gmap string Body) :
  dom (Physics.set_body_states states bodies).2 = dom bodies.
Proof.
  apply set_eq. intros name. rewrite !elem_of_dom.
  destruct (set_body_states_keeps states bodies name)
    as [[-> ->]|(b & b' & -> & -> & _)]; [done|].
  split; by eexists.
Qed.

(** [set_body_states] writes positions, quaternions and velocities only, and
    only of the bodies it names: whether it returns or raises, the world has
    the same bodies under the same names, each with the shape, the force, the
    torque and the kinematic flag it had, and a body that the frame state does
    not name is untouched. *)
Theorem set_body_states_writes_kinematics_only (states : FrameState)
    (bodies : gmap string Body) :
  dom (Physics.set_body_states states bodies).2 = dom bodies
  ∧ (∀ name b, bodies !! name = Some b →
       ∃ b', (Physics.set_body_states states bodies).2 !! name = Some b'
             ∧ shape b' = shape b ∧ force b' = force b
             ∧ torque b' = torque b ∧ is_kinematic b' = is_kinematic b)
  ∧ (∀ name, name ∉ bs_name <$> states →
       (Physics.set_body_states states bodies).2 !! name = bodies !! name).
Proof.
  split_and!.
  - apply set_body_states_dom.
  - intros name b Hb.
    destruct (set_body_states_keeps states bodies name)
      as [[_ Hn]|(b0 & b' & Hb0 & Hb' & ?)]; simplify_eq.
    by exists b'.
  - intros name Hname.
    destruct (Physics.set_body_states states bodies) as [r bodies'] eqn:E.
    by eapply set_body_states_other.
Qed.

(** Every entry of a frame state that names each body once is read back
    after a restoration that succeeds. *)
Lemma set_body_states_entry (states : FrameState)
    (bodies bodies' : gmap string Body) :
  NoDup (bs_name <$> states) →
  Physics.set_body_states states bodies = (Ok tt, bodies') →
  ∀ s, s ∈ states → state_of (bs_name s) (bodies' !!! bs_name s) = s.
Proof.
  revert bodies. induction states as [|s0 states IH];
    intros bodies Hnd Hset s Hs; simpl in Hset.
  { by apply elem_of_nil in Hs. }
  rewrite fmap_cons in Hnd. apply NoDup_cons in Hnd as [Hs0 Hnd].
  destruct (bodies !! bs_name s0) as [b0|] eqn:E0; [|done].
  apply elem_of_cons in Hs as [->|Hs]; [|by eapply IH].
  assert (bodies' !! bs_name s0 = Some (restore s0 b0)) as Hk0.
  { erewrite set_body_states_other; [|exact Hs0|exact Hset].
    by rewrite lookup_insert_eq. }
  rewrite (lookup_total_correct _ _ _ Hk0). apply state_of_restore.
Qed.

(** Round trip, the other way round from C6: a frame state that names the
    bodies of the world, each once and in the ascending order of the names,
    is restored without error, and [get_body_states] then returns that very
    frame state. *)
Theorem set_get_body_states_round_trip (states : FrameState)
    (bodies : gmap string Body) :
  bs_name <$> states = Physics.sorted_names bodies →
  (Physics.set_body_states states bodies).1 = Ok tt
  ∧ Physics.get_body_states (Physics.set_body_states states bodies).2
    = states.
Proof.
  intros Hnames.
  assert ((Physics.set_body_states states bodies).1 = Ok tt) as Hok.
  { apply set_body_states_known, Forall_forall. intros s Hs.
    apply sorted_names_elem. rewrite <- Hnames.
    apply list_elem_of_fmap. by exists s. }
  split; [done|].
  destruct (Physics.set_body_states states bodies) as [r bodies'] eqn:Hset.
  simpl in *. subst r.
  assert (dom bodies' = dom bodies) as Hdom.
  { pose proof (set_body_states_dom states bodies) as Hd.
    by rewrite Hset in Hd. }
  unfold Physics.get_body_states, Physics.sorted_names.
  rewrite Hdom. fold (Physics.sorted_names bodies). rewrite <- Hnames.
  rewrite <- list_fmap_compose.
  rewrite <- (list_fmap_id states) at 2.
  apply list_fmap_ext. intros i s Hs. simpl.
  eapply set_body_states_entry; [| exact Hset |by eapply list_elem_of_lookup_2].
  rewrite Hnames, sorted_names_perm. apply NoDup_elements.
Qed.

(** On the two bodies of the demonstration world: a frame state that names
    [marker:m0], then [torso], is restored and read back. *)
Lemma set_get_body_states_round_trip_witness :
  Physics.get_body_states
    (Physics.set_body_states
       [mkBodyState "marker:m0" [1; 2; 3] [1; 0; 0; 0] [0; 0; 1] [0; 0; 0];
        mkBodyState "torso" [0; 0; 2] [0; 1; 0; 0] [0; 0; 0] [0; 1; 0]]
       (_bodies (demo_world demo_data))).2
  = [mkBodyState "marker:m0" [1; 2; 3] [1; 0; 0; 0] [0; 0; 1] [0; 0; 0];
     mkBodyState "torso" [0; 0; 2] [0; 1; 0; 0] [0; 0; 0] [0; 1; 0]].
Proof.
  apply (set_get_body_states_round_trip
           [mkBodyState "marker:m0" [1; 2; 3] [1; 0; 0; 0] [0; 0; 1] [0; 0; 0];
            mkBodyState "torso" [0; 0; 2] [0; 1; 0; 0] [0; 0; 0] [0; 1; 0]]
           (_bodies (demo_world demo_data))).
  vm_compute. reflexivity.
Defined.

Lemma set_body_states_app (pre post : FrameState) (bodies : gmap string Body) :
  Physics.set_body_states (pre ++ post) bodies
  = match Physics.set_body_states pre bodies with
    | (Ok _, bodies') => Physics.set_body_states post bodies'
    | (Raise e, bodies') => (Raise e, bodies')
    end.
Proof.
  revert bodies. induction pre as [|s pre IH]; intros bodies; simpl; [done|].
  by destruct (bodies !! bs_name s).
Qed.

(** [set_body_states] returns if and only if every name of the frame state
    is the name of a body.  At the first name that is not, it raises
    [KeyError] with that name; the entries before it have been written, as
    [set_body_states] writes them on their own, and no entry after it has:
    nothing is rolled back. *)
Theorem set_body_states_unknown_name (states : FrameState)
    (bodies : gmap string Body) :
  ((Physics.set_body_states states bodies).1 = Ok tt
   ↔ Forall (λ s, is_Some (bodies !! bs_name s)) states)
  ∧ (∀ pre s post,
       states = pre ++ s :: post →
       Forall (λ p, is_Some (bodies !! bs_name p)) pre →
       bodies !! bs_name s = None →
       (Physics.set_body_states pre bodies).1 = Ok tt
       ∧ Physics.set_body_states states bodies
         = (Raise (KeyError (bs_name s)),
            (Physics.set_body_states pre bodies).2)).
Proof.
  assert (∀ pre s post,
            Forall (λ p, is_Some (bodies !! bs_name p)) pre →
            bodies !! bs_name s = None →
            (Physics.set_body_states pre bodies).1 = Ok tt
            ∧ Physics.set_body_states (pre ++ s :: post) bodies
              = (Raise (KeyError (bs_name s)),
                 (Physics.set_body_states pre bodies).2)) as Hfail.
  { intros pre s post Hpre Hs.
    pose proof (set_body_states_known pre bodies Hpre) as Hok.
    split; [done|]. rewrite set_body_states_app.
    pose proof (set_body_states_dom pre bodies) as Hdom.
    destruct (Physics.set_body_states pre bodies) as [r bodies'].
    simpl in *. subst r. simpl.
    assert (bodies' !! bs_name s = None) as ->; [|done].
    apply not_elem_of_dom. rewrite Hdom. by apply not_elem_of_dom. }
  split; [split|].
  - intros Hok. apply Forall_forall. intros s Hs.
    destruct (bodies !! bs_name s) eqn:E; [done|]. exfalso.
    revert Hok.
    assert (∃ pre s' post,
              states = pre ++ s' :: post
              ∧ Forall (λ p, is_Some (bodies !! bs_name p)) pre
              ∧ bodies !! bs_name s' = None) as (pre & s' & post & -> & Hp & Hn).
    { clear Hfail. induction states as [|s0 states IH].
      { by apply elem_of_nil in Hs. }
      destruct (bodies !! bs_name s0) as [b0|] eqn:E0.
      - destruct IH as (pre & s' & post & -> & Hp & Hn).
        { apply elem_of_cons in Hs as [->|Hs]; [congruence|done]. }
        exists (s0 :: pre), s', post. split_and!; try done.
        apply Forall_cons. split; [by rewrite E0|done].
      - by exists [], s0, states. }
    destruct (Hfail pre s' post Hp Hn) as [_ ->]. done.
  - apply set_body_states_known.
  - intros pre s post -> Hpre Hs. by apply Hfail.
Qed.

(** ** pagoda/cooper.py: the channels of the markers *)

Lemma dict_set_keys (k : string) (v : nat) (d : list (string * nat)) :
  (dict_set k v d).*1 = if bool_decide (k ∈ d.*1) then d.*1 else d.*1 ++ [k].
Proof.
  unfold dict_set. case_bool_decide.
  - rewrite <- list_fmap_compose. apply list_fmap_ext. intros i [k' v'] _.
    simpl. destruct (String.eqb k' k) eqn:E; [|done].
    by apply String.eqb_eq in E.
  - by rewrite fmap_app.
Qed.

Lemma dict_set_elem (k : string) (v : nat) (d : list (string * nat))
    (k' : string) (v' : nat) :
  (k', v') ∈ dict_set k v d
  ↔ (k' = k ∧ v' = v) ∨ (k' ≠ k ∧ (k', v') ∈ d).
Proof.
  unfold dict_set. case_bool_decide as Hk.
  - rewrite list_elem_of_fmap. split.
    + intros ([k0 v0] & Heq & Hin). simpl in Heq.
      destruct (String.eqb k0 k) eqn:E.
      * left. by simplify_eq.
      * right. simplify_eq. split; [|done].
        intros ->. by rewrite String.eqb_refl in E.
    + intros [[-> ->]|[Hne Hin]].
      * apply list_elem_of_fmap in Hk as ([k0 v0] & -> & Hin).
        exists (k0, v0). simpl. by rewrite String.eqb_refl.
      * exists (k', v'). simpl. split; [|done].
        destruct (String.eqb k' k) eqn:E; [|done].
        by apply String.eqb_eq in E.
  - rewrite elem_of_app, list_elem_of_singleton. split.
    + intros [Hin|[= -> ->]]; [|by left].
      right. split; [|done]. intros ->. apply Hk.
      apply list_elem_of_fmap. by exists (k, v').
    + intros [[-> ->]|[_ Hin]]; [by right|by left].
Qed.

(** One more label at the end of the list is one more assignment to the
    dictionary. *)
Lemma interpret_channels_snoc (labels : list string) (label : string) :
  _interpret_channels (labels ++ [label])
  = dict_set label (length labels) (_interpret_channels labels).
Proof.
  unfold _interpret_channels.
  rewrite length_app. simpl. rewrite seq_app. simpl.
  rewrite zip_with_app by by rewrite length_seq.
  by rewrite foldl_app.
Qed.

(** [_interpret_channels] on a list of labels: the keys of the dictionary
    are the labels, each once; the index of a label is the place of its
    last occurrence in the list, so that a label that occurs twice hides the
    marker of its first occurrence; when no label occurs twice, the channels
    are the labels with their places. *)
Theorem interpret_channels_last_wins (labels : list string) :
  NoDup (_interpret_channels labels).*1
  ∧ (∀ label, label ∈ (_interpret_channels labels).*1 ↔ label ∈ labels)
  ∧ (∀ label j,
       (label, j) ∈ _interpret_channels labels
       ↔ labels !! j = Some label
         ∧ ∀ j', (j < j')%nat → labels !! j' ≠ Some label)
  ∧ (NoDup labels →
     _interpret_channels labels = zip labels (seq 0 (length labels))).
Proof.
  induction labels as [|x labels (IHnd & IHkeys & IHelem & IHzip)]
    using rev_ind.
  { split_and!; try done.
    - constructor.
    - intros label j. split; [by intros ?%elem_of_nil|by intros [? _]]. }
  rewrite interpret_channels_snoc.
  assert (∀ label, label ∈ (dict_set x (length labels)
                              (_interpret_channels labels)).*1
                   ↔ label ∈ labels ++ [x]) as Hkeys.
  { intros label. rewrite dict_set_keys, elem_of_app, list_elem_of_singleton.
    case_bool_decide as Hx.
    - rewrite IHkeys. split; [by left|]. intros [?| ->]; [done|].
      by apply IHkeys.
    - by rewrite elem_of_app, list_elem_of_singleton, IHkeys. }
  split_and!; [|exact Hkeys| |].
  - rewrite dict_set_keys. case_bool_decide as Hx; [done|].
    apply NoDup_app. split_and!; [done| |apply NoDup_singleton].
    by intros k Hk ->%list_elem_of_singleton.
  - intros label j. rewrite dict_set_elem, IHelem. split.
    + intros [[-> ->]|(Hne & Hj & Hlast)].
      * split; [by apply list_lookup_middle|].
        intros j' Hlt Hj'. apply lookup_lt_Some in Hj'.
        rewrite length_app in Hj'. simpl in Hj'. lia.
      * split; [by apply lookup_app_l_Some|].
        intros j' Hlt Hj'. apply lookup_app_Some in Hj' as [Hj'|[_ Hj']].
        -- by eapply Hlast.
        -- apply list_lookup_singleton_Some in Hj' as [_ ?]. congruence.
    + intros [Hj Hlast].
      apply lookup_app_Some in Hj as [Hj|[Hge Hj]].
      * right. assert (label ≠ x) as Hne.
        { intros ->. apply (Hlast (length labels)).
          - by eapply lookup_lt_Some.
          - by apply list_lookup_middle. }
        split_and!; try done.
        intros j' Hlt Hj'. apply (Hlast j' Hlt). by apply lookup_app_l_Some.
      * apply list_lookup_singleton_Some in Hj as [Hj ->]. left.
        split; [done|lia].
  - intros [Hnd [Hx _]]%NoDup_app.
    rewrite (IHzip Hnd). unfold dict_set.
    rewrite bool_decide_eq_false_2.
    + rewrite length_app. simpl. rewrite seq_app. simpl.
      by rewrite zip_with_app by by rewrite length_seq.
    + rewrite <- (IHzip Hnd). intros Hin%IHkeys.
      apply (Hx x Hin). apply list_elem_of_here.
Qed.

(** ** pagoda/cooper.py: the lines of an attachment file *)

Lemma list_ascii_of_string_app (s t : string) :
  list_ascii_of_string (s +:+ t)
  = list_ascii_of_string s ++ list_ascii_of_string t.
Proof. induction s as [|c s IH]; simpl; [done|]. by rewrite IH. Qed.

Lemma before_pound_comment (l t : list ascii) :
  "#"%char ∉ l → before_pound (l ++ "#"%char :: t) = before_pound l.
Proof.
  induction l as [|c l IH]; intros Hl; simpl; [done|].
  apply not_elem_of_cons in Hl as [Hc Hl].
  destruct (Ascii.eqb c "#") eqn:E; [done|]. by rewrite IH.
Qed.

Lemma before_pound_no_pound (l : list ascii) :
  Forall (λ c, c ≠ "#"%char) (before_pound l).
Proof.
  induction l as [|c l IH]; simpl; [constructor|].
  destruct (Ascii.eqb c "#") eqn:E; [constructor|].
  constructor; [|done]. intros ->. by rewrite Ascii.eqb_refl in E.
Qed.

Lemma lstrip_chars_Forall (P : ascii → Prop) (l : list ascii) :
  Forall P l → Forall P (lstrip_chars l).
Proof.
  induction 1 as [|c l Hc Hl IH]; simpl; [constructor|].
  destruct (is_space c); [done|by constructor].
Qed.

(** The tokens that [split] reads from characters that satisfy [P], after
    a run [cur] of characters that satisfy [P] and are no white space. *)
Lemma split_chars_tokens (P : ascii → Prop) (l cur : list ascii) :
  Forall P l → Forall (λ c, is_space c = false ∧ P c) cur →
  ∀ token, token ∈ split_chars l cur →
    token ≠ EmptyString
    ∧ Forall (λ c, is_space c = false ∧ P c) (list_ascii_of_string token).
Proof.
  revert cur. induction l as [|c l IH]; intros cur Hl Hcur token.
  - simpl. destruct cur as [|c0 cur]; [by intros ?%elem_of_nil|].
    intros ->%list_elem_of_singleton.
    rewrite list_ascii_of_string_of_list_ascii. split.
    + intros Hempty.
      apply (f_equal list_ascii_of_string) in Hempty.
      rewrite list_ascii_of_string_of_list_ascii in Hempty. simpl in Hempty.
      by destruct (rev cur).
    + by apply Forall_rev.
  - apply Forall_cons in Hl as [Hc Hl]. simpl.
    destruct (is_space c) eqn:Esp.
    + intros [Hin|Hin]%elem_of_app.
      * destruct cur as [|c0 cur]; [by apply elem_of_nil in Hin|].
        apply list_elem_of_singleton in Hin as ->.
        rewrite list_ascii_of_string_of_list_ascii. split.
        -- intros Hempty.
           apply (f_equal list_ascii_of_string) in Hempty.
           rewrite list_ascii_of_string_of_list_ascii in Hempty.
           simpl in Hempty. by destruct (rev cur).
        -- by apply Forall_rev.
      * by apply (IH [] Hl).
    + apply (IH (c :: cur) Hl). by constructor.
Qed.

(** What is read from a line of an attachment file: the text from the first
    pound sign on is ignored, whatever it is, and every token is a word that
    is not empty and holds neither white space nor a pound sign. *)
Theorem tokens_of_line_ignores_comment (line : string) :
  (∀ comment, "#"%char ∉ list_ascii_of_string line →
     tokens_of_line (line +:+ String "#" comment) = tokens_of_line line)
  ∧ (∀ token, token ∈ tokens_of_line line →
       token ≠ EmptyString
       ∧ Forall (λ c, is_space c = false ∧ c ≠ "#"%char)
                (list_ascii_of_string token)).
Proof.
  split.
  - intros comment Hline. unfold tokens_of_line.
    rewrite list_ascii_of_string_app. simpl.
    by rewrite before_pound_comment.
  - intros token. unfold tokens_of_line, split, strip.
    rewrite !list_ascii_of_string_of_list_ascii.
    apply split_chars_tokens; [|constructor].
    apply Forall_rev, lstrip_chars_Forall, Forall_rev, lstrip_chars_Forall.
    apply before_pound_no_pound.
Qed.

(** ** pagoda/cooper.py: attaching twice *)

(** The outcome of [attach] depends on the configuration of the markers,
    not on the joints they hold. *)
Lemma attach_channel_same_config frame_no label j (m1 m2 : Markers) :
  same_config m1 m2 →
  (attach_channel frame_no label j m2).1
  = (attach_channel frame_no label j m1).1.
Proof.
  unfold same_config. destruct m1, m2; simpl.
  intros [= -> -> -> -> -> -> -> -> ->].
  unfold attach_channel, data_at; simpl.
  repeat (case_match; simpl; try done).
Qed.

Lemma same_config_trans (m1 m2 m3 : Markers) :
  same_config m1 m2 → same_config m2 m3 → same_config m1 m3.
Proof. unfold same_config. congruence. Qed.

Lemma same_config_sym (m1 m2 : Markers) :
  same_config m1 m2 → same_config m2 m1.
Proof. unfold same_config. congruence. Qed.

Lemma attach_loop_same_config frame_no items (m1 m2 : Markers) :
  same_config m1 m2 →
  (attach_loop frame_no items m2).1 = (attach_loop frame_no items m1).1.
Proof.
  revert m1 m2. induction items as [|[label j] items IH]; intros m1 m2 Hc;
    simpl; [done|].
  pose proof (attach_channel_same_config frame_no label j m1 m2 Hc) as H1.
  pose proof (attach_channel_config frame_no label j m1) as Hc1.
  pose proof (attach_channel_config frame_no label j m2) as Hc2.
  destruct (attach_channel frame_no label j m1) as [[[]|e1] m1'],
           (attach_channel frame_no label j m2) as [[[]|e2] m2'];
    simpl in *; try done.
  apply IH.
  eapply same_config_trans; [|exact Hc2].
  eapply same_config_trans; [|exact Hc]. by apply same_config_sym.
Qed.

(** [attach] does not look at the joints that are there: called a second
    time for the same frame without a [detach] in between, it returns as the
    first call did and adds every attachment once more, to the joint group
    and to [self.joints]. *)
Theorem attach_without_detach_accumulates (frame_no : nat) (m m' : Markers) :
  attach frame_no m = (Ok tt, m') →
  ∃ m'',
    attach frame_no m' = (Ok tt, m'')
    ∧ joints m''
      = joints m ++ omap (spec_attachment frame_no m) (channels m)
                 ++ omap (spec_attachment frame_no m) (channels m)
    ∧ jointgroup m''
      = jointgroup m ++ omap (spec_attachment frame_no m) (channels m)
                     ++ omap (spec_attachment frame_no m) (channels m).
Proof.
  intros Hfirst.
  pose proof (attach_loop_config frame_no (channels m) m) as Hc.
  fold (attach frame_no m) in Hc. rewrite Hfirst in Hc. simpl in Hc.
  assert (channels m' = channels m) as Hch.
  { by apply (f_equal channels) in Hc. }
  pose proof (attach_loop_same_config frame_no (channels m) m m' Hc) as Hout.
  fold (attach frame_no m) in Hout. rewrite Hfirst in Hout. simpl in Hout.
  rewrite <- Hch in Hout. fold (attach frame_no m') in Hout.
  destruct (attach frame_no m') as [r m''] eqn:Hsecond. simpl in Hout.
  subst r. exists m''. split; [done|].
  destruct (attach_ok _ _ _ Hfirst) as [Hj Hg].
  destruct (attach_ok _ _ _ Hsecond) as [Hj' Hg'].
  rewrite Hj', Hg', Hj, Hg, Hch, <- !app_assoc.
  assert (omap (spec_attachment frame_no m') (channels m)
          = omap (spec_attachment frame_no m) (channels m)) as ->; [|done].
  apply list_omap_ext, Forall2_same_length_lookup_2; [done|].
  intros i item item' Hi Hi'. simplify_eq. by apply spec_attachment_config.
Qed.

(** On the demonstration markers, which hold no joint: after two calls of
    [attach(0)] there are two joints, the same one twice. *)
Lemma attach_without_detach_accumulates_witness :
  ∃ m'',
    attach 0 (attach 0 (demo_markers demo_data)).2 = (Ok tt, m'')
    ∧ joints m''
      = omap (spec_attachment 0 (demo_markers demo_data)) [("m0", 0%nat)]
        ++ omap (spec_attachment 0 (demo_markers demo_data)) [("m0", 0%nat)]
    ∧ length (joints m'') = 2%nat.
Proof.
  destruct (attach_without_detach_accumulates 0 (demo_markers demo_data)
              (attach 0 (demo_markers demo_data)).2)
    as (m'' & Hsecond & Hj & _).
  { vm_compute. reflexivity. }
  exists m''. split_and!; [done|exact Hj|]. by rewrite Hj.
Defined.

(** ** pagoda/cooper.py: what reposition leaves alone *)

Lemma same_but_placement_refl b : same_but_placement b b.
Proof. by repeat split. Qed.

Lemma place_keeps items mb frame delta (bodies : gmap string Body) name :
  option_Forall2 same_but_placement
    (bodies !! name) ((place items mb frame delta bodies).2 !! name).
Proof.
  revert bodies. induction items as [|[l0 j0] items IH]; intros bodies; simpl.
  { destruct (bodies !! name); constructor. apply same_but_placement_refl. }
  assert (∀ bodies1 : gmap string Body,
            option_Forall2 same_but_placement
              (bodies !! name) (bodies1 !! name) →
            ∀ bodies2 : gmap string Body, option_Forall2 same_but_placement
              (bodies1 !! name) (bodies2 !! name) →
            option_Forall2 same_but_placement
              (bodies !! name) (bodies2 !! name)) as Htrans.
  { intros bodies1 H1 bodies2 H2.
    destruct H1 as [b b1 (?&?&?&?&?&?)|]; inversion H2 as [? b2 (?&?&?&?&?&?)|];
      subst; constructor. repeat split; congruence. }
  assert (∀ (f : Body → Body) n0 (bodies0 : gmap string Body),
            (∀ b, same_but_placement b (f b)) →
            option_Forall2 same_but_placement
              (bodies0 !! name) (alter f n0 bodies0 !! name)) as Halter.
  { intros f n0 bodies0 Hf. destruct (decide (n0 = name)) as [->|Hne].
    - rewrite lookup_alter_eq. destruct (bodies0 !! name); constructor.
      apply Hf.
    - rewrite lookup_alter_ne by done.
      destruct (bodies0 !! name); constructor. apply same_but_placement_refl. }
  assert (∀ bodies0 : gmap string Body,
            option_Forall2 same_but_placement
              (bodies0 !! name) (bodies0 !! name)) as Hrefl.
  { intros bodies0. destruct (bodies0 !! name); constructor.
    apply same_but_placement_refl. }
  destruct (mb !! l0) as [n0|]; simpl; [|apply Hrefl].
  destruct (frame !! j0) as [p0|]; simpl; [|apply Hrefl].
  destruct (delta !! j0) as [v0|]; simpl.
  - eapply Htrans; [|apply IH].
    eapply Htrans; [|apply Halter; by intros []].
    apply Halter. by intros [].
  - apply Halter. by intros [].
Qed.

(** [reposition] assigns the position and the linear velocity of the proxy
    bodies of the channels and nothing else, whether it returns or raises:
    the markers, the skeleton, the time step, the contact group and the
    logger are as before, no body appears or disappears, every body keeps
    its shape, its orientation, its angular velocity, its force and its
    torque, and a body that is the proxy of no channel is untouched. *)
Theorem reposition_moves_proxies_only (frame_no : nat) (w : World) :
  markers (reposition frame_no w).2 = markers w
  ∧ skeleton (reposition frame_no w).2 = skeleton w
  ∧ dt (reposition frame_no w).2 = dt w
  ∧ ode_contactgroup (reposition frame_no w).2 = ode_contactgroup w
  ∧ ode_feedback (reposition frame_no w).2 = ode_feedback w
  ∧ log (reposition frame_no w).2 = log w
  ∧ dom (_bodies (reposition frame_no w).2) = dom (_bodies w)
  ∧ (∀ name b, _bodies w !! name = Some b →
       ∃ b', _bodies (reposition frame_no w).2 !! name = Some b'
             ∧ same_but_placement b b')
  ∧ (∀ name,
       (∀ label j, (label, j) ∈ channels (markers w) →
                   marker_bodies (markers w) !! label ≠ Some name) →
       _bodies (reposition frame_no w).2 !! name = _bodies w !! name).
Proof.
  assert (∀ name, option_Forall2 same_but_placement
                    (_bodies w !! name)
                    (_bodies (reposition frame_no w).2 !! name)) as Hkeep.
  { intros name. unfold reposition.
    assert (option_Forall2 same_but_placement
              (_bodies w !! name) (_bodies w !! name)) as Hrefl.
    { destruct (_bodies w !! name); constructor.
      apply same_but_placement_refl. }
    destruct (data (markers w)) as [d|]; [|done].
    destruct (d !! frame_no) as [fr|]; [|done].
    destruct (reposition_delta _ _ _ _) as [delta|]; [|done].
    unfold on_bodies.
    pose proof (place_keeps (channels (markers w))
                  (marker_bodies (markers w)) (map (take 3) fr) delta
                  (_bodies w) name) as Hp.
    by destruct (place _ _ _ _ _). }
  assert (∀ name,
            (∀ label j, (label, j) ∈ channels (markers w) →
                        marker_bodies (markers w) !! label ≠ Some name) →
            _bodies (reposition frame_no w).2 !! name = _bodies w !! name)
    as Hother.
  { intros name Hname. unfold reposition.
    destruct (data (markers w)) as [d|]; [|done].
    destruct (d !! frame_no) as [fr|]; [|done].
    destruct (reposition_delta _ _ _ _) as [delta|]; [|done].
    unfold on_bodies.
    destruct (place _ _ _ _ _) as [r bodies'] eqn:Hplace. simpl.
    by eapply place_other. }
  split_and!; try done;
    try (unfold reposition, on_bodies; by repeat (case_match; simpl)).
  - apply set_eq. intros name. rewrite !elem_of_dom.
    destruct (Hkeep name) as [b b' _|]; [|by rewrite !is_Some_alt].
    split; by eexists.
  - intros name b Hb. specialize (Hkeep name). rewrite Hb in Hkeep.
    inversion Hkeep as [? b' Hbb'|]; subst. by exists b'.
Qed.

(** ** pagoda/cooper.py: a frame number past the data *)

Section bounds.
Context `{Engine}.

(** Stepping to a frame number that is not below the number of frames
    fails in [reposition], on the index into [self.data]: the run of
    [_step_to_marker_frame] is [detach], then [IndexError]; nothing is
    yielded and the engine does not step; the markers have lost their
    joints and the world is otherwise as it was.  [settle_to_markers] on
    such a frame raises that [IndexError] in its first turn. *)
Theorem step_to_marker_frame_past_the_data (frame_no : nat) (w : World)
    (d : ndarray3) :
  data (markers w) = Some d →
  (length d ≤ frame_no)%nat →
  exec (_step_to_marker_frame frame_no) w
  = ([(EvDetach, with_markers (detach (markers w)) w);
      (EvRaise IndexError, with_markers (detach (markers w)) w)],
     (Raise IndexError, with_markers (detach (markers w)) w))
  ∧ ∀ py fuel max_rms_distance,
      settle_to_markers py (S fuel) frame_no max_rms_distance None w
      = (Some (Raise IndexError), with_markers (detach (markers w)) w).
Proof.
  intros Hd Hlen.
  assert (exec (_step_to_marker_frame frame_no) w
          = ([(EvDetach, with_markers (detach (markers w)) w);
              (EvRaise IndexError, with_markers (detach (markers w)) w)],
             (Raise IndexError, with_markers (detach (markers w)) w))) as Hrun.
  { unfold _step_to_marker_frame. simpl. unfold reposition. simpl.
    rewrite Hd. by rewrite (lookup_ge_None_2 d frame_no Hlen). }
  split; [done|]. intros py fuel max_rms_distance.
  unfold settle_to_markers, settle_in. simpl. unfold for_pass.
  by rewrite Hrun.
Qed.

End bounds.

(** The demonstration track has three frames: there is no frame 3. *)
Lemma step_to_marker_frame_past_the_data_witness :
  (@exec euler_engine _ _ (_step_to_marker_frame 3) (demo_world demo_data)).2.1
  = Raise IndexError
  ∧ (@settle_to_markers euler_engine Py3 1 3 0.1 None
       (demo_world demo_data)).1
    = Some (Raise IndexError).
Proof.
  destruct (@step_to_marker_frame_past_the_data euler_engine 3
              (demo_world demo_data) demo_data eq_refl) as [Hrun Hsettle].
  { simpl. lia. }
  by rewrite Hrun, (Hsettle Py3 0%nat 0.1).
Defined.

(** ** pagoda/cooper.py: marker data in a CSV file *)

(** [load_markers] cannot load a file whose name ends in [.csv] (and not in
    [.c3d]): whatever the file holds, [load_csv] raises before it has stored
    anything, so that the call fails and leaves the world with the fresh
    markers of line 341, without data, channels or attachments.  The
    exception is that of opening a file that is missing; else, in Python 3,
    [AttributeError] for [reader.next]; else, in Python 2, [StopIteration]
    for a file without a line and [NameError] for the name [labels]
    otherwise. *)
Theorem load_markers_csv_always_raises (py : pyversion) (host : Host)
    (filename attachments : string) (max_frames : option nat) (w : World) :
  endswith (lower filename) ".c3d" = false →
  endswith (lower filename) ".csv" = true →
  ∃ e,
    load_markers py host filename attachments max_frames w
    = (Raise e, with_markers Markers_init w)
    ∧ e = match files host !! filename, py with
          | None, _ => IOError filename
          | Some _, Py3 => AttributeError "next"
          | Some (TextFile []), Py2 => StopIteration
          | Some _, Py2 => NameError "labels"
          end.
Proof.
  intros Hc3d Hcsv. unfold load_markers. rewrite Hc3d, Hcsv.
  unfold load_csv, mbind, M_bind, modify, raise. simpl.
  destruct (files host !! filename) as [[r|[|l ls]]|], py;
    eexists; split; reflexivity.
Qed.

(** On the demonstration host there is no file [walk.csv]. *)
Lemma load_markers_csv_always_raises_witness :
  load_markers Py3 demo_host "walk.csv" "attach.txt" None
               (demo_world demo_data)
  = (Raise (IOError "walk.csv"),
     with_markers Markers_init (demo_world demo_data)).
Proof.
  destruct (load_markers_csv_always_raises Py3 demo_host "walk.csv"
              "attach.txt" None (demo_world demo_data))
    as (e & -> & ->); reflexivity.
Defined.

(** ** pagoda/cooper.py: loading the attachments *)

(** Unfold the binds of a method. *)
Ltac run_M :=
  unfold mbind, M_bind, mret, M_ret, gets, modify, lift_result, raise in *;
  simpl in *.

Lemma same_but_attachments_refl w : same_but_attachments w w.
Proof. by repeat split. Qed.

Lemma same_but_attachments_trans w1 w2 w3 :
  same_but_attachments w1 w2 → same_but_attachments w2 w3 →
  same_but_attachments w1 w3.
Proof.
  intros (?&?&?&?&?&?) (?&?&?&?&?&?). repeat split; congruence.
Qed.

Lemma filter_singleton_name (name : string) (l : list string) :
  length (filter (λ b : string, b = name) l) = 1%nat →
  filter (λ b : string, b = name) l = [name].
Proof.
  intros Hlen.
  destruct (filter (λ b : string, b = name) l) as [|x [|y r]] eqn:E;
    simpl in Hlen; try done.
  assert (x ∈ filter (λ b : string, b = name) l) as Hx.
  { rewrite E. apply list_elem_of_here. }
  apply list_elem_of_filter in Hx as [-> _]. done.
Qed.

(** One line of the attachment file writes the attachment tables and the
    logger only, and keeps the tables consistent when it raises nothing. *)
Lemma load_attachment_line_consistent host skel line (w w' : World) r :
  load_attachment_line host skel line w = (r, w') →
  same_but_attachments w w'
  ∧ (r = Ok tt → attachments_consistent skel w →
     attachments_consistent skel w').
Proof.
  unfold load_attachment_line.
  destruct (tokens_of_line line) as [|label tokens]; run_M.
  { intros [= <- <-]. split; [apply same_but_attachments_refl|done]. }
  destruct (bool_decide (label ∈ (channels (markers w)).*1)) eqn:Hknown;
    simpl.
  2: { intros [= <- <-]. split; [by repeat split|done]. }
  apply bool_decide_eq_true in Hknown.
  destruct tokens as [|name tokens].
  { intros [= <- <-]. split; [apply same_but_attachments_refl|done]. }
  destruct (length (filter (λ b : string, b = name) (sk_bodies skel)) =? 1)%nat
    eqn:Hone; simpl.
  2: { intros [= <- <-]. split; [by repeat split|done]. }
  apply Nat.eqb_eq, filter_singleton_name in Hone.
  destruct (floats_of host tokens) as [xs|e]; simpl.
  2: { intros [= <- <-]. split; [by repeat split|done]. }
  destruct (np_mul xs _) as [scaled|e]; simpl.
  2: { intros [= <- <-]. split; [by repeat split|done]. }
  intros [= <- <-]. split; [by repeat split|].
  intros _ [Hdom Htargets]. split; simpl.
  - by rewrite !dom_insert_L, Hdom.
  - intros label' name'. destruct (decide (label = label')) as [<-|Hne].
    + rewrite lookup_insert_eq. by intros [= <-].
    + rewrite lookup_insert_ne by done. apply Htargets.
Qed.

Lemma load_attachment_lines_consistent host skel lines (w w' : World) r :
  for_M lines (load_attachment_line host skel) w = (r, w') →
  same_but_attachments w w'
  ∧ (r = Ok tt → attachments_consistent skel w →
     attachments_consistent skel w').
Proof.
  revert w. induction lines as [|line lines IH]; intros w; simpl.
  { run_M. intros [= <- <-]. split; [apply same_but_attachments_refl|done]. }
  unfold mbind, M_bind.
  destruct (load_attachment_line host skel line w) as [[[]|e] w1] eqn:E1.
  - destruct (load_attachment_line_consistent _ _ _ _ _ _ E1) as [Hf1 Hc1].
    intros E2. destruct (IH _ E2) as [Hf2 Hc2]. split.
    + by eapply same_but_attachments_trans.
    + intros Hr Hc. by apply Hc2, Hc1.
  - destruct (load_attachment_line_consistent _ _ _ _ _ _ E1) as [Hf1 _].
    intros [= <- <-]. by split.
Qed.

(** When [load_attachments] returns, the attachment tables are those
    [attach] needs: the roots of the skeleton are installed; every label that
    has a target body has an offset, and conversely; every such label is the
    label of a channel, and its target is the name of exactly one body of
    the skeleton.  Nothing else has changed but the logger: the channels, the
    data, the proxy bodies, the joints, the bodies and the skeleton are as
    before. *)
Theorem load_attachments_consistent (host : Host) (source : string)
    (w w' : World) :
  load_attachments host source w = (Ok tt, w') →
  roots (markers w') = Some (sk_roots (skeleton w))
  ∧ dom (attach_offsets (markers w')) = dom (attach_bodies (markers w'))
  ∧ (∀ label name, attach_bodies (markers w') !! label = Some name →
       label ∈ (channels (markers w)).*1
       ∧ filter (λ b : string, b = name) (sk_bodies (skeleton w)) = [name])
  ∧ channels (markers w') = channels (markers w)
  ∧ data (markers w') = data (markers w)
  ∧ marker_bodies (markers w') = marker_bodies (markers w)
  ∧ joints (markers w') = joints (markers w)
  ∧ jointgroup (markers w') = jointgroup (markers w)
  ∧ _bodies w' = _bodies w ∧ skeleton w' = skeleton w.
Proof.
  unfold load_attachments. run_M.
  destruct (files host !! source) as [[reader|lines]|]; try done.
  intros Hlines.
  destruct (load_attachment_lines_consistent _ _ _ _ _ _ Hlines)
    as [(_ & Hb & _ & _ & Hsk & Hm) Hc].
  destruct Hc as [Hdom Htargets]; [done| |].
  { split; simpl; [done|]. intros label name. by rewrite lookup_empty. }
  simpl in *.
  split_and!; try done.
  - by apply (f_equal roots) in Hm.
  - intros label name Hl. destruct (Htargets label name Hl) as [Hch Hf].
    split; [|done].
    apply (f_equal channels) in Hm. simpl in Hm. by rewrite <- Hm.
  - by apply (f_equal channels) in Hm.
  - by apply (f_equal data) in Hm.
  - by apply (f_equal marker_bodies) in Hm.
  - by apply (f_equal joints) in Hm.
  - by apply (f_equal jointgroup) in Hm.
Qed.

(** On the demonstration host the attachment file attaches [m0] to
    [torso]. *)
Lemma load_attachments_consistent_witness :
  roots (markers (load_attachments demo_host "attach.txt"
                    (demo_world demo_data)).2) = Some ["torso"]
  ∧ dom (attach_offsets (markers (load_attachments demo_host "attach.txt"
                                    (demo_world demo_data)).2))
    = dom (attach_bodies (markers (load_attachments demo_host "attach.txt"
                                     (demo_world demo_data)).2)).
Proof.
  destruct (load_attachments_consistent demo_host "attach.txt"
              (demo_world demo_data)
              (load_attachments demo_host "attach.txt"
                 (demo_world demo_data)).2)
    as (Hroots & Hdom & _).
  { vm_compute. reflexivity. }
  by split.
Defined.

(** ** pagoda/cooper.py: the proxy bodies of the markers *)

(** The loop of [create_bodies], in closed form. *)
Lemma create_bodies_loop (ls : list string) (w : World) :
  foldl (λ w label,
           let name := ("marker:" +:+ label)%string in
           with_markers
             (with_marker_bodies
                (<[label := name]> (marker_bodies (markers w))) (markers w))
             (with_bodies (create_marker_body name (_bodies w)) w))
        w ls
  = with_markers
      (with_marker_bodies
         (foldl (λ mb label, <[label := ("marker:" +:+ label)%string]> mb)
                (marker_bodies (markers w)) ls)
         (markers w))
      (with_bodies
         (foldl (λ b label,
                   create_marker_body ("marker:" +:+ label)%string b)
                (_bodies w) ls)
         w).
Proof.
  revert w. induction ls as [|l ls IH]; intros w; simpl.
  { by destruct w as [? ? ? ? ? [] ?]. }
  by rewrite IH.
Qed.

Lemma foldl_insert_lookup {V} (g : string → V) (ls : list string)
    (m : gmap string V) (k : string) :
  foldl (λ m l, <[l := g l]> m) m ls !! k
  = if bool_decide (k ∈ ls) then Some (g k) else m !! k.
Proof.
  revert m. induction ls as [|l ls IH]; intros m; simpl; [done|].
  rewrite IH. destruct (decide (k ∈ ls)) as [Hin|Hnin].
  - rewrite !bool_decide_eq_true_2; [done| |done].
    by apply list_elem_of_further.
  - rewrite (bool_decide_eq_false_2 _ Hnin).
    destruct (decide (l = k)) as [->|Hne].
    + rewrite lookup_insert_eq.
      by rewrite bool_decide_eq_true_2 by apply list_elem_of_here.
    + rewrite lookup_insert_ne by done.
      rewrite bool_decide_eq_false_2; [done|].
      by intros [?|?]%elem_of_cons.
Qed.

Lemma foldl_create_lookup (ls : list string) (bodies : gmap string Body)
    (name : string) :
  foldl (λ b label, create_marker_body ("marker:" +:+ label)%string b)
        bodies ls !! name
  = if bool_decide (name ∈ (λ l, "marker:" +:+ l)%string <$> ls)
    then Some (mkBody (Sphere 0.02) [0; 0; 0] [1; 0; 0; 0] [0; 0; 0]
                      [0; 0; 0] [0; 0; 0] [0; 0; 0] true)
    else bodies !! name.
Proof.
  revert bodies. induction ls as [|l ls IH]; intros bodies; simpl; [done|].
  rewrite IH. unfold create_marker_body.
  destruct (decide (name ∈ (λ l, "marker:" +:+ l)%string <$> ls))
    as [Hin|Hnin].
  - rewrite !bool_decide_eq_true_2; [done| |done].
    by apply list_elem_of_further.
  - rewrite (bool_decide_eq_false_2 _ Hnin).
    destruct (decide (("marker:" +:+ l)%string = name)) as [<-|Hne].
    + rewrite lookup_insert_eq.
      by rewrite bool_decide_eq_true_2 by apply list_elem_of_here.
    + rewrite lookup_insert_ne by done.
      rewrite bool_decide_eq_false_2; [done|].
      intros [?|?]%elem_of_cons; [by apply Hne|by apply Hnin].
Qed.

(** [create_bodies] never fails.  It gives every channel a proxy body of
    its own, registered in the world under the name [marker:] followed by
    the label: a kinematic sphere of radius 0.02; a label that is no channel
    has no proxy any more; and a body of the world whose name is not that of
    a proxy is untouched, while a body that had the name of a proxy is
    replaced. *)
Theorem create_bodies_one_proxy_per_channel (w : World) :
  (create_bodies w).1 = Ok tt
  ∧ channels (markers (create_bodies w).2) = channels (markers w)
  ∧ (∀ label, label ∈ (channels (markers w)).*1 →
       marker_bodies (markers (create_bodies w).2) !! label
       = Some ("marker:" +:+ label)%string
       ∧ ∃ b, _bodies (create_bodies w).2 !! ("marker:" +:+ label)%string
              = Some b
              ∧ shape b = Sphere 0.02 ∧ is_kinematic b = true)
  ∧ (∀ label, label ∉ (channels (markers w)).*1 →
       marker_bodies (markers (create_bodies w).2) !! label = None)
  ∧ (∀ label label' name,
       marker_bodies (markers (create_bodies w).2) !! label = Some name →
       marker_bodies (markers (create_bodies w).2) !! label' = Some name →
       label = label')
  ∧ (∀ name,
       (∀ label, label ∈ (channels (markers w)).*1 →
                 name ≠ ("marker:" +:+ label)%string) →
       _bodies (create_bodies w).2 !! name = _bodies w !! name).
Proof.
  unfold create_bodies. run_M. rewrite create_bodies_loop. simpl.
  split_and!; try done.
  - intros label Hl. rewrite foldl_insert_lookup, foldl_create_lookup.
    rewrite !bool_decide_eq_true_2; [|by apply list_elem_of_fmap_2|done].
    split; [done|]. by eexists.
  - intros label Hl. rewrite foldl_insert_lookup.
    by rewrite bool_decide_eq_false_2.
  - intros label label' name. rewrite !foldl_insert_lookup.
    repeat case_bool_decide; try done.
    intros [= <-] [= Heq]. by simpl in Heq.
  - intros name Hname. rewrite foldl_create_lookup.
    rewrite bool_decide_eq_false_2; [done|].
    intros (label & -> & Hl)%list_elem_of_fmap. by eapply Hname.
Qed.

(** ** pagoda/cooper.py: loading a C3D file *)

Lemma scale_to_meters_at (d : ndarray3) (f c k : nat) :
  array_at (scale_to_meters d) f c k
  = (if (k <? 4)%nat then λ x, x / 1000 else id) <$> array_at d f c k.
Proof.
  unfold array_at, scale_to_meters.
  rewrite list_lookup_fmap. destruct (d !! f) as [fr|]; simpl; [|done].
  rewrite list_lookup_fmap. destruct (fr !! c) as [row|]; simpl; [|done].
  destruct (k <? 4)%nat eqn:Hk.
  - apply Nat.ltb_lt in Hk. unfold vdivs.
    destruct (decide (k < length row)%nat) as [Hlt|Hge].
    + rewrite lookup_app_l by (rewrite length_map, length_take; lia).
      rewrite list_lookup_fmap, lookup_take_lt by done. done.
    + rewrite (lookup_ge_None_2 row) by lia. simpl.
      apply lookup_ge_None_2.
      rewrite length_app, length_map, length_take, length_drop. lia.
  - apply Nat.ltb_ge in Hk. unfold vdivs.
    rewrite lookup_app_r by (rewrite length_map, length_take; lia).
    rewrite length_map, length_take, lookup_drop, option_fmap_id.
    destruct (decide (4 ≤ length row)%nat).
    + f_equal. lia.
    + rewrite !lookup_ge_None_2 by lia. done.
Qed.

(** What [load_c3d] leaves in the world when the frame rate of the file
    matches the time step. *)
Lemma load_c3d_ok (host : Host) (filename : string) (max_frames : option nat)
    (reader : C3DReader) (w : World) :
  files host !! filename = Some (C3DFile reader) →
  (dt w =? 1 / frame_rate reader) = true →
  ∃ w',
    load_c3d host filename max_frames w = (Ok tt, w')
    ∧ channels (markers w') = _interpret_channels (strip <$> point_labels reader)
    ∧ data (markers w')
      = Some (if String.eqb (lower (strip (point_units reader))) "mm"
              then scale_to_meters
                     (read_up_to max_frames (read_frames reader))
              else read_up_to max_frames (read_frames reader))
    ∧ marker_bodies (markers w')
      = foldl (λ mb label, <[label := ("marker:" +:+ label)%string]> mb) ∅
              (_interpret_channels (strip <$> point_labels reader)).*1
    ∧ _bodies w'
      = foldl (λ b label, create_marker_body ("marker:" +:+ label)%string b)
              (_bodies w)
              (_interpret_channels (strip <$> point_labels reader)).*1
    ∧ skeleton w' = skeleton w ∧ dt w' = dt w
    ∧ roots (markers w') = roots (markers w)
    ∧ attach_bodies (markers w') = attach_bodies (markers w)
    ∧ attach_offsets (markers w') = attach_offsets (markers w).
Proof.
  intros Hfile Hrate. unfold load_c3d. rewrite Hfile.
  unfold create_bodies. run_M. rewrite Hrate. simpl.
  destruct (String.eqb (lower (strip (point_units reader))) "mm"); simpl;
    rewrite create_bodies_loop; simpl; eexists; split_and!; done.
Qed.

(** [load_c3d] with [max_frames = n] keeps [n + 1] frames of a file that
    has more: the reading loop stops once it holds more than [n] frames.
    It keeps every frame of a shorter file, and of any file when [max_frames]
    is left at its default.  The channels are the stripped point labels of
    the file. *)
Theorem load_c3d_keeps_one_more_frame (host : Host) (filename : string)
    (max_frames : option nat) (reader : C3DReader) (w : World) :
  files host !! filename = Some (C3DFile reader) →
  (dt w =? 1 / frame_rate reader) = true →
  ∃ w' d,
    load_c3d host filename max_frames w = (Ok tt, w')
    ∧ data (markers w') = Some d
    ∧ channels (markers w')
      = _interpret_channels (strip <$> point_labels reader)
    ∧ length d
      = match max_frames with
        | Some n => Nat.min (S n) (length (read_frames reader))
        | None => length (read_frames reader)
        end.
Proof.
  intros Hfile Hrate.
  destruct (load_c3d_ok host filename max_frames reader w Hfile Hrate)
    as (w' & Hload & Hch & Hdata & _).
  eexists w', _. split_and!; [done..|].
  assert (length (read_up_to max_frames (read_frames reader))
          = match max_frames with
            | Some n => Nat.min (S n) (length (read_frames reader))
            | None => length (read_frames reader)
            end) as Hlen.
  { destruct max_frames as [n|]; simpl; [|done]. by rewrite length_take. }
  destruct (String.eqb _ _); [|done].
  unfold scale_to_meters. by rewrite length_map.
Qed.

(** The file [slow.c3d] of the demonstration host has three frames: with
    [max_frames = 1] two of them are kept. *)
Lemma load_c3d_keeps_one_more_frame_witness :
  ∃ w' d,
    load_c3d demo_host "slow.c3d" (Some 1%nat) (demo_world demo_data)
    = (Ok tt, w')
    ∧ data (markers w') = Some d ∧ length d = 2%nat.
Proof.
  destruct (load_c3d_keeps_one_more_frame demo_host "slow.c3d" (Some 1%nat)
              (mkC3DReader 2 ["m0  "] demo_data "m") (demo_world demo_data))
    as (w' & d & Hload & Hd & _ & Hlen); [reflexivity..|].
  by exists w', d.
Defined.

(** When the point unit of the file is [mm], in any letter case and with
    white space around it, the first four columns of every row, the three
    coordinates and the residual, are divided by 1000, and the fifth column
    and any further one are as the file has them: scaling changes no
    dropout flag.  With any other unit the data are those of the file. *)
Theorem load_c3d_scales_millimetres (host : Host) (filename : string)
    (max_frames : option nat) (reader : C3DReader) (w : World) :
  files host !! filename = Some (C3DFile reader) →
  (dt w =? 1 / frame_rate reader) = true →
  ∃ w' d,
    load_c3d host filename max_frames w = (Ok tt, w')
    ∧ data (markers w') = Some d
    ∧ ∀ f c k,
        (f < length d)%nat →
        array_at d f c k
        = (if (String.eqb (lower (strip (point_units reader))) "mm"
               && (k <? 4)%nat)%bool
           then λ x, x / 1000 else id)
            <$> array_at (read_frames reader) f c k.
Proof.
  intros Hfile Hrate.
  destruct (load_c3d_ok host filename max_frames reader w Hfile Hrate)
    as (w' & Hload & Hch & Hdata & _).
  eexists w', _. split_and!; [done..|].
  assert (∀ f c k,
            (f < length (read_up_to max_frames (read_frames reader)))%nat →
            array_at (read_up_to max_frames (read_frames reader)) f c k
            = array_at (read_frames reader) f c k) as Hraw.
  { intros f c k Hf. unfold array_at.
    destruct max_frames as [n|]; simpl in *; [|done].
    rewrite length_take in Hf. by rewrite lookup_take_lt by lia. }
  intros f c k Hf.
  destruct (String.eqb _ _); simpl.
  - unfold scale_to_meters in Hf. rewrite length_map in Hf.
    by rewrite scale_to_meters_at, Hraw.
  - by rewrite option_fmap_id, Hraw.
Qed.

(** A file in millimetres: the height 3000 of the marker becomes 3, the
    residual 500 becomes 0.5, and the camera count stays 1. *)
Lemma load_c3d_scales_millimetres_witness :
  ∃ w' d,
    load_c3d mm_host "mm.c3d" None (demo_world demo_data) = (Ok tt, w')
    ∧ data (markers w') = Some d
    ∧ array_at d 0 0 2 = Some 3
    ∧ array_at d 0 0 3 = Some 0.5
    ∧ array_at d 0 0 4 = Some 1.
Proof.
  destruct (load_c3d_scales_millimetres mm_host "mm.c3d" None mm_reader
              (demo_world demo_data))
    as (w' & d & Hload & Hd & Hat); [reflexivity..|].
  assert (length d = 1%nat) as Hlen.
  { apply (f_equal snd) in Hload. simpl in Hload. subst w'.
    vm_compute in Hd. by injection Hd as <-. }
  exists w', d. split_and!; [done..| | |];
    rewrite Hat by (rewrite Hlen; lia); reflexivity.
Defined.

(** ** pagoda/cooper.py: from loading to stepping *)

Lemma interpret_channels_elem_lookup (labels : list string) label j :
  (label, j) ∈ _interpret_channels labels → labels !! j = Some label.
Proof.
  revert label j. induction labels as [|x labels IH] using rev_ind;
    intros label j.
  { by intros ?%elem_of_nil. }
  rewrite interpret_channels_snoc, dict_set_elem.
  intros [[-> ->]|[_ Hin]].
  - by apply list_lookup_middle.
  - by apply lookup_app_l_Some, IH.
Qed.

(** The first loop of [reposition] returns when the rows it reads are
    there, with five columns. *)
Lemma velocities_ok dt (prev next : list vec) cs (delta : list vec) :
  (∀ c, c ∈ cs →
        (c < length delta)%nat
        ∧ (∃ p, prev !! c = Some p ∧ (5 ≤ length p)%nat)
        ∧ (∃ n, next !! c = Some n ∧ (5 ≤ length n)%nat)) →
  ∃ delta', velocities dt prev next cs delta = Ok delta'
            ∧ length delta' = length delta.
Proof.
  revert delta. induction cs as [|c cs IH]; intros delta Hcs; simpl.
  { by exists delta. }
  destruct (Hcs c) as (Hlt & (p & Hp & Hplen) & (n & Hn & Hnlen));
    [apply list_elem_of_here|].
  assert (∀ delta1, length delta1 = length delta →
            ∃ delta', velocities dt prev next cs delta1 = Ok delta'
                      ∧ length delta' = length delta) as Hrest.
  { intros delta1 Hlen. destruct (IH delta1) as (delta' & Hv & Hlen').
    - intros c' Hc'. rewrite Hlen. apply Hcs. by apply list_elem_of_further.
    - exists delta'. by rewrite Hv, Hlen', Hlen. }
  unfold cell. rewrite Hp, Hn.
  destruct (lookup_lt_is_Some_2 p 4) as [pv ->]; [lia|].
  destruct (lookup_lt_is_Some_2 n 4) as [nv ->]; [lia|].
  destruct (-1 <? pv); [|by apply Hrest].
  destruct (-1 <? nv); [|by apply Hrest].
  rewrite bool_decide_eq_true_2 by done.
  apply Hrest. by rewrite length_insert.
Qed.

(** The second loop of [reposition] returns when every channel has a
    proxy body and a row. *)
Lemma place_ok items (mb : gmap string string) (frame delta : list vec)
    (bodies : gmap string Body) :
  (∀ label j, (label, j) ∈ items →
      is_Some (mb !! label)
      ∧ (j < length frame)%nat ∧ (j < length delta)%nat) →
  (place items mb frame delta bodies).1 = Ok tt.
Proof.
  revert bodies. induction items as [|[label j] items IH]; intros bodies Hit;
    simpl; [done|].
  destruct (Hit label j) as ([name ->] & Hf & Hd); [apply list_elem_of_here|].
  destruct (lookup_lt_is_Some_2 frame j Hf) as [p ->].
  destruct (lookup_lt_is_Some_2 delta j Hd) as [v ->].
  apply IH. intros label' j' Hin. apply Hit. by apply list_elem_of_further.
Qed.

Lemma reposition_ok (frame_no n : nat) (d : ndarray3) (w : World) :
  data (markers w) = Some d →
  Forall (λ fr, length fr = n ∧ Forall (λ row : vec, (5 ≤ length row)%nat) fr)
         d →
  (∀ label j, (label, j) ∈ channels (markers w) →
      is_Some (marker_bodies (markers w) !! label) ∧ (j < n)%nat) →
  (frame_no < length d)%nat →
  (reposition frame_no w).1 = Ok tt.
Proof.
  intros Hd Hrows Hch Hf. unfold reposition. rewrite Hd.
  rewrite Forall_lookup in Hrows.
  destruct (lookup_lt_is_Some_2 d frame_no Hf) as [fr Hfr]. rewrite Hfr.
  destruct (Hrows _ _ Hfr) as [Hfrlen _].
  assert (∃ delta, reposition_delta (dt w) d frame_no (map (take 3) fr)
                   = Ok delta ∧ length delta = n) as (delta & -> & Hdelta).
  { unfold reposition_delta.
    destruct (interior d frame_no) eqn:Hint.
    2: { eexists. split; [done|]. by rewrite !length_map. }
    unfold interior in Hint.
    apply andb_true_iff in Hint as [Hlo%Nat.ltb_lt Hhi%Nat.ltb_lt].
    destruct (lookup_lt_is_Some_2 d (frame_no - 1)) as [prev Hprev]; [lia|].
    destruct (lookup_lt_is_Some_2 d (frame_no + 1)) as [next Hnext]; [lia|].
    rewrite Hprev, Hnext.
    destruct d as [|first d']; [done|].
    destruct (Hrows 0%nat first eq_refl) as [Hfirst _].
    destruct (Hrows _ _ Hprev) as [Hprevlen Hprevrows].
    destruct (Hrows _ _ Hnext) as [Hnextlen Hnextrows].
    rewrite Forall_lookup in Hprevrows. rewrite Forall_lookup in Hnextrows.
    destruct (velocities_ok (dt w) prev next (seq 0 (length first))
                (map zeros_like (map (take 3) fr))) as (delta & Hv & Hlen).
    - intros c [_ Hc]%elem_of_seq. simpl in Hc. rewrite Hfirst in Hc.
      rewrite !length_map. split_and!; [lia| |].
      + destruct (lookup_lt_is_Some_2 prev c) as [p Hp]; [lia|].
        exists p. split; [done|]. by eapply Hprevrows.
      + destruct (lookup_lt_is_Some_2 next c) as [x Hx]; [lia|].
        exists x. split; [done|]. by eapply Hnextrows.
    - exists delta. split; [done|]. by rewrite Hlen, !length_map. }
  unfold on_bodies.
  pose proof (place_ok (channels (markers w)) (marker_bodies (markers w))
                (map (take 3) fr) delta (_bodies w)) as Hplace.
  destruct (place _ _ _ _ _) as [r bodies']. simpl in *. apply Hplace.
  intros label j Hin. destruct (Hch label j Hin) as [Hmb Hj].
  rewrite length_map. split_and!; [done|lia|lia].
Qed.

Lemma attach_channel_succeeds frame_no label j (m : Markers) (d : ndarray3)
    (n : nat) :
  data m = Some d →
  Forall (λ fr, length fr = n ∧ Forall (λ row : vec, (5 ≤ length row)%nat) fr)
         d →
  (frame_no < length d)%nat → (j < n)%nat →
  is_Some (roots m) → is_Some (marker_bodies m !! label) →
  (is_Some (attach_bodies m !! label) → is_Some (attach_offsets m !! label)) →
  (attach_channel frame_no label j m).1 = Ok tt.
Proof.
  intros Hd Hrows Hf Hj [rs Hrs] [marker Hmarker] Hoff.
  unfold attach_channel, data_at, cell. rewrite Hd.
  destruct (attach_bodies m !! label) as [target|]; [|done].
  destruct Hoff as [offset Hoffset]; [done|].
  rewrite Forall_lookup in Hrows.
  destruct (lookup_lt_is_Some_2 d frame_no Hf) as [fr Hfr]. rewrite Hfr.
  destruct (Hrows _ _ Hfr) as [Hfrlen Hfrrows].
  destruct (lookup_lt_is_Some_2 fr j) as [row Hrow]; [lia|]. rewrite Hrow.
  rewrite Forall_lookup in Hfrrows.
  destruct (lookup_lt_is_Some_2 row 4) as [v ->].
  { specialize (Hfrrows _ _ Hrow). simpl in Hfrrows. lia. }
  destruct (v <? 0); [done|]. by rewrite Hrs, Hmarker, Hoffset.
Qed.

Lemma attach_loop_succeeds frame_no items (m0 m : Markers) (d : ndarray3)
    (n : nat) :
  same_config m0 m →
  data m0 = Some d →
  Forall (λ fr, length fr = n ∧ Forall (λ row : vec, (5 ≤ length row)%nat) fr)
         d →
  (frame_no < length d)%nat →
  is_Some (roots m0) →
  (∀ label j, (label, j) ∈ items →
      (j < n)%nat ∧ is_Some (marker_bodies m0 !! label)
      ∧ (is_Some (attach_bodies m0 !! label) →
         is_Some (attach_offsets m0 !! label))) →
  (attach_loop frame_no items m).1 = Ok tt.
Proof.
  intros Hc Hd Hrows Hf Hroots. revert m Hc.
  induction items as [|[label j] items IH]; intros m Hc Hit; simpl; [done|].
  destruct (Hit label j) as (Hj & Hmb & Hoff); [apply list_elem_of_here|].
  pose proof (attach_channel_succeeds frame_no label j m0 d n Hd Hrows Hf Hj
                Hroots Hmb Hoff) as Hok.
  rewrite <- (attach_channel_same_config frame_no label j m0 m Hc) in Hok.
  pose proof (attach_channel_config frame_no label j m) as Hc1.
  destruct (attach_channel frame_no label j m) as [[[]|e] m1]; simpl in *;
    [|done].
  apply IH.
  - by eapply same_config_trans.
  - intros label' j' Hin. apply Hit. by apply list_elem_of_further.
Qed.

(** From loading to stepping.  When [load_markers] has returned for a C3D
    file whose frames have one row of five columns per point label, the
    markers can be stepped to any of the frames that were loaded:
    [reposition] and [attach] return for every frame number below the number
    of frames, on the world as it was loaded and also after a [detach].  The
    tables that [load_c3d], [create_bodies] and [load_attachments] have
    filled are the ones [reposition] and [attach] look up. *)
Theorem loaded_frames_can_be_placed (py : pyversion) (host : Host)
    (filename attachments : string) (max_frames : option nat)
    (reader : C3DReader) (w w' : World) :
  endswith (lower filename) ".c3d" = true →
  files host !! filename = Some (C3DFile reader) →
  well_formed reader →
  load_markers py host filename attachments max_frames w = (Ok tt, w') →
  ∃ d,
    data (markers w') = Some d
    ∧ (length d ≤ length (read_frames reader))%nat
    ∧ ∀ frame_no, (frame_no < length d)%nat →
        (reposition frame_no w').1 = Ok tt
        ∧ (attach frame_no (markers w')).1 = Ok tt
        ∧ (reposition frame_no
             (with_markers (detach (markers w')) w')).1 = Ok tt
        ∧ (attach frame_no (detach (markers w'))).1 = Ok tt.
Proof.
  intros Hext Hfile Hwf Hload.
  unfold load_markers in Hload. rewrite Hext in Hload.
  unfold mbind, M_bind, modify in Hload. simpl in Hload.
  destruct (dt w =? 1 / frame_rate reader) eqn:Hrate.
  2: { unfold load_c3d in Hload. rewrite Hfile in Hload. run_M.
       by rewrite Hrate in Hload. }
  destruct (load_c3d_ok host filename max_frames reader
              (with_markers Markers_init w) Hfile Hrate)
    as (w1 & Hload1 & Hch1 & Hdata1 & Hmb1 & Hb1 & Hsk1 & Hdt1 & _).
  rewrite Hload1 in Hload.
  unfold load_attachments in Hload. run_M.
  destruct (files host !! attachments) as [[r|lines]|]; try done.
  destruct (load_attachment_lines_consistent _ _ _ _ _ _ Hload)
    as [(_ & Hb & _ & _ & Hsk & Hm) Hc].
  destruct Hc as [Hdom Htargets]; [done| |].
  { split; simpl; [done|]. intros label name. by rewrite lookup_empty. }
  simpl in Hm.
  assert (channels (markers w') = channels (markers w1)) as Hch.
  { by apply (f_equal channels) in Hm. }
  assert (data (markers w') = data (markers w1)) as Hdata.
  { by apply (f_equal data) in Hm. }
  assert (marker_bodies (markers w') = marker_bodies (markers w1)) as Hmb.
  { by apply (f_equal marker_bodies) in Hm. }
  assert (roots (markers w') = Some (sk_roots (skeleton w1))) as Hroots.
  { by apply (f_equal roots) in Hm. }
  set (raw := read_up_to max_frames (read_frames reader)) in *.
  set (n := length (point_labels reader)).
  assert (Forall (λ fr, length fr = n
                        ∧ Forall (λ row : vec, (5 ≤ length row)%nat) fr) raw)
    as Hraw.
  { unfold raw. destruct max_frames as [k|]; simpl; [|done].
    by apply Forall_take. }
  assert (length raw ≤ length (read_frames reader))%nat as Hrawlen.
  { unfold raw. destruct max_frames as [k|]; simpl; [|done].
    rewrite length_take. lia. }
  set (d := if String.eqb (lower (strip (point_units reader))) "mm"
            then scale_to_meters raw else raw) in *.
  assert (Forall (λ fr, length fr = n
                        ∧ Forall (λ row : vec, (5 ≤ length row)%nat) fr) d
          ∧ length d = length raw) as [Hrows Hdlen].
  { unfold d. destruct (String.eqb _ _); [|done].
    unfold scale_to_meters. rewrite length_map. split; [|done].
    apply Forall_fmap. eapply Forall_impl; [exact Hraw|].
    intros fr [Hlen Hfr]. simpl. rewrite length_map. split; [done|].
    apply Forall_fmap. eapply Forall_impl; [exact Hfr|].
    intros row Hrow. simpl in *. unfold vdivs.
    rewrite length_app, length_map, length_take, length_drop. lia. }
  assert (∀ label j, (label, j) ∈ channels (markers w') →
            (j < n)%nat ∧ is_Some (marker_bodies (markers w') !! label))
    as Hchannels.
  { intros label j. rewrite Hch, Hch1, Hmb, Hmb1. intros Hin.
    pose proof (interpret_channels_elem_lookup _ _ _ Hin) as Hj.
    split.
    - apply lookup_lt_Some in Hj. by rewrite length_fmap in Hj.
    - rewrite foldl_insert_lookup, bool_decide_eq_true_2; [done|].
      apply list_elem_of_fmap. by exists (label, j). }
  exists d. split_and!; [by rewrite Hdata|lia|].
  intros frame_no Hf.
  assert (∀ m, same_config (markers w') m →
               (reposition frame_no (with_markers m w')).1 = Ok tt
               ∧ (attach frame_no m).1 = Ok tt) as Hany.
  { intros m Hcm.
    assert (channels m = channels (markers w')) as Hcm_ch.
    { by apply (f_equal channels) in Hcm. }
    assert (data m = data (markers w')) as Hcm_d.
    { by apply (f_equal data) in Hcm. }
    assert (marker_bodies m = marker_bodies (markers w')) as Hcm_mb.
    { by apply (f_equal marker_bodies) in Hcm. }
    split.
    - apply (reposition_ok frame_no n d); simpl;
        [by rewrite Hcm_d, Hdata|done| |done].
      intros label j. rewrite Hcm_ch, Hcm_mb. intros Hin.
      by destruct (Hchannels label j Hin).
    - unfold attach. rewrite Hcm_ch.
      apply (attach_loop_succeeds frame_no _ (markers w') m d n);
        [done|by rewrite Hdata|done|done|by rewrite Hroots|].
      intros label j Hin. destruct (Hchannels label j Hin) as [Hj Hmbl].
      split_and!; [done..|].
      rewrite <- !elem_of_dom. by rewrite Hdom. }
  destruct (Hany (markers w') (same_config_refl _)) as [Hrep Hatt].
  destruct (Hany (detach (markers w'))) as [Hrep' Hatt'].
  { unfold same_config, detach. by destruct (markers w'). }
  split_and!; try done.
  by destruct w'.
Qed.

(** The file [slow.c3d] of the demonstration host, whose three frames have
    one row of five columns for its one label: after [load_markers] the
    markers can be placed at the last frame. *)
Lemma loaded_frames_can_be_placed_witness :
  (reposition 2
     (load_markers Py3 demo_host "slow.c3d" "attach.txt" None
                   (demo_world demo_data)).2).1 = Ok tt
  ∧ (attach 2
       (markers (load_markers Py3 demo_host "slow.c3d" "attach.txt" None
                              (demo_world demo_data)).2)).1 = Ok tt.
Proof.
  destruct (loaded_frames_can_be_placed Py3 demo_host "slow.c3d" "attach.txt"
              None (mkC3DReader 2 ["m0  "] demo_data "m")
              (demo_world demo_data)
              (load_markers Py3 demo_host "slow.c3d" "attach.txt" None
                            (demo_world demo_data)).2)
    as (d & Hd & _ & Hall).
  - reflexivity.
  - reflexivity.
  - unfold well_formed. simpl. repeat constructor; simpl; lia.
  - vm_compute. reflexivity.
  - assert (length d = 3%nat) as Hlen.
    { vm_compute in Hd. by injection Hd as <-. }
    destruct (Hall 2%nat) as (Hrep & Hatt & _); [lia|]. by split.
Defined.

(** ** pagoda/cooper.py: the frames that follow_markers steps to *)

Section following.
Context `{Engine}.

(** A loop that yields again what a generator yields runs as the generator
    does. *)
Lemma exec_for_enumerate_reyield (g : gen FrameState unit) (i : nat)
    (w : World) :
  exec (for_enumerate g i (λ _ states, yield states)) w = exec g w.
Proof.
  revert i w. induction g as [[]|e|y k IH|A o k IH]; intros i w; simpl;
    try done.
  - by rewrite IH.
  - destruct (handle o w) as [[a|e] w']; [|done]. by rewrite IH.
Qed.

(** A run of [_step_to_marker_frame] repositions the markers once at most,
    to its frame; when it completes, it has done so, and has yielded
    once. *)
Lemma step_repositioned (frame_no : nat) (w : World) :
  (repositioned (exec (_step_to_marker_frame frame_no) w).1 = []
   ∨ repositioned (exec (_step_to_marker_frame frame_no) w).1 = [frame_no])
  ∧ ((exec (_step_to_marker_frame frame_no) w).2.1 = Ok tt →
     repositioned (exec (_step_to_marker_frame frame_no) w).1 = [frame_no]
     ∧ length (yields (exec (_step_to_marker_frame frame_no) w).1) = 1%nat).
Proof.
  unfold _step_to_marker_frame. simpl.
  destruct (reposition frame_no _) as [[[]|e2] w2]; simpl.
  2: { split; [by left|done]. }
  destruct (on_markers (attach frame_no) w2) as [[[]|e3] w3]; simpl.
  2: { split; [by right|done]. }
  destruct (Skel.set_body_states _ _) as [[[]|e5] w5]; simpl.
  2: { split; [by right|done]. }
  split; [by right|done].
Qed.

(** The loop of [follow_markers] over the frames [l]. *)
Lemma for_list_followed py start end_ (l : list nat) (w : World) :
  let body := λ frame_no : nat,
    gen_bind (λ inside : bool,
                if inside
                then for_each (_step_to_marker_frame frame_no)
                              (λ states, yield states)
                else Ret tt)
             (of_result (in_range py start frame_no end_)) in
  repositioned (exec (for_list l body) w).1
    `prefix_of` filter (λ f, follows py start end_ f = true) l
  ∧ ((exec (for_list l body) w).2.1 = Ok tt →
     repositioned (exec (for_list l body) w).1
     = filter (λ f, follows py start end_ f = true) l
     ∧ length (yields (exec (for_list l body) w).1)
       = length (filter (λ f, follows py start end_ f = true) l)).
Proof.
  intros body. subst body. revert w.
  induction l as [|f l IH]; intros w; cbn [for_list].
  { split; [done|]. by intros _. }
  rewrite exec_bind, filter_cons. cbn beta.
  assert (follows py start end_ f
          = match in_range py start f end_ with
            | Ok true => true
            | _ => false
            end) as Hfol by done.
  destruct (in_range py start f end_) as [[|]|e]; cbn [of_result gen_bind];
    rewrite Hfol; case_decide; try done.
  - unfold for_each. rewrite exec_for_enumerate_reyield.
    destruct (step_repositioned f w) as [Hpre Hok].
    destruct (exec (_step_to_marker_frame f) w) as [t1 [[[]|e1] w1]];
      simpl in Hpre, Hok.
    + destruct (Hok eq_refl) as [Hrep Hy].
      destruct (IH w1) as [IHpre IHok].
      destruct (exec (for_list l _) w1) as [t2 [r2 w2]]; simpl in *.
      unfold repositioned, yields in *. rewrite !omap_app.
      rewrite Hrep. split.
      * by apply prefix_cons.
      * intros Hr2. destruct (IHok Hr2) as [-> Hlen].
        split; [done|]. rewrite length_app, Hy. simpl. by rewrite Hlen.
    + split; [|done]. simpl. destruct Hpre as [-> | ->].
      * apply prefix_nil.
      * apply prefix_cons, prefix_nil.
  - cbn [exec]. destruct (IH w) as [IHpre IHok].
    by destruct (exec (for_list l _) w) as [t2 [r2 w2]].
  - split; [apply prefix_nil|done].
Qed.

(** The run of [follow_markers] when no states are given. *)
Lemma follow_markers_loop py start end_ (w : World) (d : ndarray3) :
  data (markers w) = Some d →
  repositioned (exec (follow_markers py start end_ None) w).1
    `prefix_of` followed_frames py start end_ (length d)
  ∧ ((exec (follow_markers py start end_ None) w).2.1 = Ok tt →
     repositioned (exec (follow_markers py start end_ None) w).1
     = followed_frames py start end_ (length d)
     ∧ length (yields (exec (follow_markers py start end_ None) w).1)
       = length (followed_frames py start end_ (length d))).
Proof.
  intros Hd. unfold follow_markers, mbind, gen_mbind, call.
  cbn [gen_bind exec handle]. rewrite Hd.
  pose proof (for_list_followed py start end_ (seq 0 (length d)) w)
    as [Hpre Hok].
  cbv zeta in Hpre, Hok. unfold followed_frames.
  match goal with
  | |- context [exec ?g w] => destruct (exec g w) as [t [r w1]]
  end.
  by split.
Qed.

(** The frames that [follow_markers] steps to.  In a world with [n] frames
    of marker data, the markers are repositioned to frames of
    [0, ..., n - 1] for which the test [start <= frame_no < end] holds, in
    ascending order and without a frame left out on the way; when the run
    completes, to every such frame, once each, and the run has yielded one
    frame state per frame.  For an integer [end] these are the frames from
    [start] up to, and without, [end]. *)
Theorem follow_markers_steps_each_frame_once (py : pyversion) (start : Z)
    (end_ : pyval) (states : option FrameState) (w : World) (d : ndarray3) :
  data (markers w) = Some d →
  repositioned (exec (follow_markers py start end_ states) w).1
    `prefix_of` followed_frames py start end_ (length d)
  ∧ ((exec (follow_markers py start end_ states) w).2.1 = Ok tt →
     repositioned (exec (follow_markers py start end_ states) w).1
     = followed_frames py start end_ (length d)
     ∧ length (yields (exec (follow_markers py start end_ states) w).1)
       = length (followed_frames py start end_ (length d)))
  ∧ (∀ (last : Z) (f : nat),
       f ∈ followed_frames py start (PyInt last) (length d)
       ↔ (f < length d)%nat ∧ (start ≤ Z.of_nat f < last)%Z).
Proof.
  intros Hd.
  assert (repositioned (exec (follow_markers py start end_ states) w).1
            `prefix_of` followed_frames py start end_ (length d)
          ∧ ((exec (follow_markers py start end_ states) w).2.1 = Ok tt →
             repositioned (exec (follow_markers py start end_ states) w).1
             = followed_frames py start end_ (length d)
             ∧ length (yields (exec (follow_markers py start end_ states) w).1)
               = length (followed_frames py start end_ (length d))))
    as [Hpre Hok].
  { destruct states as [s|]; [|by apply follow_markers_loop].
    change (follow_markers py start end_ (Some s))
      with (gen_bind (λ _, follow_markers py start end_ None)
                     (call (Y:=FrameState) (SkeletonSetBodyStates s))).
    rewrite exec_bind. unfold call. cbn [exec handle].
    pose proof (set_body_states_markers s w) as Hm.
    destruct (Skel.set_body_states s w) as [[[]|e] w1]; simpl in Hm.
    - destruct (follow_markers_loop py start end_ w1 d) as [Hpre Hok].
      { by rewrite Hm. }
      cbn [exec].
      destruct (exec (follow_markers py start end_ None) w1)
        as [t [r w2]].
      by split.
    - split; [apply prefix_nil|done]. }
  split_and!; [done..|].
  intros last f. unfold followed_frames.
  rewrite list_elem_of_filter, elem_of_seq. unfold follows, in_range. simpl.
  destruct (start <=? Z.of_nat f)%Z eqn:Hlo;
    [destruct (Z.of_nat f <? last)%Z eqn:Hhi|]; lia.
Qed.

End following.

(** On the three frames of the demonstration track, following from frame 1
    to frame 3 steps to the frames 1 and 2. *)
Lemma follow_markers_steps_each_frame_once_witness :
  repositioned (@exec euler_engine _ _ (follow_markers Py3 1 (PyInt 3) None)
                      (demo_world demo_data)).1
  = [1; 2]%nat.
Proof.
  destruct (@follow_markers_steps_each_frame_once euler_engine Py3 1
              (PyInt 3) None (demo_world demo_data) demo_data eq_refl)
    as (_ & Hok & _).
  destruct Hok as [-> _]; [vm_compute; reflexivity|].
  vm_compute. reflexivity.
Defined.

(** ** pagoda/cooper.py: World.step and World.reset *)

Section stepping.
Context `{Engine}.

Lemma event_of_yields {Y A} (o : op A) (a : A) (w : World) (t : trace Y) :
  yields ((event_of o a, w) :: t) = yields t.
Proof. by destruct o. Qed.

Lemma yields_app_yield {Y} (pre t : trace Y) (y : Y) (w : World) :
  yields pre = [] → yields (pre ++ (EvYield y, w) :: t) = y :: yields t.
Proof. intros Hpre. unfold yields in *. by rewrite omap_app, Hpre. Qed.

(** What [next] does is the beginning of what a run to exhaustion does. *)
Lemma next_exec {Y R} (g : gen Y R) (w : World) :
  match Stepping.next g w with
  | (Stepping.Yielded y k, w1) =>
      ∃ pre, yields pre = []
             ∧ exec g w = (pre ++ (EvYield y, w1) :: (exec k w1).1,
                           (exec k w1).2)
  | (Stepping.Returned r, w1) =>
      ∃ t, yields t = [] ∧ exec g w = (t, (Ok r, w1))
  | (Stepping.Raised e, w1) =>
      ∃ t, yields t = [] ∧ exec g w = (t, (Raise e, w1))
  end.
Proof.
  revert w. induction g as [r|e|y k IH|A o k IH]; intros w; simpl.
  - by exists [].
  - eexists. split; [|reflexivity]. done.
  - exists []. split; [done|]. by destruct (exec k w).
  - destruct (handle o w) as [[a|e] w'];
      [|eexists; split; [|reflexivity]; done].
    specialize (IH a w').
    destruct (Stepping.next (k a) w') as [[y k'|r|e] w1].
    + destruct IH as (pre & Hpre & ->).
      exists ((event_of o a, w') :: pre).
      by rewrite event_of_yields.
    + destruct IH as (t & Ht & ->).
      exists ((event_of o a, w') :: t). by rewrite event_of_yields.
    + destruct IH as (t & Ht & ->).
      exists ((event_of o a, w') :: t). by rewrite event_of_yields.
Qed.

Lemma steps_S (py : pyversion) (n : nat) (s : Stepping.World_) :
  Stepping.steps py (S n) s
  = match Stepping.step py s with
    | (Ok _, s') => Stepping.steps py n s'
    | (Raise e, s') => (Raise e, s')
    end.
Proof. done. Qed.

(** Stepping is following, one [yield] at a time.  Take a world whose
    [follower] is suspended, and a run to exhaustion of that generator that
    raises nothing and yields [k] times.  Then [k + 1] calls of [step]
    return, and leave the world where the run to exhaustion leaves it, with
    the frame counter [k + 1] higher and a fresh follower: the first [k]
    calls take one value each, the engine step that comes after the last
    [yield] is made by the call that finds the generator exhausted and
    resets it.  A call of [step] on a world that has no follower yet only
    creates one: the simulation is not touched. *)
Theorem step_resumes_the_follower (py : pyversion) (s : Stepping.World_)
    (z : Z) :
  Stepping.frame_no s = Some z →
  (∀ g t w',
     Stepping.follower s = Some g →
     exec g (Stepping.world s) = (t, (Ok tt, w')) →
     Stepping.steps py (S (length (yields t))) s
     = (Ok tt,
        Stepping.mkWorld_ w' (Some (z + Z.of_nat (S (length (yields t))))%Z)
          (Some (follow_markers py 0 (PyFloat 1e100) None))))
  ∧ (Stepping.follower s = None →
     Stepping.step py s
     = (Ok tt,
        Stepping.mkWorld_ (Stepping.world s) (Some (z + 1)%Z)
          (Some (follow_markers py 0 (PyFloat 1e100) None)))).
Proof.
  intros Hz. split.
  2: { intros Hf. unfold Stepping.step. by rewrite Hz, Hf. }
  intros g t w' Hg Hrun.
  remember (length (yields t)) as n eqn:Hn.
  revert s z g t Hz Hg Hrun Hn.
  induction n as [|n IH]; intros s z g t Hz Hg Hrun Hn.
  - rewrite steps_S. unfold Stepping.step. rewrite Hz, Hg.
    pose proof (next_exec g (Stepping.world s)) as Hnext.
    destruct (Stepping.next g (Stepping.world s)) as [[y k|r|e] w1];
      lazy iota beta.
    + destruct Hnext as (pre & Hpre & Hex). rewrite Hex in Hrun.
      injection Hrun as <- _. by rewrite yields_app_yield in Hn.
    + destruct Hnext as (t0 & Ht0 & Hex). rewrite Hex in Hrun.
      by simplify_eq.
    + destruct Hnext as (t0 & Ht0 & Hex). rewrite Hex in Hrun. done.
  - rewrite steps_S. unfold Stepping.step at 1. rewrite Hz, Hg.
    pose proof (next_exec g (Stepping.world s)) as Hnext.
    destruct (Stepping.next g (Stepping.world s)) as [[y k|r|e] w1];
      lazy iota beta.
    + destruct Hnext as (pre & Hpre & Hex). rewrite Hex in Hrun.
      destruct (exec k w1) as [t2 out2] eqn:Hk. simpl in Hrun.
      injection Hrun as <- ->.
      assert (length (yields t2) = n) as Hn2.
      { rewrite yields_app_yield in Hn by done. simpl in Hn. lia. }
      rewrite (IH (Stepping.mkWorld_ w1 (Some (z + 1)%Z) (Some k))
                  (z + 1)%Z k t2 eq_refl eq_refl Hk (eq_sym Hn2)).
      do 3 f_equal. lia.
    + destruct Hnext as (t0 & Ht0 & Hex). rewrite Hex in Hrun.
      simplify_eq. by rewrite Ht0 in Hn.
    + destruct Hnext as (t0 & Ht0 & Hex). rewrite Hex in Hrun. done.
Qed.

End stepping.

(** On the demonstration world, whose track has three frames: the follower
    yields three times, and four calls of [step] make the whole pass. *)
Lemma step_resumes_the_follower_witness :
  @Stepping.steps euler_engine Py3 4
    (Stepping.mkWorld_ (demo_world demo_data) (Some 0%Z)
       (Some (follow_markers Py3 0 (PyFloat 1e100) None)))
  = (Ok tt,
     Stepping.mkWorld_
       (@exec euler_engine _ _ (follow_markers Py3 0 (PyFloat 1e100) None)
              (demo_world demo_data)).2.2
       (Some 4%Z)
       (Some (follow_markers Py3 0 (PyFloat 1e100) None))).
Proof.
  destruct (@step_resumes_the_follower euler_engine Py3
              (Stepping.mkWorld_ (demo_world demo_data) (Some 0%Z)
                 (Some (follow_markers Py3 0 (PyFloat 1e100) None)))
              0%Z eq_refl) as [Hsteps _].
  apply (Hsteps (follow_markers Py3 0 (PyFloat 1e100) None)
           (@exec euler_engine _ _
              (follow_markers Py3 0 (PyFloat 1e100) None)
              (demo_world demo_data)).1); [reflexivity|].
  vm_compute. reflexivity.
Defined.

(** ** lmj/sim/physics.py: the names of new bodies *)

(** The name that the loop of [create_body] ends with is the candidate of
    some number [j]; the candidates before it are taken; and if it is taken
    too, it is the last candidate. *)
Lemma generate_name_spec shape (bodies : gmap string Sim.PyBody) i more :
  ∃ j, (i ≤ j ≤ i + more)%nat
       ∧ Sim.generate_name shape bodies i more = (shape +:+ pretty j)%string
       ∧ (∀ j', (i ≤ j' < j)%nat → (shape +:+ pretty j')%string ∈ dom bodies)
       ∧ ((shape +:+ pretty j)%string ∈ dom bodies → j = (i + more)%nat).
Proof.
  revert i. induction more as [|more IH]; intros i; simpl.
  { exists i. split_and!; [lia|lia|done|lia|lia]. }
  case_bool_decide as Hfree.
  - exists i. split_and!; [lia|lia|done|lia|done].
  - destruct (IH (S i)) as (j & Hj & Hname & Hbefore & Hlast).
    exists j. split_and!; [lia|lia|done| |].
    + intros j' Hj'. destruct (decide (j' = i)) as [->|Hne]; [done|].
      apply Hbefore. lia.
    + intros Hin. rewrite (Hlast Hin). lia.
Qed.

(** More names than bodies: the candidates numbered [0] to the number of
    bodies are not all taken. *)
Lemma candidates_not_all_taken shape (bodies : gmap string Sim.PyBody) :
  ¬ ∀ j, (j ≤ size bodies)%nat → (shape +:+ pretty j)%string ∈ dom bodies.
Proof.
  intros Hall.
  set (names := (λ j : nat, (shape +:+ pretty j)%string)
                  <$> seq 0 (S (size bodies))).
  assert (NoDup names) as Hnd.
  { apply NoDup_fmap_2; [|apply NoDup_seq].
    intros j1 j2 Heq. apply (inj (String.app shape)) in Heq.
    by apply (inj pretty) in Heq. }
  assert (list_to_set (C:=gset string) names ⊆ dom bodies) as Hsub.
  { intros name (j & -> & Hj)%elem_of_list_to_set%list_elem_of_fmap.
    apply Hall. apply elem_of_seq in Hj. lia. }
  apply subseteq_size in Hsub.
  rewrite size_list_to_set, size_dom in Hsub by done.
  unfold names in Hsub. rewrite length_fmap, length_seq in Hsub. lia.
Qed.

(** [create_body] without a name never takes the place of a body.  The
    name it makes up, the shape in lower case followed by a number, is the
    name of no body of the world: it is the one with the least number that
    is free, and one of the candidates is free because there are more
    candidates than bodies.  When the call returns, the new body is
    registered under that name, every body that was there is there
    unchanged, and the world has one body more.  When it raises, for an
    unknown shape or for keywords that do not fit the shape, the world is as
    it was. *)
Theorem create_body_picks_a_free_name (shape : string) (color : option vec)
    (kw : Sim.kwargs) (random3 : vec) (w : Sim.World_) :
  (Sim.generate_name (lower shape) (Sim._bodies w) 0 (size (Sim._bodies w))
     ∉ dom (Sim._bodies w))
  ∧ (∃ i, (i ≤ size (Sim._bodies w))%nat
          ∧ Sim.generate_name (lower shape) (Sim._bodies w) 0
                              (size (Sim._bodies w))
            = (lower shape +:+ pretty i)%string
          ∧ ∀ j, (j < i)%nat →
                 (lower shape +:+ pretty j)%string ∈ dom (Sim._bodies w))
  ∧ (∀ name w',
       Sim.create_body shape None color kw random3 w = (Ok name, w') →
       name = Sim.generate_name (lower shape) (Sim._bodies w) 0
                                (size (Sim._bodies w))
       ∧ (∃ body, Sim._bodies w' !! name = Some body
                  ∧ Sim.body_name body = name)
       ∧ (∀ k b, Sim._bodies w !! k = Some b → Sim._bodies w' !! k = Some b)
       ∧ size (Sim._bodies w') = S (size (Sim._bodies w)))
  ∧ (∀ name e w',
       Sim.create_body shape name color kw random3 w = (Raise e, w') →
       w' = w).
Proof.
  destruct (generate_name_spec (lower shape) (Sim._bodies w) 0
              (size (Sim._bodies w))) as (i & Hi & Hname & Hbefore & Hlast).
  assert (Sim.generate_name (lower shape) (Sim._bodies w) 0
                            (size (Sim._bodies w))
            ∉ dom (Sim._bodies w)) as Hfree.
  { rewrite Hname. intros Hin.
    apply (candidates_not_all_taken (lower shape) (Sim._bodies w)).
    intros j Hj. specialize (Hlast Hin). simpl in Hlast. subst i.
    destruct (decide (j = size (Sim._bodies w))) as [->|Hne]; [done|].
    apply Hbefore. lia. }
  split_and!.
  - done.
  - exists i. split_and!; [lia|done|]. intros j Hj. apply Hbefore. lia.
  - intros name w'. unfold Sim.create_body.
    destruct (Sim.BODIES !! lower shape) as [cls|]; [|done].
    destruct (Sim.Body_init cls _ kw) as [body|e] eqn:Hinit; [|done].
    intros [= <- <-]. simpl. split_and!.
    + done.
    + exists body. rewrite lookup_insert_eq. split; [done|].
      unfold Sim.Body_init in Hinit.
      destruct (Sim.init_mass cls (Sim.kw_shape kw)); [|done].
      case_bool_decide; [|done]. by simplify_eq.
    + intros k b Hk. rewrite lookup_insert_ne; [done|].
      intros <-. apply Hfree. apply elem_of_dom. by eexists.
    + rewrite map_size_insert_None; [done|]. by apply not_elem_of_dom.
  - intros name e w'. unfold Sim.create_body.
    destruct (Sim.BODIES !! lower shape) as [cls|]; [|by intros [= _ <-]].
    destruct (Sim.Body_init cls _ kw) as [body|e']; [done|].
    by intros [= _ <-].
Qed.

(** Three spheres are created in turn, and the one in the middle under a
    name of its own: the names are [sphere0], [sphere1] and [sphere2]. *)
Example create_body_demo :
  let w0 := Sim.mkWorld_ 0 0.5 0.2 200 [] ∅ ∅ in
  let kw := Sim.mkKwargs None None {["radius" := Sim.ArgFloat 1]} in
  let r1 := Sim.create_body "Sphere" None None kw [0; 0; 0] w0 in
  let r2 := Sim.create_body "sph" (Some "sphere1") None kw [0; 0; 0] r1.2 in
  let r3 := Sim.create_body "sphere" None None kw [0; 0; 0] r2.2 in
  let r4 := Sim.create_body "sphere" None None kw [0; 0; 0] r3.2 in
  (r1.1, r2.1, r3.1, r4.1)
  = (Ok "sphere0", Ok "sphere1", Ok "sphere2", Ok "sphere3")
  ∧ (Sim.create_body "ball" None None kw [0; 0; 0] w0).1
    = Raise (KeyError "ball")
  ∧ (Sim.create_body "box" None None kw [0; 0; 0] w0).1
    = Raise (KeyError "lengths").
Proof. vm_compute. done. Qed.

(** ** lmj/sim/physics.py: the parameters of a joint, axis by axis *)

Lemma ode_Param_name consts param s c :
  Sim.ode_Param consts param s = Ok c → c = ("Param" +:+ param +:+ s)%string.
Proof. unfold Sim.ode_Param. case_bool_decide; by intros [= <-]. Qed.

Lemma setParam_eq c v target : Sim.setParam c v target c = v.
Proof. unfold Sim.setParam. by rewrite String.eqb_refl. Qed.

Lemma setParam_ne c c' v target : c' ≠ c → Sim.setParam c v target c' = target c'.
Proof.
  intros Hne. unfold Sim.setParam.
  destruct (String.eqb c' c) eqn:E; [|done]. by apply String.eqb_eq in E.
Qed.

(** The loop of [_set_params] over distinct suffixes: what it has written
    is what the loop of [_get_params] reads, and it has written nothing
    else. *)
Lemma set_loop_spec consts (target target' : Sim.Params) param
    (items : list (string * float)) :
  NoDup items.*1 →
  Sim.set_loop consts target param items = (Ok tt, target') →
  Sim.get_loop consts target' param items.*1 = Ok items.*2
  ∧ ∀ c, (∀ s, s ∈ items.*1 → c ≠ ("Param" +:+ param +:+ s)%string) →
         target' c = target c.
Proof.
  revert target. induction items as [|[s v] items IH]; intros target Hnd;
    csimpl.
  { by intros [= <-]. }
  apply NoDup_cons in Hnd as [Hs Hnd].
  destruct (Sim.ode_Param consts param s) as [c|e] eqn:Hc; [|done].
  intros Hset. destruct (IH _ Hnd Hset) as [Hget Hother].
  pose proof (ode_Param_name _ _ _ _ Hc) as ->.
  split.
  - rewrite Hget, Hother.
    + by rewrite setParam_eq.
    + intros s' Hs' Heq. apply (inj (String.app "Param")) in Heq.
      apply (inj (String.app param)) in Heq. by subst.
  - intros c Hcother. rewrite Hother.
    + apply setParam_ne, Hcother, list_elem_of_here.
    + intros s' Hs'. by apply Hcother, list_elem_of_further.
Qed.

Lemma snd_zip_shorter {A B} (l : list A) (k : list B) :
  (zip l k).*2 = take (length l) k.
Proof.
  revert k. induction l as [|a l IH]; intros [|b k]; csimpl; try done.
  by rewrite IH.
Qed.

Lemma suffixes_take (dof : Z) :
  (0 ≤ dof)%Z → Sim.suffixes dof = take (Z.to_nat dof) [""; "2"; "3"].
Proof.
  intros Hdof. unfold Sim.suffixes, slice, slice_index. simpl.
  destruct (dof <? 0)%Z eqn:E; [lia|].
  rewrite Nat.sub_0_r.
  destruct (Z.to_nat dof) as [|[|[|n]]]; simpl; try done. by destruct n.
Qed.

(** Round trip through the parameters of a joint.  When [_set_params]
    returns, [dof] is the number of values (for a number in the place of the
    values: as many copies of it as [dof] says), and [_get_params] for the
    same parameter and the same [dof] returns the values that were given, up
    to the third: a joint has three axes at most, and a fourth value is
    accepted and dropped.  No parameter but the three of that name has
    changed. *)
Theorem set_then_get_params (ode_constants : list string)
    (target target' : Sim.Params) (param : string) (values : Sim.pyvalues)
    (dof : Z) :
  Sim._set_params ode_constants target param values dof = (Ok tt, target') →
  let given := match values with
               | Sim.Scalar x => replicate (Z.to_nat dof) x
               | Sim.Sequence l => l
               end in
  Z.of_nat (length given) = dof
  ∧ Sim._get_params ode_constants target' param dof = Ok (take 3 given)
  ∧ ∀ c, (∀ s, s ∈ [""; "2"; "3"] → c ≠ ("Param" +:+ param +:+ s)%string) →
         target' c = target c.
Proof.
  intros Hset given. unfold Sim._set_params in Hset. fold given in Hset.
  destruct (dof =? Z.of_nat (length given))%Z eqn:Hdof; [|done].
  apply Z.eqb_eq in Hdof. simpl in Hset.
  assert (Sim.suffixes dof = take (length given) [""; "2"; "3"]) as Hsuf.
  { rewrite suffixes_take by lia. by rewrite Hdof, Nat2Z.id. }
  rewrite Hsuf in Hset.
  assert (NoDup (take (length given) [""; "2"; "3"])) as Hnd.
  { apply (sublist_NoDup _ [""; "2"; "3"]);
      [by apply (bool_decide_unpack _)|apply sublist_take]. }
  assert ((zip (take (length given) [""; "2"; "3"]) given).*1
          = take (length given) [""; "2"; "3"]) as Hfst.
  { apply fst_zip. rewrite length_take. lia. }
  assert ((zip (take (length given) [""; "2"; "3"]) given).*2
          = take 3 given) as Hsnd.
  { rewrite snd_zip_shorter. rewrite length_take. simpl.
    destruct (decide (length given ≤ 3)%nat).
    - rewrite Nat.min_l by done. by rewrite !take_ge by lia.
    - by rewrite Nat.min_r by lia. }
  destruct (set_loop_spec ode_constants target target' param _
              ltac:(by rewrite Hfst) Hset) as [Hget Hother].
  rewrite Hfst, Hsnd in Hget. rewrite Hfst in Hother. split_and!.
  - done.
  - unfold Sim._get_params. by rewrite Hsuf.
  - intros c Hc. apply Hother. intros s Hs. apply Hc.
    apply elem_of_take in Hs as (i & Hi & _).
    by eapply list_elem_of_lookup_2.
Qed.

(** Two velocities for a joint of two axes, in a module that has the three
    constants of the parameter. *)
Lemma set_then_get_params_witness :
  Sim._get_params ["ParamVel"; "ParamVel2"; "ParamVel3"]
    (Sim._set_params ["ParamVel"; "ParamVel2"; "ParamVel3"] (λ _, 0) "Vel"
                     (Sim.Sequence [1; 2]) 2).2 "Vel" 2
  = Ok [1; 2].
Proof.
  apply (set_then_get_params ["ParamVel"; "ParamVel2"; "ParamVel3"]
           (λ _, 0)
           (Sim._set_params ["ParamVel"; "ParamVel2"; "ParamVel3"] (λ _, 0)
                            "Vel" (Sim.Sequence [1; 2]) 2).2
           "Vel" (Sim.Sequence [1; 2]) 2).
  vm_compute. reflexivity.
Defined.

(** ** lmj/sim/physics.py: stepping the world *)

Section sim_step.
Context `{Sim.Ode}.

(** What collision detection keeps, and what it adds: contacts that carry
    the elasticity and the friction of the world. *)
Lemma on_collision_keeps (geom_a geom_b : Sim.geom) (w : Sim.World_) :
  Sim.frame (Sim.on_collision geom_a geom_b w) = Sim.frame w
  ∧ Sim.dt (Sim.on_collision geom_a geom_b w) = Sim.dt w
  ∧ Sim.elasticity (Sim.on_collision geom_a geom_b w) = Sim.elasticity w
  ∧ Sim.friction (Sim.on_collision geom_a geom_b w) = Sim.friction w
  ∧ Sim._colors (Sim.on_collision geom_a geom_b w) = Sim._colors w
  ∧ Sim._bodies (Sim.on_collision geom_a geom_b w) = Sim._bodies w
  ∧ ∃ new,
      Sim.contactgroup (Sim.on_collision geom_a geom_b w)
      = Sim.contactgroup w ++ new
      ∧ Forall (λ cj, Sim.bounce (Sim.cj_contact cj)
                      = Some (Sim.elasticity w)
                      ∧ Sim.mu (Sim.cj_contact cj) = Some (Sim.friction w))
               new.
Proof.
  unfold Sim.on_collision.
  destruct (Sim.areConnected w _ _).
  { split_and!; try done. exists []. by rewrite app_nil_r. }
  generalize (Sim.collide w geom_a geom_b). intros cs.
  induction cs as [|c cs IH] using rev_ind; simpl.
  { split_and!; try done. exists []. by rewrite app_nil_r. }
  rewrite foldl_app. simpl.
  destruct IH as (Hf & Hdt & He & Hfr & Hc & Hb & new & Hnew & Hgood).
  split_and!; try done.
  eexists (new ++ [_]). rewrite Hnew, <- app_assoc. split; [done|].
  apply Forall_app. split; [done|]. apply Forall_singleton. simpl.
  by rewrite He, Hfr.
Qed.

Lemma space_collide_keeps (w : Sim.World_) :
  Sim.frame (Sim.space_collide w) = Sim.frame w
  ∧ Sim.dt (Sim.space_collide w) = Sim.dt w
  ∧ Sim.elasticity (Sim.space_collide w) = Sim.elasticity w
  ∧ Sim.friction (Sim.space_collide w) = Sim.friction w
  ∧ Sim._colors (Sim.space_collide w) = Sim._colors w
  ∧ Sim._bodies (Sim.space_collide w) = Sim._bodies w
  ∧ ∃ new,
      Sim.contactgroup (Sim.space_collide w) = Sim.contactgroup w ++ new
      ∧ Forall (λ cj, Sim.bounce (Sim.cj_contact cj)
                      = Some (Sim.elasticity w)
                      ∧ Sim.mu (Sim.cj_contact cj) = Some (Sim.friction w))
               new.
Proof.
  unfold Sim.space_collide. generalize (Sim.near_pairs w). intros pairs.
  induction pairs as [|[a b] pairs IH] using rev_ind; simpl.
  { split_and!; try done. exists []. by rewrite app_nil_r. }
  rewrite foldl_app. simpl.
  destruct IH as (Hf & Hdt & He & Hfr & Hc & Hb & new & Hnew & Hgood).
  destruct (on_collision_keeps a b
              (foldl (λ w ab, Sim.on_collision ab.1 ab.2 w) w pairs))
    as (Hf' & Hdt' & He' & Hfr' & Hc' & Hb' & new' & Hnew' & Hgood').
  split_and!; try congruence.
  exists (new ++ new'). rewrite Hnew', Hnew, <- app_assoc. split; [done|].
  apply Forall_app. split; [done|]. by rewrite He, Hfr in Hgood'.
Qed.

Lemma substep_keeps (dt : float) (w : Sim.World_) :
  Sim.frame (Sim.substep dt w) = Sim.frame w
  ∧ Sim.dt (Sim.substep dt w) = Sim.dt w
  ∧ Sim.elasticity (Sim.substep dt w) = Sim.elasticity w
  ∧ Sim.friction (Sim.substep dt w) = Sim.friction w
  ∧ Sim._colors (Sim.substep dt w) = Sim._colors w
  ∧ Forall (λ cj, Sim.bounce (Sim.cj_contact cj) = Some (Sim.elasticity w)
                  ∧ Sim.mu (Sim.cj_contact cj) = Some (Sim.friction w))
           (Sim.contactgroup (Sim.substep dt w)).
Proof.
  unfold Sim.substep. simpl.
  destruct (space_collide_keeps (Sim.with_contactgroup [] w))
    as (Hf & Hdt & He & Hfr & Hc & Hb & new & Hnew & Hgood).
  simpl in *. split_and!; try done. by rewrite Hnew.
Qed.

(** A call of [step] advances the frame counter by one, whatever
    [substeps] is, and leaves the time step, the elasticity, the friction
    and the colours as they are.  With [substeps = 0] it raises
    [ZeroDivisionError], after the counter has advanced and before anything
    else; with a negative [substeps] it returns [True] and the engine has
    not stepped.  With a positive [substeps] it returns [True], and every
    contact joint that is in the contact group then carries the elasticity
    of the world as its bounce and the friction of the world as its [mu]:
    the group is emptied at the start of every turn, so that no contact of
    an earlier call is left in it. *)
Theorem step_advances_the_frame (substeps : Z) (w : Sim.World_) :
  Sim.frame (Sim.step substeps w).2 = (Sim.frame w + 1)%Z
  ∧ Sim.dt (Sim.step substeps w).2 = Sim.dt w
  ∧ Sim.elasticity (Sim.step substeps w).2 = Sim.elasticity w
  ∧ Sim.friction (Sim.step substeps w).2 = Sim.friction w
  ∧ Sim._colors (Sim.step substeps w).2 = Sim._colors w
  ∧ ((Sim.step substeps w).1 = Sim.ZeroDivisionError ↔ substeps = 0%Z)
  ∧ ((Sim.step substeps w).1 = Sim.Returns true ↔ substeps ≠ 0%Z)
  ∧ ((substeps ≤ 0)%Z →
     Sim._bodies (Sim.step substeps w).2 = Sim._bodies w
     ∧ Sim.contactgroup (Sim.step substeps w).2 = Sim.contactgroup w)
  ∧ ((0 < substeps)%Z →
     Forall (λ cj, Sim.bounce (Sim.cj_contact cj) = Some (Sim.elasticity w)
                   ∧ Sim.mu (Sim.cj_contact cj) = Some (Sim.friction w))
            (Sim.contactgroup (Sim.step substeps w).2)).
Proof.
  assert (∀ n dt w1,
            Sim.frame (Nat.iter n (Sim.substep dt) w1) = Sim.frame w1
            ∧ Sim.dt (Nat.iter n (Sim.substep dt) w1) = Sim.dt w1
            ∧ Sim.elasticity (Nat.iter n (Sim.substep dt) w1)
              = Sim.elasticity w1
            ∧ Sim.friction (Nat.iter n (Sim.substep dt) w1) = Sim.friction w1
            ∧ Sim._colors (Nat.iter n (Sim.substep dt) w1) = Sim._colors w1
            ∧ ((0 < n)%nat →
               Forall (λ cj, Sim.bounce (Sim.cj_contact cj)
                             = Some (Sim.elasticity w1)
                             ∧ Sim.mu (Sim.cj_contact cj)
                               = Some (Sim.friction w1))
                      (Sim.contactgroup (Nat.iter n (Sim.substep dt) w1))))
    as Hiter.
  { intros n dt w1. induction n as [|n (Hf & Hdt & He & Hfr & Hc & _)].
    { simpl. split_and!; try done. lia. }
    rewrite !Nat.iter_succ.
    destruct (substep_keeps dt (Nat.iter n (Sim.substep dt) w1))
      as (Hf' & Hdt' & He' & Hfr' & Hc' & Hgood).
    split_and!; try congruence.
    intros _. by rewrite He, Hfr in Hgood. }
  unfold Sim.step.
  destruct (substeps =? 0)%Z eqn:Hzero.
  { apply Z.eqb_eq in Hzero. subst. simpl.
    split_and!; try done; lia. }
  apply Z.eqb_neq in Hzero. simpl.
  match goal with
  | |- context [Nat.iter ?n (Sim.substep ?dt) ?w1] =>
      destruct (Hiter n dt w1) as (Hf & Hdt & He & Hfr & Hc & Hgood)
  end.
  simpl in *. split_and!; try done.
  - intros Hneg. by replace (Z.to_nat substeps) with 0%nat by lia.
  - intros Hpos. apply Hgood. lia.
Qed.

End sim_step.
